(** * rssant command line maintenance commands ([rssant_cli/rss.py])

    A shallow embedding of the batch repair commands of [rssant_cli/rss.py]
    and the properties stated about them.  Storage tables are lists of rows
    (in the order a query returns them), Python exceptions are an error
    monad, and every command that writes returns the list of the writes it
    performed next to the new storage. *)

From Stdlib Require Import ZArith Lia SpecFloat Ascii String.
From stdpp Require Import base tactics option list sets strings pretty sorting.

Open Scope Z_scope.

(** ** Exceptions and loops *)

Inductive Error : Type :=
  | IntegrityError      (* a uniqueness constraint rejected a write *)
  | DoesNotExist        (* [Model.objects.get] found no row *)
  | KeyError
  | IndexError
  | ZeroDivisionError
  | OverflowError
  | ValueError.

Inductive result (A : Type) : Type :=
  | Ok (a : A)
  | Raise (e : Error).
Arguments Ok {A} a.
Arguments Raise {A} e.

Definition bind {A B : Type} (m : result A) (k : A -> result B) : result B :=
  match m with
  | Ok a => k a
  | Raise e => Raise e
  end.

Notation "'let*' x ':=' m 'in' k" := (bind m (fun x => k))
  (at level 10, x pattern, m at level 100, k at level 200).

(** [for x in xs: body], the loop state threaded through the iterations; an
    exception raised by an iteration leaves the loop. *)
Fixpoint for_each {X S : Type} (xs : list X) (body : X -> S -> result S) (s : S)
  : result S :=
  match xs with
  | [] => Ok s
  | x :: rest => let* s' := body x s in for_each rest body s'
  end.

(** [for x in xs: with transaction.atomic(): body]: an iteration that raises
    is rolled back and ends the command; what the iterations before it
    wrote stays committed. *)
Fixpoint for_each_atomic {X S : Type} (xs : list X) (body : X -> S -> result S)
    (s : S) : S * option Error :=
  match xs with
  | [] => (s, None)
  | x :: rest =>
      match body x s with
      | Ok s' => for_each_atomic rest body s'
      | Raise e => (s, Some e)
      end
  end.

(** [[f(x) for x in xs]] where [f] may raise *)
Fixpoint map_result {X Y : Type} (f : X -> result Y) (xs : list X) : result (list Y) :=
  match xs with
  | [] => Ok []
  | x :: rest => let* y := f x in let* ys := map_result f rest in Ok (y :: ys)
  end.

(** ** Python numbers

    Python's [float] is IEEE 754 binary64, here the [spec_float] of the
    standard library at precision 53. *)

Module PyFloat.

Definition prec : Z := 53.
Definition emax : Z := 1024.

(** [float(n)] *)
Definition of_int (n : Z) : spec_float := binary_normalize prec emax n 0 false.

(** [a / b] on two [int]: the exact quotient rounded once to the nearest
    float; [ZeroDivisionError] when [b] is 0. *)
Definition int_true_div (a b : Z) : result spec_float :=
  match a, b with
  | _, Z0 => Raise ZeroDivisionError
  | Z0, _ => Ok (S754_zero (b <? 0))
  | _, _ =>
      let '(mz, ez, lz) :=
        SFdiv_core_binary prec emax (Z.abs a) 0 (Z.abs b) 0 in
      Ok (binary_round_aux prec emax (xorb (a <? 0) (b <? 0)) mz ez lz)
  end.

(** [x * n] for a float [x] and an int [n] *)
Definition mul_int (x : spec_float) (n : Z) : spec_float :=
  SFmul prec emax x (of_int n).

(** [round(x)] with one argument: the nearest integer, ties to the even
    one; [ValueError] on NaN and [OverflowError] on an infinity. *)
Definition round (x : spec_float) : result Z :=
  match x with
  | S754_nan => Raise ValueError
  | S754_infinity _ => Raise OverflowError
  | S754_zero _ => Ok 0
  | S754_finite s m e =>
      let n :=
        match e with
        | Zneg p =>
            let d := Z.pow_pos 2 p in
            let q := Z.pos m / d in
            let r := Z.pos m mod d in
            match 2 * r ?= d with
            | Lt => q
            | Gt => q + 1
            | Eq => if Z.even q then q else q + 1
            end
        | _ => Z.pos m * 2 ^ e
        end in
      Ok (if s then - n else n)
  end.

End PyFloat.

(** ** Data model *)

Record UserStory : Type := mkUserStory {
  us_id : Z;
  us_user_id : Z;
  us_feed_id : Z;
  us_story_id : Z;
  us_offset : Z;
  is_watched : bool;
  is_favorited : bool;
}.

Record Story : Type := mkStory {
  story_id : Z;
  story_feed_id : Z;
  story_offset : Z;
  story_content : string;
  story_link : string;
  story_dt_published : Z;
  has_mathjax : bool;
}.

Record Feed : Type := mkFeed {
  feed_id : Z;
  feed_url : string;
  feed_title : option string;
  total_storys : Z;
  monthly_story_count : list (Z * Z);      (* month -> number of storys *)
  dryness : option Z;
  dt_first_story_published : option Z;
  use_proxy : bool;
  reverse_url : option string;
  dt_created : Z;
  dt_updated : Z;
}.

(** ** Selection of the target rows *)

Module Selection.

(** [s.split(sep)] with a one character separator *)
Fixpoint split (sep : ascii) (s : string) : list string :=
  match s with
  | EmptyString => [EmptyString]
  | String c rest =>
      if Ascii.eqb c sep then EmptyString :: split sep rest
      else match split sep rest with
           | w :: ws => String c w :: ws
           | [] => [String c EmptyString]
           end
  end.

Section Decode.
(** Python's [str.strip] and [int] (on a [str]; [None] is its
    [ValueError]). *)
Variable py_strip : string -> string.
Variable py_int : string -> option Z.

Definition int_of (x : string) : result Z :=
  match py_int x with
  | Some n => Ok n
  | None => Raise ValueError
  end.

Definition _decode_feed_ids (option_feeds : string) : result (list Z) :=
  map_result int_of (split "," (py_strip option_feeds)).

Definition _get_all_feed_ids (feeds : list Feed) : list Z :=
  feed_id <$> feeds.

(** [feeds] is the table [rssant_api_feed]. *)
Definition _get_feed_ids (option_feeds : option string) (feeds : list Feed)
  : result (list Z) :=
  match option_feeds with
  | Some text =>
      if decide (text ≠ "" ∧ text ≠ "all") then _decode_feed_ids text
      else Ok (_get_all_feed_ids feeds)
  | None => Ok (_get_all_feed_ids feeds)
  end.

(** The ids stay strings here; the lookup by [pk] converts them. *)
Definition _get_story_ids (option_storys : option string) (storys : list Story)
  : list (Z + string) :=
  match option_storys with
  | Some text =>
      if decide (text ≠ "") then inr <$> split "," (py_strip text)
      else inl <$> (story_id <$> storys)
  | None => inl <$> (story_id <$> storys)
  end.
End Decode.

End Selection.

(** ** OffsetReconciler: [fix_user_story_offset] *)

Module OffsetReconciler.

Record Storage : Type := mkStorage {
  userstorys : list UserStory;    (* rssant_api_userstory *)
  storys : list Story;            (* rssant_api_story *)
}.

(** Modelled from the spec: the table declaration of [UserStory] is not in
    the sources; the spec gives it a uniqueness constraint over
    (user, feed, offset). *)
Definition constraint_key (us : UserStory) : Z * Z * Z :=
  (us_user_id us, us_feed_id us, us_offset us).

Definition unique_user_feed_offset (tbl : list UserStory) : Prop :=
  NoDup (constraint_key <$> tbl).

Definition set_offset (v : Z) (us : UserStory) : UserStory :=
  {| us_id := us_id us; us_user_id := us_user_id us;
     us_feed_id := us_feed_id us; us_story_id := us_story_id us;
     us_offset := v;
     is_watched := is_watched us; is_favorited := is_favorited us |}.

(** [UserStory.objects.filter(pk=pk).update(offset=v)]: one UPDATE
    statement; the constraint is checked when the statement ends and a
    violation raises [IntegrityError]. *)
Definition update_offset (pk v : Z) (tbl : list UserStory)
  : result (list UserStory) :=
  let tbl' := (fun us => if decide (us_id us = pk) then set_offset v us else us)
                <$> tbl in
  if bool_decide (unique_user_feed_offset tbl') then Ok tbl'
  else Raise IntegrityError.

(** The mismatch report: the join of user storys with their story, kept
    where the two offsets differ.  A user story without story row is
    joined with NULLs, the comparison is then NULL and the row dropped. *)
Definition Item : Type := Z * Z * Z.   (* us_id, us_offset, story_offset *)

Definition query_mismatch (db : Storage) : list Item :=
  us ← userstorys db;
  s ← filter (fun s => story_id s = us_story_id us) (storys db);
  if decide (us_offset us ≠ story_offset s)
  then [(us_id us, us_offset us, story_offset s)] else [].

Definition item_id (it : Item) : Z := it.1.1.
Definition item_us_offset (it : Item) : Z := it.1.2.
Definition item_story_offset (it : Item) : Z := it.2.

(** State of the transaction: the table and the writes done so far. *)
Definition TxState : Type := list UserStory * list (Z * Z).

Definition write (pk v : Z) (s : TxState) : result TxState :=
  let* tbl' := update_offset pk v s.1 in Ok (tbl', s.2 ++ [(pk, v)]).

Definition phase_a (items : list Item) : TxState -> result TxState :=
  for_each items (fun it => write (item_id it) (- item_us_offset it)).

Definition phase_b (items : list Item) : TxState -> result TxState :=
  for_each items (fun it => write (item_id it) (item_story_offset it)).

(** The command.  [Raise] leaves [transaction.atomic()] by an exception:
    the transaction is rolled back and storage stays as it was. *)
Definition fix_user_story_offset (db : Storage)
  : result (Storage * list (Z * Z)) :=
  let items := query_mismatch db in
  if decide (items = []) then Ok (db, [])
  else
    let* s1 := phase_a items (userstorys db, []) in
    let* s2 := phase_b items s1 in
    Ok ({| userstorys := s2.1; storys := storys db |}, s2.2).

(** Vocabulary of the statements. *)
Definition same_scope (a b : UserStory) : Prop :=
  us_user_id a = us_user_id b ∧ us_feed_id a = us_feed_id b.

Definition listed (items : list Item) (us : UserStory) : Prop :=
  us_id us ∈ item_id <$> items.

Definition negate_in (ids : list Z) (us : UserStory) : UserStory :=
  if decide (us_id us ∈ ids) then set_offset (- us_offset us) us else us.

Definition negate_listed (items : list Item) : UserStory -> UserStory :=
  negate_in (item_id <$> items).

(** The items carry the offsets the rows hold. *)
Definition snapshot_of (tbl : list UserStory) (items : list Item) : Prop :=
  forall it us, it ∈ items -> us ∈ tbl -> us_id us = item_id it ->
    us_offset us = item_us_offset it.

(** The offsets the repair aims at: the story's offset where the story
    row exists. *)
Definition target_offset (db : Storage) (us : UserStory) : Z :=
  match filter (fun s => story_id s = us_story_id us) (storys db) with
  | s :: _ => story_offset s
  | [] => us_offset us
  end.

Definition repaired (db : Storage) : list UserStory :=
  (fun us => set_offset (target_offset db us) us) <$> userstorys db.

(** The table in the middle of Phase B: the rows settled so far hold their
    target, the other listed rows their negated offset. *)
Definition settle (db : Storage) (settled : list Z) (us : UserStory) : UserStory :=
  if decide (us_id us ∈ settled) then set_offset (target_offset db us) us
  else negate_listed (query_mismatch db) us.

(** Two user storys of user 7 in feed 3 whose storys were reordered: row 1
    sits at offset 2 and belongs at 0, row 2 sits at offset 0 and belongs
    at 1. *)
Definition zero_offset_db : Storage :=
  {| userstorys :=
       [ mkUserStory 1 7 3 10 2 false false;
         mkUserStory 2 7 3 11 0 false false ];
     storys :=
       [ mkStory 10 3 0 "" "" 0 false;
         mkStory 11 3 1 "" "" 0 false ] |}.

End OffsetReconciler.

(** ** AggregateRecalculator: the [update_feed_*] commands *)

Module AggregateRecalculator.

Record Storage : Type := mkStorage {
  feeds : list Feed;      (* rssant_api_feed *)
  storys : list Story;    (* rssant_api_story *)
}.

Inductive Write : Type :=
  | WriteTotalStorys (id n : Z)
  | WriteMonthlyStoryCount (id : Z) (hist : list (Z * Z))
  | SaveFeed (feed : Feed).

(** Storage, the writes sent to it so far, and the feeds a warning was
    logged for. *)
Record State : Type := mkState {
  db : Storage;
  writes : list Write;
  warnings : list Z;
}.

Definition set_total_storys (n : Z) (f : Feed) : Feed :=
  mkFeed (feed_id f) (feed_url f) (feed_title f) n (monthly_story_count f)
    (dryness f) (dt_first_story_published f) (use_proxy f) (reverse_url f)
    (dt_created f) (dt_updated f).

Definition set_monthly_story_count (hist : list (Z * Z)) (f : Feed) : Feed :=
  mkFeed (feed_id f) (feed_url f) (feed_title f) (total_storys f) hist
    (dryness f) (dt_first_story_published f) (use_proxy f) (reverse_url f)
    (dt_created f) (dt_updated f).

Definition set_dryness (d : option Z) (f : Feed) : Feed :=
  mkFeed (feed_id f) (feed_url f) (feed_title f) (total_storys f)
    (monthly_story_count f) d (dt_first_story_published f) (use_proxy f)
    (reverse_url f) (dt_created f) (dt_updated f).

Definition set_dt_first_story_published (t : option Z) (f : Feed) : Feed :=
  mkFeed (feed_id f) (feed_url f) (feed_title f) (total_storys f)
    (monthly_story_count f) (dryness f) t (use_proxy f) (reverse_url f)
    (dt_created f) (dt_updated f).

(** Modelled from the spec: [Feed.get_by_pk] is not in the sources; it is
    the point lookup by id of the store, and a missing row is
    [Feed.DoesNotExist].  [feed.refresh_from_db()] reads the same row. *)
Fixpoint Feed_get_by_pk (id : Z) (tbl : list Feed) : result Feed :=
  match tbl with
  | [] => Raise DoesNotExist
  | f :: rest => if decide (feed_id f = id) then Ok f else Feed_get_by_pk id rest
  end.

(** UPDATE of the rows of one feed id *)
Definition update_feed (id : Z) (change : Feed -> Feed) (tbl : list Feed) : list Feed :=
  (fun f => if decide (feed_id f = id) then change f else f) <$> tbl.

(** [feed.save()]: every column of the row is written from the object. *)
Definition save (feed : Feed) (st : State) : State :=
  {| db := {| feeds := update_feed (feed_id feed) (fun _ => feed) (feeds (db st));
              storys := storys (db st) |};
     writes := writes st ++ [SaveFeed feed];
     warnings := warnings st |}.

Definition storys_of (id : Z) (st : Storage) : list Story :=
  filter (fun s => story_feed_id s = id) (storys st).

(** Modelled from the spec: [Story.get_by_offset] is not in the sources;
    it looks up the story at a position of a feed and its absence is
    [Story.DoesNotExist]. *)
Definition Story_get_by_offset (id offset : Z) (st : Storage) : result Story :=
  match filter (fun s => story_offset s = offset) (storys_of id st) with
  | s :: _ => Ok s
  | [] => Raise DoesNotExist
  end.

(** Modelled from the spec: [Story.query_feed_incorrect_total_storys] and
    [Story.fix_feed_total_storys] are not in the sources.  The first lists
    the feeds whose stored [total_storys] disagrees with the recount of
    the storys owned by the feed; the second recounts, writes
    [total_storys] only if it differs, and reports whether it wrote. *)
Definition correct_total_storys (id : Z) (st : Storage) : Z :=
  Z.of_nat (length (storys_of id st)).

Definition Story_query_feed_incorrect_total_storys (st : Storage)
  : list (Z * Z * Z) :=
  f ← feeds st;
  if decide (total_storys f ≠ correct_total_storys (feed_id f) st)
  then [(feed_id f, total_storys f, correct_total_storys (feed_id f) st)]
  else [].

Definition Story_fix_feed_total_storys (id : Z) (st : State) : State * bool :=
  let n := correct_total_storys id (db st) in
  match Feed_get_by_pk id (feeds (db st)) with
  | Ok f =>
      if decide (total_storys f ≠ n)
      then ({| db := {| feeds := update_feed id (set_total_storys n) (feeds (db st));
                        storys := storys (db st) |};
               writes := writes st ++ [WriteTotalStorys id n];
               warnings := warnings st |}, true)
      else (st, false)
  | Raise _ => (st, false)
  end.

(** The month histogram, ordered by month. *)
Fixpoint bump (m : Z) (hist : list (Z * Z)) : list (Z * Z) :=
  match hist with
  | [] => [(m, 1)]
  | (m', n) :: rest =>
      if decide (m = m') then (m', n + 1) :: rest
      else if decide (m < m') then (m, 1) :: (m', n) :: rest
      else (m', n) :: bump m rest
  end.

Definition histogram (months : list Z) : list (Z * Z) := foldr bump [] months.

Section Recalculator.
Variable py_strip : string -> string.
Variable py_int : string -> option Z.
(** The calendar month of a timestamp, and [MonthlyStoryCount.dryness]. *)
Variable month_of : Z -> Z.
Variable dryness_of : list (Z * Z) -> Z.

Definition monthly_of (id : Z) (st : Storage) : list (Z * Z) :=
  histogram ((fun s => month_of (story_dt_published s)) <$> storys_of id st).

(** Modelled from the spec: [Story.refresh_feed_monthly_story_count] is
    not in the sources; it rebuilds the per-month histogram from the
    published timestamps of all storys of the feed and always
    overwrites. *)
Definition Story_refresh_feed_monthly_story_count (id : Z) (st : State) : State :=
  let hist := monthly_of id (db st) in
  {| db := {| feeds := update_feed id (set_monthly_story_count hist) (feeds (db st));
              storys := storys (db st) |};
     writes := writes st ++ [WriteMonthlyStoryCount id hist];
     warnings := warnings st |}.

(** Selection of the feeds, then the loop; a [ValueError] of the
    selection ends the command before the loop. *)
Definition over_feeds (option_feeds : option string)
    (body : Z -> State -> result State) (st : State) : State * option Error :=
  match Selection._get_feed_ids py_strip py_int option_feeds (feeds (db st)) with
  | Ok feed_ids => for_each_atomic feed_ids body st
  | Raise e => (st, Some e)
  end.

(** [fix_feed_total_storys]: returns the table shown and
    [num_corrected] next to the state. *)
Definition fix_feed_total_storys (dry_run : bool) (st : State)
  : State * list (Z * Z * Z) * Z :=
  let incorrect_feeds := Story_query_feed_incorrect_total_storys (db st) in
  if dry_run then (st, incorrect_feeds, 0)
  else
    let '(st', num_corrected) :=
      foldl (fun '(s, n) '(id, _, _) =>
               let '(s', fixed) := Story_fix_feed_total_storys id s in
               (s', if fixed : bool then n + 1 else n))
            (st, 0) incorrect_feeds in
    (st', incorrect_feeds, num_corrected).

Definition update_feed_monthly_story_count (option_feeds : option string)
  : State -> State * option Error :=
  over_feeds option_feeds
    (fun id st => Ok (Story_refresh_feed_monthly_story_count id st)).

(** [not cnt] is the emptiness of the histogram (the spec: if the cached
    histogram is empty, rebuild it first). *)
Definition update_feed_dryness_body (id : Z) (st : State) : result State :=
  let* feed := Feed_get_by_pk id (feeds (db st)) in
  if decide (total_storys feed <= 0) then Ok st
  else
    let cnt := monthly_story_count feed in
    let st := if decide (cnt = [])
              then Story_refresh_feed_monthly_story_count id st else st in
    let* feed := Feed_get_by_pk (feed_id feed) (feeds (db st)) in
    let feed := set_dryness (Some (dryness_of (monthly_story_count feed))) feed in
    Ok (save feed st).

Definition update_feed_dryness (option_feeds : option string)
  : State -> State * option Error :=
  over_feeds option_feeds update_feed_dryness_body.

Definition update_feed_dt_first_story_published_body (id : Z) (st : State)
  : result State :=
  let* feed := Feed_get_by_pk id (feeds (db st)) in
  if decide (dt_first_story_published feed ≠ None) then Ok st
  else if decide (total_storys feed <= 0) then Ok st
  else
    match Story_get_by_offset id 0 (db st) with
    | Raise DoesNotExist =>
        Ok {| db := db st; writes := writes st; warnings := warnings st ++ [id] |}
    | Raise e => Raise e
    | Ok story =>
        Ok (save (set_dt_first_story_published
                    (Some (story_dt_published story)) feed) st)
    end.

Definition update_feed_dt_first_story_published (option_feeds : option string)
  : State -> State * option Error :=
  over_feeds option_feeds update_feed_dt_first_story_published_body.

(** Vocabulary of the statements: the stored derived values of the
    selected feeds agree with what the command would compute. *)
Definition no_drift_total (st : Storage) : Prop :=
  forall f, f ∈ feeds st -> total_storys f = correct_total_storys (feed_id f) st.

Definition no_drift_monthly (ids : list Z) (st : Storage) : Prop :=
  forall f, f ∈ feeds st -> feed_id f ∈ ids ->
    monthly_story_count f = monthly_of (feed_id f) st.

Definition no_drift_dryness (ids : list Z) (st : Storage) : Prop :=
  forall f, f ∈ feeds st -> feed_id f ∈ ids -> 0 < total_storys f ->
    dryness f = Some (dryness_of (monthly_story_count f))
    ∧ (monthly_story_count f = [] -> monthly_of (feed_id f) st = []).

Definition no_drift_first_published (ids : list Z) (st : Storage) : Prop :=
  forall f story, f ∈ feeds st -> feed_id f ∈ ids -> 0 < total_storys f ->
    Story_get_by_offset (feed_id f) 0 st = Ok story ->
    dt_first_story_published f = Some (story_dt_published story).

(** A write that stores again what the row already holds. *)
Definition rewrites_stored (st : Storage) (w : Write) : Prop :=
  match w with
  | SaveFeed f => f ∈ feeds st
  | WriteMonthlyStoryCount id hist =>
      exists f, f ∈ feeds st ∧ feed_id f = id ∧ monthly_story_count f = hist
  | WriteTotalStorys id n =>
      exists f, f ∈ feeds st ∧ feed_id f = id ∧ total_storys f = n
  end.

(** The states a run without drift goes through: storage as at the
    start, and the writes added so far all store what is stored. *)
Definition rewriting (st0 : State) (st : State) : Prop :=
  db st = db st0
  ∧ exists ws, writes st = writes st0 ++ ws ∧ Forall (rewrites_stored (db st0)) ws.

(** The writes that a run without drift sends for one feed id: the month
    histogram; and for the dryness of a feed with storys, the histogram if
    the stored one is empty, then the feed. *)
Definition monthly_write (st : Storage) (id : Z) : Write :=
  WriteMonthlyStoryCount id (monthly_of id st).

Definition dryness_writes (st : Storage) (id : Z) : list Write :=
  match Feed_get_by_pk id (feeds st) with
  | Ok feed =>
      if decide (total_storys feed <= 0) then []
      else (if decide (monthly_story_count feed = [])
            then [monthly_write st id] else [])
           ++ [SaveFeed feed]
  | Raise _ => []
  end.

End Recalculator.

(** One feed with two storys of month 600 whose derived values are all up
    to date, under a calendar of 30 day months and a dryness that counts
    the months of the histogram. *)
Definition sample_month_of (t : Z) : Z := t / 2592000.
Definition sample_dryness_of (hist : list (Z * Z)) : Z := Z.of_nat (length hist).

Definition settled_feed : Feed :=
  mkFeed 1 "https://a.example/feed" (Some "A") 2 [(600, 2)] (Some 1)
    (Some 1555200000) false None 1555200000 1555300000.

Definition settled_db : Storage :=
  {| feeds := [settled_feed];
     storys := [ mkStory 10 1 0 "first" "https://a.example/1" 1555200000 false;
                 mkStory 11 1 1 "second" "https://a.example/2" 1555300000 false ] |}.

(** Feeds in need of a backfill: feed 1 has its first story, feed 2 has
    lost it, feed 3 is empty. *)
Definition backfill_db : Storage :=
  {| feeds := [ mkFeed 1 "https://a.example/feed" None 2 [] None None false None 0 0;
                mkFeed 2 "https://b.example/feed" None 3 [] None None false None 0 0;
                mkFeed 3 "https://c.example/feed" None 0 [] None None false None 0 0 ];
     storys := [ mkStory 10 1 0 "first" "https://a.example/1" 1555200000 false;
                 mkStory 20 2 1 "late" "https://b.example/2" 1555300000 false ] |}.

End AggregateRecalculator.

(** ** FeedHealthClassifier: [delete_invalid_feeds] *)

Module FeedHealthClassifier.

(** A row of the error report: feed_id, title, link, url, status_code,
    count. *)
Record ErrorRow : Type := mkErrorRow {
  er_feed_id : Z;
  er_title : option string;
  er_link : option string;
  er_url : string;
  er_status_code : Z;
  er_count : Z;
}.

(** The two reports run through [connection.cursor()], both given the
    start of the time window; the second one also the candidate ids. *)
Record Cursor : Type := mkCursor {
  execute_sql : Z -> Z -> list ErrorRow;             (* t_begin, limit *)
  execute_sql_ok_count : Z -> list Z -> list (Z * Z);   (* feed_id, count *)
}.

(** The dict kept per feed in [error_feeds]. *)
Record ErrorFeed : Type := mkErrorFeed {
  ef_feed_id : Z;
  ef_title : option string;
  ef_link : option string;
  ef_url : string;
  ef_error : list (string * Z);     (* error name -> count *)
  error_count : Z;
  ok_count : Z;
  error_percent : Z;
}.

(** [d[k] = v] on a dict in insertion order: an existing key keeps its
    place. *)
Fixpoint dict_set {K V : Type} `{EqDecision K} (k : K) (v : V)
    (d : list (K * V)) : list (K * V) :=
  match d with
  | [] => [(k, v)]
  | (k', v') :: rest =>
      if decide (k' = k) then (k, v) :: rest else (k', v') :: dict_set k v rest
  end.

Fixpoint dict_get {K V : Type} `{EqDecision K} (k : K) (d : list (K * V))
  : option V :=
  match d with
  | [] => None
  | (k', v') :: rest => if decide (k' = k) then Some v' else dict_get k rest
  end.

Definition sum_values {K : Type} (d : list (K * Z)) : Z :=
  foldr (fun kv acc => kv.2 + acc) 0 d.

(** [round((error_count / total) * 100)] *)
Definition error_percent_of (error_count ok_count : Z) : result Z :=
  let total := error_count + ok_count in
  let* ratio := PyFloat.int_true_div error_count total in
  PyFloat.round (PyFloat.mul_int ratio 100).

(** [timezone.timedelta(days=days)], in seconds: more than 999999999 days
    either way is an [OverflowError]. *)
Definition timedelta_days (days : Z) : result Z :=
  if decide (-999999999 <= days <= 999999999) then Ok (days * 86400)
  else Raise OverflowError.

(** [datetime.min] and [datetime.max], the first instant of year 1 and the
    last second of year 9999, in seconds since the epoch; and [t - delta]
    on a datetime, which is an [OverflowError] when the result leaves
    them. *)
Definition datetime_min : Z := -62135596800.
Definition datetime_max : Z := 253402300799.

Definition datetime_sub (t delta : Z) : result Z :=
  let r := t - delta in
  if decide (datetime_min <= r <= datetime_max) then Ok r
  else Raise OverflowError.

Section Classifier.
(** [FeedResponseStatus.name_of], from [rssant_feedlib]. *)
Variable name_of : Z -> string.

(** Body of the first loop, over the rows of the error report. *)
Definition add_error_row (r : ErrorRow) (error_feeds : list (Z * ErrorFeed))
  : list (Z * ErrorFeed) :=
  let error :=
    match dict_get (er_feed_id r) error_feeds with
    | Some feed => ef_error feed
    | None => []
    end in
  let error := dict_set (name_of (er_status_code r)) (er_count r) error in
  dict_set (er_feed_id r)
    {| ef_feed_id := er_feed_id r; ef_title := er_title r;
       ef_link := er_link r; ef_url := er_url r;
       ef_error := error; error_count := sum_values error;
       ok_count := 0; error_percent := 100 |}
    error_feeds.

(** Body of the second loop, over the rows of the ok-count report.
    [error_feeds[feed_id]] of an unknown feed yields a fresh empty dict,
    whose ['error_count'] is a [KeyError]. *)
Definition add_ok_row (row : Z * Z) (error_feeds : list (Z * ErrorFeed))
  : result (list (Z * ErrorFeed)) :=
  let '(feed_id, ok) := row in
  match dict_get feed_id error_feeds with
  | None => Raise KeyError
  | Some feed =>
      let* percent := error_percent_of (error_count feed) ok in
      Ok (dict_set feed_id
            {| ef_feed_id := ef_feed_id feed; ef_title := ef_title feed;
               ef_link := ef_link feed; ef_url := ef_url feed;
               ef_error := ef_error feed; error_count := error_count feed;
               ok_count := ok; error_percent := percent |}
            error_feeds)
  end.

(** [sorted(feeds, key=error_percent, reverse=True)]: stable, the feeds
    of equal percent keep their order. *)
Fixpoint insert_desc (x : ErrorFeed) (l : list ErrorFeed) : list ErrorFeed :=
  match l with
  | [] => [x]
  | y :: rest =>
      if decide (error_percent y <= error_percent x) then x :: y :: rest
      else y :: insert_desc x rest
  end.

Definition sorted_desc (l : list ErrorFeed) : list ErrorFeed :=
  foldr insert_desc [] l.

(** What the operator sees, and the one mutation. *)
Inductive Event : Type :=
  | EchoFeed (feed : ErrorFeed)             (* pretty_format_json(feed) *)
  | Confirm (n : nat) (answer : bool)       (* 'Delete n feeds?' *)
  | Echo (text : string)
  | BulkDelete (feed_ids : list Z).         (* UnionFeed.bulk_delete *)

Record Outcome : Type := mkOutcome {
  returned : list ErrorFeed;
  delete_feed_ids : list Z;
  events : list Event;
}.

Definition is_confirm (ev : Event) : bool :=
  match ev with Confirm _ _ => true | _ => false end.

Definition is_bulk_delete (ev : Event) : bool :=
  match ev with BulkDelete _ => true | _ => false end.

(** The per-feed summaries, before sorting. *)
Definition collect (cursor : Cursor) (t_begin limit : Z)
  : result (list (Z * ErrorFeed)) :=
  let error_feeds := foldl (fun acc r => add_error_row r acc) []
                       (execute_sql cursor t_begin limit) in
  for_each (execute_sql_ok_count cursor t_begin error_feeds.*1)
    add_ok_row error_feeds.

(** Body of the loop that fills [delete_feed_ids] and shows each
    proposed feed. *)
Definition propose (threshold : Z) (acc : list Z * list Event)
    (feed : ErrorFeed) : list Z * list Event :=
  if decide (threshold <= error_percent feed)
  then (acc.1 ++ [ef_feed_id feed], acc.2 ++ [EchoFeed feed])
  else acc.

(** [now] is [timezone.now()] in seconds, [confirm] the operator's
    answer to the prompt for [n] feeds.  The start of the window is
    computed, and may overflow, before any query is run. *)
Definition delete_invalid_feeds (cursor : Cursor) (now : Z)
    (confirm : nat -> bool) (days limit threshold : Z) : result Outcome :=
  let* delta := timedelta_days days in
  let* t_begin := datetime_sub now delta in
  let* error_feeds := collect cursor t_begin limit in
  let error_feeds := sorted_desc error_feeds.*2 in
  let '(delete_feed_ids, shown) :=
    foldl (propose threshold) ([], []) error_feeds in
  let gate :=
    match delete_feed_ids with
    | [] => []
    | _ :: _ =>
        let n := length delete_feed_ids in
        if confirm n then
          [Confirm n true; BulkDelete delete_feed_ids; Echo "Done!"]
        else [Confirm n false; Echo "Abort!"]
    end in
  Ok {| returned := error_feeds; delete_feed_ids := delete_feed_ids;
        events := shown ++ gate |}.

End Classifier.

(** Vocabulary of the statements: the keys of [error_feeds] are the feed
    ids; [fresh] holds after the first loop; [computed seen] after the
    second loop has consumed the ok-count rows [seen]. *)
Definition keyed (d : list (Z * ErrorFeed)) : Prop :=
  NoDup d.*1 ∧ forall id feed, (id, feed) ∈ d -> ef_feed_id feed = id.

Definition fresh (d : list (Z * ErrorFeed)) : Prop :=
  forall id feed, (id, feed) ∈ d ->
    ok_count feed = 0 ∧ error_percent feed = 100 ∧ ef_error feed ≠ []
    ∧ (forall kv, kv ∈ ef_error feed -> 0 < kv.2)
    ∧ error_count feed = sum_values (ef_error feed).

(** The ok count reported for a feed: the last row of the report that
    names it, 0 when none does. *)
Definition reported_ok_count (rows : list (Z * Z)) (id : Z) : Z :=
  default 0 (dict_get id (reverse rows)).

(** The window of [days] days before [now] can be computed. *)
Definition window_in_range (now days : Z) : Prop :=
  -999999999 <= days <= 999999999
  ∧ datetime_min <= now - days * 86400 <= datetime_max.

(** [percent] is an integer nearest to the exact percentage
    100 * error_count / (error_count + ok_count). *)
Definition nearest_percent (percent error_count ok_count : Z) : Prop :=
  2 * Z.abs (percent * (error_count + ok_count) - 100 * error_count)
  <= error_count + ok_count.

(** The check that the code's float expression gives a nearest integer: on
    one pair of counts, and on every pair of a positive error count and an
    ok count whose total is at most [bound]. *)
Definition nearest_percentb (error_count ok_count : Z) : bool :=
  match error_percent_of error_count ok_count with
  | Ok percent =>
      2 * Z.abs (percent * (error_count + ok_count) - 100 * error_count)
      <=? error_count + ok_count
  | Raise _ => false
  end.

Definition nearest_upto (bound : nat) : bool :=
  forallb (fun e =>
             forallb (fun ok => nearest_percentb (Z.of_nat e) (Z.of_nat ok))
               (seq 0 (S bound - e)))
    (seq 1 bound).

Definition computed (seen : list (Z * Z)) (d : list (Z * ErrorFeed)) : Prop :=
  forall id feed, (id, feed) ∈ d ->
    0 < error_count feed
    ∧ error_percent_of (error_count feed) (ok_count feed) = Ok (error_percent feed)
    ∧ ok_count feed = reported_ok_count seen id.

(** A day of fetch results: feed 5 failed 99 times and answered once,
    feed 6 only failed, feed 7 failed 98 times and answered twice. *)
Definition sample_cursor : Cursor :=
  {| execute_sql := fun _ _ =>
       [ mkErrorRow 5 None None "https://a.example/feed" 500 99;
         mkErrorRow 6 None None "https://b.example/feed" 404 10;
         mkErrorRow 7 None None "https://c.example/feed" 404 98 ];
     execute_sql_ok_count := fun _ _ => [(5, 1); (7, 2)] |}.

(** What [delete_invalid_feeds] returns on [sample_cursor] with the
    default options when the operator confirms. *)
Definition sample_outcome : Outcome :=
  let feed5 := mkErrorFeed 5 None None "https://a.example/feed" [("500", 99)] 99 1 99 in
  let feed6 := mkErrorFeed 6 None None "https://b.example/feed" [("404", 10)] 10 0 100 in
  let feed7 := mkErrorFeed 7 None None "https://c.example/feed" [("404", 98)] 98 2 98 in
  {| returned := [feed6; feed5; feed7];
     delete_feed_ids := [6; 5];
     events := [EchoFeed feed6; EchoFeed feed5;
                Confirm 2 true; BulkDelete [6; 5]; Echo "Done!"] |}.

End FeedHealthClassifier.

(** ** RefreshTaskScheduler: [refresh_feed] *)

Module RefreshTaskScheduler.

Inductive WorkerTaskPriority : Type := SYNC_FEED.

(** The [data] dict of a task. *)
Record TaskData : Type := mkTaskData {
  td_feed_id : Z;
  td_url : string;
  td_use_proxy : bool;
  is_refresh : bool;
}.

(** The arguments [WorkerTask.from_dict] is called with. *)
Record WorkerTask : Type := mkWorkerTask {
  api : string;
  key : string;
  data : TaskData;
  priority : WorkerTaskPriority;
  expired_seconds : Z;
}.

(** [url__contains] and [title__contains]: the text holds the keyword as a
    substring. *)
Fixpoint contains (keyword text : string) : bool :=
  String.prefix keyword text
  || match text with
     | EmptyString => false
     | String _ rest => contains keyword rest
     end.

Definition matches (keyword : string) (feed : Feed) : bool :=
  contains keyword (feed_url feed)
  || match feed_title feed with
     | Some title => contains keyword title
     | None => false
     end.

(** [Feed.objects.only('id', 'url', 'use_proxy').get(pk=feed_id)] *)
Fixpoint Feed_get (pk : Z) (tbl : list Feed) : result Feed :=
  match tbl with
  | [] => Raise DoesNotExist
  | f :: rest => if decide (feed_id f = pk) then Ok f else Feed_get pk rest
  end.

Definition sync_feed_api : string := "worker_rss.sync_feed".

Section Scheduler.
(** Python's [str.strip] and [int], and [unionid.decode] of [rssant_common]
    ([None] when it raises). *)
Variable py_strip : string -> string.
Variable py_int : string -> option Z.
Variable unionid_decode : string -> option (list Z).

Definition decode_union_id (x : string) : result Z :=
  match unionid_decode x with
  | None => Raise ValueError
  | Some numbers =>
      match numbers !! 1%nat with
      | Some feed_id => Ok feed_id
      | None => Raise IndexError
      end
  end.

Definition _decode_union_feed_ids (option_feeds : string) : result (list Z) :=
  map_result decode_union_id (Selection.split "," (py_strip option_feeds)).

(** The three sources of feed ids; an option that is absent or empty
    contributes nothing. *)
Definition ids_of_feeds (feeds : option string) (tbl : list Feed) : result (list Z) :=
  match feeds with
  | Some text =>
      if decide (text = "") then Ok []
      else Selection._get_feed_ids py_strip py_int feeds tbl
  | None => Ok []
  end.

Definition ids_of_union_feeds (union_feeds : option string) : result (list Z) :=
  match union_feeds with
  | Some text => if decide (text = "") then Ok [] else _decode_union_feed_ids text
  | None => Ok []
  end.

Definition ids_of_key (keyword : option string) (tbl : list Feed) : list Z :=
  match keyword with
  | Some text =>
      if decide (text = "") then []
      else feed_id <$> filter (fun feed => matches text feed) tbl
  | None => []
  end.

(** Body of the loop that builds the tasks. *)
Definition add_task (expire : Z) (tbl : list Feed) (pk : Z)
    (task_s : list WorkerTask) : result (list WorkerTask) :=
  let* feed := Feed_get pk tbl in
  let api := sync_feed_api in
  Ok (task_s ++
        [ {| api := api;
             key := api +:+ ":" +:+ pretty (feed_id feed);
             data := {| td_feed_id := feed_id feed; td_url := feed_url feed;
                        td_use_proxy := use_proxy feed; is_refresh := true |};
             priority := SYNC_FEED;
             expired_seconds := expire * 60 * 60 |} ]).

(** The command; its result is the batch handed to [WorkerTask.bulk_save]. *)
Definition refresh_feed (feeds union_feeds keyword : option string) (expire : Z)
    (tbl : list Feed) : result (list WorkerTask) :=
  let* ids1 := ids_of_feeds feeds tbl in
  let* ids2 := ids_of_union_feeds union_feeds in
  let ids3 := ids_of_key keyword tbl in
  let feed_ids := merge_sort Z.le (remove_dups (ids1 ++ ids2 ++ ids3)) in
  for_each feed_ids (add_task expire tbl) [].

End Scheduler.

Definition task_feed_id (task : WorkerTask) : Z := td_feed_id (data task).

(** The task the loop builds for a feed. *)
Definition task_for (expire : Z) (feed : Feed) : WorkerTask :=
  {| api := sync_feed_api;
     key := sync_feed_api +:+ ":" +:+ pretty (feed_id feed);
     data := {| td_feed_id := feed_id feed; td_url := feed_url feed;
                td_use_proxy := use_proxy feed; is_refresh := true |};
     priority := SYNC_FEED;
     expired_seconds := expire * 60 * 60 |}.

(** Three feeds; feed 196 is asked for by id, by union id and by keyword. *)
Definition sample_feeds : list Feed :=
  [ mkFeed 196 "https://blog.example/atom.xml" (Some "Blog") 10 [] None None false None 0 0;
    mkFeed 366 "https://news.example/rss" (Some "News") 10 [] None None true None 0 0;
    mkFeed 7 "https://other.example/feed" None 10 [] None None false None 0 0 ].

Definition sample_int (x : string) : option Z :=
  if decide (x = "196") then Some 196
  else if decide (x = "7") then Some 7 else None.

Definition sample_unionid_decode (x : string) : option (list Z) :=
  if decide (x = "014064") then Some [1; 196]
  else if decide (x = "0140be") then Some [1; 366] else None.

End RefreshTaskScheduler.

(** ** Proxy-need classification: [update_feed_use_proxy] *)

Module ProxyClassifier.

Definition set_use_proxy (b : bool) (f : Feed) : Feed :=
  mkFeed (feed_id f) (feed_url f) (feed_title f) (total_storys f)
    (monthly_story_count f) (dryness f) (dt_first_story_published f) b
    (reverse_url f) (dt_created f) (dt_updated f).

Definition blacklist : list string :=
  ["博客园"; "微信"; "新浪"; "的评论"; "Comments on"].

(** [feed.refresh_from_db()]: the row of the feed's primary key as storage
    holds it now. *)
Fixpoint refresh_from_db (feed : Feed) (tbl : list Feed) : result Feed :=
  match tbl with
  | [] => Raise DoesNotExist
  | f :: rest =>
      if decide (feed_id f = feed_id feed) then Ok f else refresh_from_db feed rest
  end.

(** [feed.save()]: every column of the row is written from the object. *)
Definition save (feed : Feed) (tbl : list Feed) : list Feed :=
  (fun f => if decide (feed_id f = feed_id feed) then feed else f) <$> tbl.

(** The final transaction: each feed is read again, flagged and saved.  The
    state is the table and the objects saved so far. *)
Definition mark (feed : Feed) (s : list Feed * list Feed)
  : result (list Feed * list Feed) :=
  let* feed := refresh_from_db feed s.1 in
  let feed := set_use_proxy true feed in
  Ok (save feed s.1, s.2 ++ [feed]).

(** Vocabulary of the statements: the rows whose id is listed get the flag,
    the others stay. *)
Definition flag_in (ids : list Z) (row : Feed) : Feed :=
  if decide (feed_id row ∈ ids) then set_use_proxy true row else row.

(** One feed probed: the status without proxy, and the status with proxy
    when that probe was made. *)
Record Probe : Type := mkProbe {
  probed : Feed;
  status : Z;
  proxy_status : option Z;
}.

Section Classifier.
(** The fetch client: [reader.read(url, use_proxy).status], with the state
    of the reader and of the network behind it threaded through the calls;
    and [FeedResponseStatus.is_need_proxy]. *)
Variable Reader : Type.
Variable read : Reader -> string -> bool -> Z * Reader.
Variable is_need_proxy : Z -> bool.
(** The instants of the date literals '2020-04-01' and '2019-12-01'. *)
Variable t_2020_04_01 t_2019_12_01 : Z.

(** The candidate query.  A feed without title is dropped: its [LIKE] is
    NULL. *)
Definition candidate (feed : Feed) : bool :=
  match feed_title feed with
  | None => false
  | Some title =>
      negb (existsb (fun pattern => RefreshTaskScheduler.contains pattern title) blacklist)
      && ((t_2020_04_01 <=? dt_created feed)
          || ((total_storys feed <=? 5) && (dt_updated feed <=? t_2019_12_01)))
  end.

(** Body of the probing loop. *)
Definition probe (acc : list Feed * list Probe * Reader) (feed : Feed)
  : list Feed * list Probe * Reader :=
  let '(proxy_feeds, probes, reader) := acc in
  let '(status, reader) := read reader (feed_url feed) false in
  if is_need_proxy status then
    let '(proxy_status, reader) := read reader (feed_url feed) true in
    let probes := probes ++ [mkProbe feed status (Some proxy_status)] in
    if decide (proxy_status = 200) then (proxy_feeds ++ [feed], probes, reader)
    else (proxy_feeds, probes, reader)
  else (proxy_feeds, probes ++ [mkProbe feed status None], reader).

Record Outcome : Type := mkOutcome {
  proxy_feeds : list Feed;
  probes : list Probe;
  feeds_after : list Feed;      (* rssant_api_feed when the command ends *)
  saved : list Feed;            (* the objects given to [save], in order *)
}.

(** The command, [rss_proxy_enable] being [CONFIG.rss_proxy_enable]. *)
Definition update_feed_use_proxy (rss_proxy_enable : bool) (reader : Reader)
    (tbl : list Feed) : result Outcome :=
  if negb rss_proxy_enable then
    Ok {| proxy_feeds := []; probes := []; feeds_after := tbl; saved := [] |}
  else
    let feeds := filter (fun feed => candidate feed) tbl in
    let '(proxy_feeds, probes, _) := foldl probe ([], [], reader) feeds in
    let* s := for_each proxy_feeds mark (tbl, []) in
    Ok {| proxy_feeds := proxy_feeds; probes := probes;
          feeds_after := s.1; saved := s.2 |}.

(** Vocabulary of the statements: [answers r probes r'] says that the
    probes are what the reader answered, one feed after the other, starting
    in state [r]; the proxied probe follows the plain one exactly when the
    plain status needs a proxy. *)
Inductive answers : Reader -> list Probe -> Reader -> Prop :=
  | answers_nil r : answers r [] r
  | answers_plain r r1 r' feed st rest :
      read r (feed_url feed) false = (st, r1) ->
      is_need_proxy st = false ->
      answers r1 rest r' ->
      answers r (mkProbe feed st None :: rest) r'
  | answers_proxied r r1 r2 r' feed st pst rest :
      read r (feed_url feed) false = (st, r1) ->
      is_need_proxy st = true ->
      read r1 (feed_url feed) true = (pst, r2) ->
      answers r2 rest r' ->
      answers r (mkProbe feed st (Some pst) :: rest) r'.

Definition promoted (p : Probe) : bool :=
  is_need_proxy (status p) && bool_decide (proxy_status p = Some 200).

End Classifier.

(** A network that answers by url: the first feed is blocked and reachable
    through the proxy, the second blocked and unreachable, the third fine;
    a status below zero stands for a connection failure in need of a proxy.
    The reader state counts the requests. *)
Definition sample_read (n : nat) (url : string) (use_proxy : bool) : Z * nat :=
  (if decide (url = "https://blocked.example/feed") then (if use_proxy then 200 else -200)
   else if decide (url = "https://gone.example/feed") then (if use_proxy then 404 else -200)
   else 200, S n).

Definition sample_is_need_proxy (st : Z) : bool := st <? 0.

Definition sample_feeds : list Feed :=
  [ mkFeed 1 "https://blocked.example/feed" (Some "Blocked") 3 [] None None false None 100 100;
    mkFeed 2 "https://gone.example/feed" (Some "Gone") 3 [] None None true None 100 100;
    mkFeed 3 "https://fine.example/feed" (Some "Fine") 3 [] None None true None 100 100;
    mkFeed 4 "https://old.example/feed" (Some "Old") 30 [] None None true None 0 0 ].

End ProxyClassifier.

(** ** Content flags: [update_story_has_mathjax] *)

Module MathjaxFlag.

Definition set_has_mathjax (b : bool) (s : Story) : Story :=
  mkStory (story_id s) (story_feed_id s) (story_offset s) (story_content s)
    (story_link s) (story_dt_published s) b.

(** [Story.objects.only('id', 'content', '_version').get(pk=pk)] *)
Fixpoint Story_get (pk : Z) (tbl : list Story) : result Story :=
  match tbl with
  | [] => Raise DoesNotExist
  | s :: rest => if decide (story_id s = pk) then Ok s else Story_get pk rest
  end.

(** [story.save()] of an object loaded with [only]: the columns loaded or
    assigned, here [content] and [has_mathjax], are written to its row. *)
Definition save (story : Story) (tbl : list Story) : list Story :=
  (fun s =>
     if decide (story_id s = story_id story)
     then mkStory (story_id s) (story_feed_id s) (story_offset s)
            (story_content story) (story_link s) (story_dt_published s)
            (has_mathjax story)
     else s) <$> tbl.

(** The table and the objects saved so far. *)
Record State : Type := mkState {
  storys : list Story;
  saved : list Story;
}.

Section Mathjax.
Variable py_strip : string -> string.
Variable py_int : string -> option Z.
(** [processor.story_has_mathjax] of [rssant_feedlib]. *)
Variable story_has_mathjax : string -> bool.

(** The value given as [pk]: an id of the table, or a piece of the option
    text that the lookup converts with [int]. *)
Definition pk_of (sid : Z + string) : result Z :=
  match sid with
  | inl n => Ok n
  | inr text => Selection.int_of py_int text
  end.

Definition update_story_has_mathjax_body (sid : Z + string) (st : State)
  : result State :=
  let* pk := pk_of sid in
  let* story := Story_get pk (storys st) in
  if story_has_mathjax (story_content story) then
    let story := set_has_mathjax true story in
    Ok {| storys := save story (storys st); saved := saved st ++ [story] |}
  else Ok st.

Definition update_story_has_mathjax (option_storys : option string) (st : State)
  : State * option Error :=
  for_each_atomic (Selection._get_story_ids py_strip option_storys (storys st))
    update_story_has_mathjax_body st.

(** Vocabulary of the statements: what the command may do to a row. *)
Definition one_way (row row' : Story) : Prop :=
  row' = row
  ∨ (story_has_mathjax (story_content row) = true ∧ row' = set_has_mathjax true row).

End Mathjax.

(** A reading of TeX delimiters as math notation, and three storys: one
    with math, one flagged whose math was edited away, one plain. *)
Definition sample_has_mathjax (content : string) : bool :=
  RefreshTaskScheduler.contains "$$" content.

Definition sample_storys : list Story :=
  [ mkStory 1 1 0 "Euler: $$e^{i\pi} + 1 = 0$$" "https://a.example/1" 0 false;
    mkStory 2 1 1 "the formula was removed" "https://a.example/2" 0 true;
    mkStory 3 1 2 "plain text" "https://a.example/3" 0 false ].

End MathjaxFlag.

(** ** Further commands, vocabulary and sample data *)

Module OffsetSamples.
Import OffsetReconciler.

(** Three user storys of user 7 in feed 3; the first two have swapped
    offsets, the third is in place. *)
Definition swap_db : Storage :=
  {| userstorys :=
       [ mkUserStory 1 7 3 10 1 false false;
         mkUserStory 2 7 3 11 2 true false;
         mkUserStory 3 7 3 12 3 false false ];
     storys :=
       [ mkStory 10 3 2 "" "" 0 false;
         mkStory 11 3 1 "" "" 0 false;
         mkStory 12 3 3 "" "" 0 false ] |}.

(** Row 1 sits at offset 1 and belongs at 2; row 2, which is in place, holds
    the offset -1. *)
Definition negated_db : Storage :=
  {| userstorys :=
       [ mkUserStory 1 7 3 10 1 false false;
         mkUserStory 2 7 3 11 (-1) false false ];
     storys :=
       [ mkStory 10 3 2 "" "" 0 false;
         mkStory 11 3 (-1) "" "" 0 false ] |}.

End OffsetSamples.

(** The rows the recalculation commands leave behind, as functions of the
    row found and of the storys in storage. *)
Module RecalculatedRows.
Import AggregateRecalculator.

Definition recounted (st : Storage) (f : Feed) : Feed :=
  set_total_storys (correct_total_storys (feed_id f) st) f.

Definition backfilled (st : Storage) (f : Feed) : Feed :=
  if decide (dt_first_story_published f ≠ None) then f
  else if decide (total_storys f <= 0) then f
  else match Story_get_by_offset (feed_id f) 0 st with
       | Ok story => set_dt_first_story_published (Some (story_dt_published story)) f
       | Raise _ => f
       end.

(** The feed of this id is due for a backfill and has no story at offset 0. *)
Definition lacks_first_story (st : Storage) (id : Z) : bool :=
  match Feed_get_by_pk id (feeds st) with
  | Ok f =>
      bool_decide (dt_first_story_published f = None)
      && bool_decide (0 < total_storys f)
      && match Story_get_by_offset id 0 st with Ok _ => false | Raise _ => true end
  | Raise _ => false
  end.

Section Rows.
Variable month_of : Z -> Z.
Variable dryness_of : list (Z * Z) -> Z.

Definition dried (st : Storage) (f : Feed) : Feed :=
  if decide (total_storys f <= 0) then f
  else
    let hist := if decide (monthly_story_count f = [])
                then monthly_of month_of (feed_id f) st
                else monthly_story_count f in
    set_dryness (Some (dryness_of hist)) (set_monthly_story_count hist f).
End Rows.

(** Feed 1 has two storys of month 600 but a stale count, no histogram and
    no dryness; feed 2 is empty. *)
Definition drift_db : Storage :=
  {| feeds := [ mkFeed 1 "https://a.example/feed" None 5 [] None None false None 0 0;
                mkFeed 2 "https://b.example/feed" None 0 [] None None false None 0 0 ];
     storys := [ mkStory 10 1 0 "first" "https://a.example/1" 1555200000 false;
                 mkStory 11 1 1 "second" "https://a.example/2" 1555300000 false ] |}.

End RecalculatedRows.

(** Vocabulary for the pieces of an option text. *)
Module Pieces.

(** [sep.join(pieces)] *)
Fixpoint join (sep : ascii) (pieces : list string) : string :=
  match pieces with
  | [] => EmptyString
  | [piece] => piece
  | piece :: rest => piece +:+ String sep (join sep rest)
  end.

Fixpoint occurs (c : ascii) (s : string) : bool :=
  match s with
  | EmptyString => false
  | String d rest => Ascii.eqb d c || occurs c rest
  end.

(** [s.count(c)] *)
Fixpoint count (c : ascii) (s : string) : nat :=
  match s with
  | EmptyString => 0%nat
  | String d rest => if Ascii.eqb d c then S (count c rest) else count c rest
  end.

End Pieces.

(** Vocabulary for the report of [delete_invalid_feeds]. *)
Module ClassifierReport.
Import FeedHealthClassifier.

Definition rows_of (id : Z) (rows : list ErrorRow) : list ErrorRow :=
  filter (fun r => er_feed_id r = id) rows.

Definition entries (name_of : Z -> string) (rows : list ErrorRow)
  : list (string * Z) :=
  (fun r => (name_of (er_status_code r), er_count r)) <$> rows.

Definition total_count (rows : list ErrorRow) : Z :=
  foldr (fun r acc => er_count r + acc) 0 rows.

(** Highest error percent first. *)
Definition ranked (l : list ErrorFeed) : Prop :=
  StronglySorted (fun a b => error_percent b <= error_percent a) l.

End ClassifierReport.

(** Vocabulary for the keyword of [refresh_feed]. *)
Module Keyword.

(** The text holds the keyword as a substring. *)
Definition substring_of (keyword text : string) : Prop :=
  exists before after, text = before +:+ keyword +:+ after.

End Keyword.

(** ** [process_story_links] *)

Module StoryLinks.
Import MathjaxFlag.

Definition set_content (content : string) (s : Story) : Story :=
  mkStory (story_id s) (story_feed_id s) (story_offset s) content
    (story_link s) (story_dt_published s) (has_mathjax s).

(** [story.save()] of an object loaded with [only] whose [link] has been
    read since: the columns loaded, [content] and [link], are written to its
    row. *)
Definition save (story : Story) (tbl : list Story) : list Story :=
  (fun s =>
     if decide (story_id s = story_id story)
     then mkStory (story_id s) (story_feed_id s) (story_offset s)
            (story_content story) (story_link story) (story_dt_published s)
            (has_mathjax s)
     else s) <$> tbl.

Section Links.
Variable py_strip : string -> string.
Variable py_int : string -> option Z.
(** [processor.process_story_links] of [rssant_feedlib], given the content
    and the link of the story. *)
Variable processor_process_story_links : string -> string -> string.

Definition process_story_links_body (sid : Z + string) (st : State)
  : result State :=
  let* pk := pk_of py_int sid in
  let* story := Story_get pk (storys st) in
  let content :=
    processor_process_story_links (story_content story) (story_link story) in
  if decide (story_content story ≠ content) then
    let story := set_content content story in
    Ok {| storys := save story (storys st); saved := saved st ++ [story] |}
  else Ok st.

Definition process_story_links (option_storys : option string) (st : State)
  : State * option Error :=
  for_each_atomic (Selection._get_story_ids py_strip option_storys (storys st))
    process_story_links_body st.

(** Vocabulary of the statements: the row with its links processed. *)
Definition processed (s : Story) : Story :=
  set_content (processor_process_story_links (story_content s) (story_link s)) s.

End Links.

(** A processor that makes a relative link absolute once, and two storys:
    the first still has a relative link. *)
Definition sample_processor (content link : string) : string :=
  if String.prefix "/" content then link +:+ content else content.

Definition sample_storys : list Story :=
  [ mkStory 1 1 0 "/img/a.png" "https://a.example" 0 false;
    mkStory 2 1 1 "https://a.example/img/b.png" "https://a.example" 0 false ].

End StoryLinks.

(** ** [update_feed_reverse_url] *)

Module ReverseUrl.
Import AggregateRecalculator.

Definition set_reverse_url (r : option string) (f : Feed) : Feed :=
  mkFeed (feed_id f) (feed_url f) (feed_title f) (total_storys f)
    (monthly_story_count f) (dryness f) (dt_first_story_published f)
    (use_proxy f) r (dt_created f) (dt_updated f).

Section Command.
Variable py_strip : string -> string.
Variable py_int : string -> option Z.
(** [reverse_url] of [rssant_api.helper]. *)
Variable reverse_url_of : string -> string.

(** Body of the loop; [Feed.objects.get(pk=feed_id)] is the lookup by
    primary key. *)
Definition update_feed_reverse_url_body (id : Z) (st : State) : result State :=
  let* feed := Feed_get_by_pk id (feeds (db st)) in
  Ok (save (set_reverse_url (Some (reverse_url_of (feed_url feed))) feed) st).

(** The command; [--feeds] is required.  The loop runs outside a
    transaction, each [save] is committed on its own: as in
    [for_each_atomic], what the iterations before an exception wrote
    stays. *)
Definition update_feed_reverse_url (option_feeds : string)
  : State -> State * option Error :=
  over_feeds py_strip py_int (Some option_feeds) update_feed_reverse_url_body.

(** Vocabulary of the statements: the row with its reverse url derived. *)
Definition reversed (f : Feed) : Feed :=
  set_reverse_url (Some (reverse_url_of (feed_url f))) f.

End Command.

Definition sample_reverse_url (url : string) : string := "rev!" +:+ url.

Definition sample_int (x : string) : option Z :=
  if decide (x = "1") then Some 1
  else if decide (x = "2") then Some 2
  else if decide (x = "9") then Some 9 else None.

Definition sample_db : Storage :=
  {| feeds := [ mkFeed 1 "https://a.example/feed" None 0 [] None None false None 0 0;
                mkFeed 2 "https://b.example/feed" None 0 [] None None false None 0 0 ];
     storys := [] |}.

End ReverseUrl.

(** ** [subscribe_changelog] *)

Module Changelog.

(** [s.rstrip(c)] for one character *)
Fixpoint rstrip (c : ascii) (s : string) : string :=
  match s with
  | EmptyString => EmptyString
  | String d rest =>
      match rstrip c rest with
      | EmptyString => if Ascii.eqb d c then EmptyString else String d EmptyString
      | kept => String d kept
      end
  end.

(** A row of [rssant_api_userfeed], in the columns the command gives. *)
Record UserFeed : Type := mkUserFeed {
  uf_user_id : Z;
  uf_feed_id : Z;
  is_from_bookmark : bool;
}.

(** What [Feed.objects.get(url=...)] raises: [Feed.DoesNotExist] without a
    matching row, [Feed.MultipleObjectsReturned] with several. *)
Inductive GetError : Type := FeedDoesNotExist | FeedMultipleObjectsReturned.

Definition Feed_get_by_url (url : string) (tbl : list Feed) : GetError + Feed :=
  match filter (fun f => feed_url f = url) tbl with
  | [] => inl FeedDoesNotExist
  | [f] => inr f
  | _ :: _ :: _ => inl FeedMultipleObjectsReturned
  end.

(** [UserFeed.objects.filter(user_id=..., feed_id=...).first()], the table
    being in the order of its primary key. *)
Definition UserFeed_first (user_id feed_id : Z) (tbl : list UserFeed)
  : option UserFeed :=
  head (filter (fun uf => uf_user_id uf = user_id ∧ uf_feed_id uf = feed_id) tbl).

Inductive Event : Type :=
  | EchoNotFound (url : string)
  | EchoFeed (feed : Feed)
  | EchoTotal (n : nat).

(** Body of the loop: the row is created unless the user has one. *)
Definition subscribe (feed : Feed) (tbl : list UserFeed) (user_id : Z)
  : list UserFeed :=
  match UserFeed_first user_id (feed_id feed) tbl with
  | Some _ => tbl
  | None => tbl ++ [mkUserFeed user_id (feed_id feed) false]
  end.

Section Command.
(** [bool(feed)] of a [Feed] object. *)
Variable feed_truth : Feed -> bool.

(** [root_url] is [CONFIG.root_url], [users] the ids of
    [User.objects.all()]; the result is the user feed table and what was
    echoed. *)
Definition subscribe_changelog (root_url : string) (feeds : list Feed)
    (users : list Z) (userfeeds : list UserFeed)
  : GetError + (list UserFeed * list Event) :=
  let changelog_url := rstrip "/" root_url +:+ "/changelog.atom" in
  match Feed_get_by_url changelog_url feeds with
  | inl e => inl e
  | inr feed =>
      if negb (feed_truth feed) then inr (userfeeds, [EchoNotFound changelog_url])
      else inr (foldl (subscribe feed) userfeeds users,
                [EchoFeed feed; EchoTotal (length users)])
  end.

End Command.

(** Vocabulary of the statements. *)
Definition subscribed (user_id feed_id : Z) (tbl : list UserFeed) : Prop :=
  exists uf, uf ∈ tbl ∧ uf_user_id uf = user_id ∧ uf_feed_id uf = feed_id.

Definition sample_feeds : list Feed :=
  [ mkFeed 1 "https://rss.example/changelog.atom" (Some "Changelog") 0 [] None None
      false None 0 0;
    mkFeed 2 "https://b.example/feed" None 0 [] None None false None 0 0 ].

Definition sample_userfeeds : list UserFeed :=
  [ mkUserFeed 10 2 false; mkUserFeed 11 1 true ].

End Changelog.

(** ** [delete_feed] *)

Module DeleteFeed.
Import AggregateRecalculator.

Inductive Event : Type :=
  | PrintNotFound (key : string)            (* 'not found feed like key' *)
  | Confirm (feed : Feed) (answer : bool).  (* 'delete feed ?' *)

(** [queryset.first()] of a queryset without ordering: the rows are
    ordered by primary key and the first one is taken, which is the row of
    the least id, whatever the order the table hands them out in. *)
Fixpoint first_by_pk (rows : list Feed) : option Feed :=
  match rows with
  | [] => None
  | f :: rest =>
      match first_by_pk rest with
      | Some g => if decide (feed_id g < feed_id f) then Some g else Some f
      | None => Some f
      end
  end.

(** [Feed.objects.filter(Q(url__contains=key) | Q(title__contains=key))
    .first()] *)
Definition Feed_first_like (key : string) (tbl : list Feed) : option Feed :=
  first_by_pk (filter (fun feed => RefreshTaskScheduler.matches key feed) tbl).

(** [feed.delete()] *)
Definition delete (feed : Feed) (tbl : list Feed) : list Feed :=
  filter (fun f => feed_id f ≠ feed_id feed) tbl.

Section Command.
Variable py_int : string -> option Z.
(** [bool(feed)] of a [Feed] object. *)
Variable feed_truth : Feed -> bool.

(** [confirm] is the operator's answer to the prompt for a feed; the
    result is the feed table and what was shown. *)
Definition delete_feed (key : string) (confirm : Feed -> bool) (tbl : list Feed)
  : result (list Feed * list Event) :=
  let* found :=
    match py_int key with
    | Some pk => let* feed := Feed_get_by_pk pk tbl in Ok (Some feed)
    | None => Ok (Feed_first_like key tbl)
    end in
  match found with
  | None => Ok (tbl, [PrintNotFound key])
  | Some feed =>
      if negb (feed_truth feed) then Ok (tbl, [PrintNotFound key])
      else if confirm feed then Ok (delete feed tbl, [Confirm feed true])
      else Ok (tbl, [Confirm feed false])
  end.

End Command.

Definition sample_int (x : string) : option Z :=
  if decide (x = "2") then Some 2 else if decide (x = "9") then Some 9 else None.

(** Three feeds that the table hands out in another order than that of
    their ids; two of them have a blog in their title. *)
Definition sample_feeds : list Feed :=
  [ mkFeed 3 "https://c.example/feed" (Some "A blog") 0 [] None None false None 0 0;
    mkFeed 1 "https://a.example/feed" (Some "My blog 9") 0 [] None None false None 0 0;
    mkFeed 2 "https://b.example/feed" None 0 [] None None false None 0 0 ].

End DeleteFeed.

(** * Properties *)

(** ** Generic facts *)

Lemma NoDup_fmap_transfer {A K K' : Type} (f : A -> K) (g : A -> K') (l : list A) :
  NoDup (f <$> l) ->
  (forall x y, x ∈ l -> y ∈ l -> g x = g y -> f x = f y) ->
  NoDup (g <$> l).
Proof.
  induction l as [|a l IH]; intros Hnd Hfg; simpl.
  - constructor.
  - apply NoDup_cons in Hnd as [Hnotin Hnd]. apply NoDup_cons. split.
    + intros Hin. apply Hnotin.
      apply list_elem_of_fmap in Hin as (y & Hy & Hyl).
      apply list_elem_of_fmap. exists y. split; [|done].
      apply Hfg; [left | by right | done].
    + apply IH; [done|]. intros x y Hx Hy. apply Hfg; by right.
Qed.

Lemma NoDup_fmap_elem_inj {A K : Type} (f : A -> K) (l : list A) (x y : A) :
  NoDup (f <$> l) -> x ∈ l -> y ∈ l -> f x = f y -> x = y.
Proof.
  induction l as [|a l IH]; intros Hnd Hx Hy Hf.
  - by apply elem_of_nil in Hx.
  - simpl in Hnd. apply NoDup_cons in Hnd as [Hnotin Hnd].
    apply elem_of_cons in Hx as [->|Hx]; apply elem_of_cons in Hy as [->|Hy].
    + done.
    + exfalso. apply Hnotin. rewrite Hf. by apply list_elem_of_fmap_2.
    + exfalso. apply Hnotin. rewrite <- Hf. by apply list_elem_of_fmap_2.
    + by apply IH.
Qed.

Lemma foldl_invariant {A B : Type} (P : A -> Prop) (f : A -> B -> A) (l : list B) (a : A) :
  P a -> (forall a x, x ∈ l -> P a -> P (f a x)) -> P (foldl f a l).
Proof.
  revert a. induction l as [|x l IH]; intros a Ha Hstep; simpl; [done|].
  apply IH.
  - apply Hstep; [left | done].
  - intros a' y Hy. apply Hstep. by right.
Qed.

Lemma for_each_atomic_invariant {X S : Type} (Inv : S -> Prop) (xs : list X)
    (body : X -> S -> result S) (s : S) :
  Inv s ->
  (forall x s, x ∈ xs -> Inv s -> exists s', body x s = Ok s' ∧ Inv s') ->
  exists s', for_each_atomic xs body s = (s', None) ∧ Inv s'.
Proof.
  revert s. induction xs as [|x xs IH]; intros s Hs Hbody; simpl.
  - by exists s.
  - destruct (Hbody x s) as (s1 & -> & Hs1); [left | done |].
    apply IH; [done|]. intros y s2 Hy. apply Hbody. by right.
Qed.

Lemma bind_nil_all {A B : Type} (g : A -> list B) (l : list A) :
  (forall x, x ∈ l -> g x = []) -> l ≫= g = [].
Proof.
  induction l as [|x l IH]; intros Hg; [done|].
  rewrite bind_cons, Hg by left. simpl. apply IH. intros y Hy. apply Hg. by right.
Qed.

Lemma for_each_app {X S : Type} (xs ys : list X) (body : X -> S -> result S) (s : S) :
  for_each (xs ++ ys) body s = let* s' := for_each xs body s in for_each ys body s'.
Proof.
  revert s. induction xs as [|x xs IH]; intros s; simpl; [done|].
  destruct (body x s); simpl; [apply IH | done].
Qed.

(** ** OffsetReconciler *)

Section OffsetReconcilerFacts.
Import OffsetReconciler.

Lemma set_offset_set_offset v w us : set_offset v (set_offset w us) = set_offset v us.
Proof. done. Qed.

Lemma elem_of_query_mismatch db it :
  it ∈ query_mismatch db <->
  exists us s, us ∈ userstorys db ∧ s ∈ storys db ∧ story_id s = us_story_id us
    ∧ us_offset us ≠ story_offset s
    ∧ it = (us_id us, us_offset us, story_offset s).
Proof.
  unfold query_mismatch. rewrite list_elem_of_bind. split.
  - intros (us & Hit & Hus). apply list_elem_of_bind in Hit as (s & Hit & Hs).
    apply list_elem_of_filter in Hs as [Hid Hs].
    case_decide; [|by apply elem_of_nil in Hit].
    apply list_elem_of_singleton in Hit. by exists us, s.
  - intros (us & s & Hus & Hs & Hid & Hne & ->). exists us. split; [|done].
    apply list_elem_of_bind. exists s. split.
    + rewrite decide_True by done. by apply list_elem_of_singleton.
    + by apply list_elem_of_filter.
Qed.

(** Negating any subset of the rows of a table of non-negative offsets
    keeps the (user, feed, offset) keys distinct. *)
Lemma unique_negate_in ids (tbl : list UserStory) :
  unique_user_feed_offset tbl ->
  (forall us, us ∈ tbl -> 0 <= us_offset us) ->
  unique_user_feed_offset (negate_in ids <$> tbl).
Proof.
  intros Huniq Hpos. unfold unique_user_feed_offset.
  rewrite <- list_fmap_compose.
  apply (NoDup_fmap_transfer constraint_key); [done|].
  intros x y Hx Hy. apply Hpos in Hx, Hy.
  unfold constraint_key, negate_in, compose.
  repeat case_decide; simpl; intros [= Hu Hf Ho]; rewrite Hu, Hf;
    f_equal; lia.
Qed.

Lemma query_mismatch_snapshot db :
  NoDup (us_id <$> userstorys db) ->
  snapshot_of (userstorys db) (query_mismatch db).
Proof.
  intros Hpk it us Hit Hus Hid.
  apply elem_of_query_mismatch in Hit as (us' & s & Hus' & _ & _ & _ & ->).
  simpl in *. by rewrite (NoDup_fmap_elem_inj us_id _ us us' Hpk Hus Hus' Hid).
Qed.

Lemma negate_step pk o seen (tbl : list UserStory) :
  (forall us, us ∈ tbl -> us_id us = pk -> us_offset us = o) ->
  (fun us => if decide (us_id us = pk) then set_offset (- o) us else us)
    <$> (negate_in seen <$> tbl)
  = negate_in (seen ++ [pk]) <$> tbl.
Proof.
  intros Hsnap. rewrite <- list_fmap_compose. apply list_fmap_ext.
  intros i us Hi. apply list_elem_of_lookup_2 in Hi.
  unfold compose, negate_in.
  assert (Hid : forall v, us_id (if decide (us_id us ∈ seen) then set_offset v us else us)
                          = us_id us) by (intros v; by case_decide).
  rewrite Hid. destruct (decide (us_id us = pk)) as [Heq|Hne].
  - rewrite (decide_True (P := us_id us ∈ seen ++ [pk])).
    2:{ apply elem_of_app. right. by apply list_elem_of_singleton. }
    rewrite (Hsnap us Hi Heq). by case_decide.
  - destruct (decide (us_id us ∈ seen)) as [Hin|Hnin].
    + rewrite decide_True; [done | apply elem_of_app; by left].
    + rewrite decide_False; [done|].
      intros [?|Hp%list_elem_of_singleton]%elem_of_app; done.
Qed.

Lemma phase_a_from (tbl : list UserStory) items seen log :
  unique_user_feed_offset tbl ->
  (forall us, us ∈ tbl -> 0 <= us_offset us) ->
  snapshot_of tbl items ->
  phase_a items (negate_in seen <$> tbl, log)
  = Ok (negate_in (seen ++ (item_id <$> items)) <$> tbl,
        log ++ ((fun it => (item_id it, - item_us_offset it)) <$> items)).
Proof.
  intros Huniq Hpos. revert seen log.
  induction items as [|it items IH]; intros seen log Hsnap.
  - simpl. by rewrite !app_nil_r.
  - unfold phase_a in *. simpl. unfold write at 1, update_offset. simpl.
    rewrite (negate_step (item_id it) (item_us_offset it)).
    2:{ intros us Hus Hid. apply (Hsnap it us); [left | done | done]. }
    rewrite bool_decide_eq_true_2 by by apply unique_negate_in.
    simpl. rewrite IH.
    + by rewrite <- !app_assoc.
    + intros it' us Hit'. apply Hsnap. by right.
Qed.

Lemma negate_in_nil (tbl : list UserStory) : negate_in [] <$> tbl = tbl.
Proof.
  rewrite <- (list_fmap_id tbl) at 2. apply list_fmap_ext. intros i us _.
  unfold negate_in. rewrite decide_False; [done | apply not_elem_of_nil].
Qed.

(** C2: on data without negative offsets Phase A cannot violate the
    uniqueness constraint.  Within one (user, feed) scope the negated
    offsets of two distinct listed rows differ, the negated offset of a
    listed row differs from the offset of every row that is not listed,
    and after every prefix of the snapshot the writes done so far were all
    accepted: the table then holds the negated offsets of the rows
    processed and satisfies the constraint. *)
Theorem phase_a_collision_free (db : Storage) :
  NoDup (us_id <$> userstorys db) ->
  unique_user_feed_offset (userstorys db) ->
  (forall us, us ∈ userstorys db -> 0 <= us_offset us) ->
  let items := query_mismatch db in
  (forall r1 r2, r1 ∈ userstorys db -> r2 ∈ userstorys db ->
     listed items r1 -> listed items r2 -> r1 ≠ r2 -> same_scope r1 r2 ->
     - us_offset r1 ≠ - us_offset r2)
  ∧ (forall r u, r ∈ userstorys db -> u ∈ userstorys db ->
     listed items r -> ¬ listed items u -> same_scope r u ->
     - us_offset r ≠ us_offset u)
  ∧ (forall k : nat,
     let processed := take k items in
     phase_a processed (userstorys db, [])
     = Ok (negate_listed processed <$> userstorys db,
           (fun it => (item_id it, - item_us_offset it)) <$> processed)
     ∧ unique_user_feed_offset (negate_listed processed <$> userstorys db)).
Proof.
  intros Hpk Huniq Hpos items.
  assert (Hkey : forall a b, a ∈ userstorys db -> b ∈ userstorys db ->
            same_scope a b -> us_offset a = us_offset b -> a = b).
  { intros a b Ha Hb [Hu Hf] Ho.
    apply (NoDup_fmap_elem_inj constraint_key (userstorys db)); try done.
    unfold constraint_key. by rewrite Hu, Hf, Ho. }
  split; [|split].
  - intros r1 r2 H1 H2 _ _ Hne Hscope Ho. apply Hne, Hkey; try done. lia.
  - intros r u Hr Hu Hlr Hlu Hscope Ho.
    assert (r = u) as ->; [|done].
    apply Hkey; try done. apply Hpos in Hr, Hu. lia.
  - intros k processed. split; [|by apply unique_negate_in].
    rewrite <- (negate_in_nil (userstorys db)) at 1.
    rewrite phase_a_from; try done.
    intros it us Hit. apply query_mismatch_snapshot; [done|].
    by apply (subseteq_take k items).
Qed.

Lemma phase_a_collision_free_witness :
  phase_a (query_mismatch zero_offset_db) (userstorys zero_offset_db, [])
  = Ok ([ mkUserStory 1 7 3 10 (-2) false false;
          mkUserStory 2 7 3 11 0 false false ], [(1, -2); (2, 0)]).
Proof.
  assert (Hpk : NoDup (us_id <$> userstorys zero_offset_db))
    by (apply (bool_decide_unpack _); vm_compute; exact I).
  assert (Huniq : unique_user_feed_offset (userstorys zero_offset_db))
    by (apply (bool_decide_unpack _); vm_compute; exact I).
  assert (Hpos : forall us, us ∈ userstorys zero_offset_db -> 0 <= us_offset us).
  { intros us Hus. simpl in Hus.
    repeat (apply elem_of_cons in Hus as [->|Hus]; [simpl; lia|]).
    by apply elem_of_nil in Hus. }
  destruct (phase_a_collision_free zero_offset_db Hpk Huniq Hpos) as (_ & _ & Hrun).
  exact (proj1 (Hrun 2%nat)).
Defined.

(** *** Phase B, and the repair away from offset 0 *)

Section Repair.
Variable db : Storage.
Hypothesis Hpk : NoDup (us_id <$> userstorys db).
Hypothesis Hstory_pk : NoDup (story_id <$> storys db).
Hypothesis Huniq : unique_user_feed_offset (userstorys db).
Hypothesis Hpos : forall us, us ∈ userstorys db -> 0 <= us_offset us.
Hypothesis Hstory_pos : forall s, s ∈ storys db -> 0 <= story_offset s.
Hypothesis Hnonzero :
  forall us, us ∈ userstorys db -> listed (query_mismatch db) us -> us_offset us ≠ 0.
Hypothesis Htarget : unique_user_feed_offset (repaired db).

Lemma target_offset_story us s :
  s ∈ storys db -> story_id s = us_story_id us -> target_offset db us = story_offset s.
Proof.
  intros Hs Hid. unfold target_offset.
  destruct (filter _ (storys db)) as [|s' rest] eqn:Hfilter.
  - assert (Hin : s ∈ filter (fun s => story_id s = us_story_id us) (storys db))
      by (by apply list_elem_of_filter).
    rewrite Hfilter in Hin. by apply elem_of_nil in Hin.
  - assert (Hin : s' ∈ filter (fun s => story_id s = us_story_id us) (storys db))
      by (rewrite Hfilter; left).
    apply list_elem_of_filter in Hin as [Hid' Hs'].
    by rewrite (NoDup_fmap_elem_inj story_id _ s' s Hstory_pk Hs' Hs ltac:(congruence)).
Qed.

Lemma target_offset_nonneg us : us ∈ userstorys db -> 0 <= target_offset db us.
Proof.
  intros Hus. unfold target_offset.
  destruct (filter _ (storys db)) as [|s rest] eqn:Hfilter; [by apply Hpos|].
  apply Hstory_pos.
  assert (Hin : s ∈ filter (fun s => story_id s = us_story_id us) (storys db))
    by (rewrite Hfilter; left).
  by apply list_elem_of_filter in Hin as [_ ?].
Qed.

Lemma target_offset_unlisted us :
  us ∈ userstorys db -> ¬ listed (query_mismatch db) us ->
  target_offset db us = us_offset us.
Proof.
  intros Hus Hnot. unfold target_offset.
  destruct (filter _ (storys db)) as [|s rest] eqn:Hfilter; [done|].
  assert (Hin : s ∈ filter (fun s => story_id s = us_story_id us) (storys db))
    by (rewrite Hfilter; left).
  apply list_elem_of_filter in Hin as [Hid Hs].
  destruct (decide (us_offset us = story_offset s)) as [Heq|Hne]; [done|].
  exfalso. apply Hnot. unfold listed. apply list_elem_of_fmap.
  exists (us_id us, us_offset us, story_offset s). split; [done|].
  apply elem_of_query_mismatch. by exists us, s.
Qed.

Lemma item_target it us :
  it ∈ query_mismatch db -> us ∈ userstorys db -> us_id us = item_id it ->
  item_story_offset it = target_offset db us.
Proof.
  intros Hit Hus Hid.
  apply elem_of_query_mismatch in Hit as (us' & s & Hus' & Hs & Hsid & _ & ->).
  simpl in Hid. unfold item_story_offset. simpl.
  rewrite (NoDup_fmap_elem_inj us_id _ us us' Hpk Hus Hus' Hid).
  symmetry. by apply target_offset_story.
Qed.

Lemma repaired_inj x y :
  x ∈ userstorys db -> y ∈ userstorys db -> same_scope x y ->
  target_offset db x = target_offset db y -> x = y.
Proof.
  intros Hx Hy [Hu Hf] Ht. unfold unique_user_feed_offset, repaired in Htarget.
  rewrite <- list_fmap_compose in Htarget.
  apply (NoDup_fmap_elem_inj _ _ x y Htarget Hx Hy).
  unfold compose, constraint_key. simpl. by rewrite Hu, Hf, Ht.
Qed.

Lemma stored_inj x y :
  x ∈ userstorys db -> y ∈ userstorys db -> same_scope x y ->
  us_offset x = us_offset y -> x = y.
Proof.
  intros Hx Hy [Hu Hf] Ho.
  apply (NoDup_fmap_elem_inj constraint_key _ x y Huniq Hx Hy).
  unfold constraint_key. by rewrite Hu, Hf, Ho.
Qed.

(** Every table Phase B goes through satisfies the constraint. *)
Lemma unique_settle settled :
  unique_user_feed_offset (settle db settled <$> userstorys db).
Proof.
  unfold unique_user_feed_offset. rewrite <- list_fmap_compose.
  apply (NoDup_fmap_transfer us_id); [done|].
  intros x y Hx Hy Hkey. f_equal.
  pose proof (Hpos x Hx) as Hx0. pose proof (Hpos y Hy) as Hy0.
  pose proof (target_offset_nonneg x Hx) as Htx.
  pose proof (target_offset_nonneg y Hy) as Hty.
  unfold compose, settle, negate_listed, negate_in, constraint_key in Hkey.
  destruct (decide (us_id x ∈ settled)) as [Hsx|Hsx];
    destruct (decide (us_id y ∈ settled)) as [Hsy|Hsy];
    destruct (decide (us_id x ∈ item_id <$> query_mismatch db)) as [Hlx|Hlx];
    destruct (decide (us_id y ∈ item_id <$> query_mismatch db)) as [Hly|Hly];
    simpl in Hkey; injection Hkey as Hu Hf Ho;
    try (pose proof (Hnonzero x Hx Hlx));
    try (pose proof (Hnonzero y Hy Hly));
    try (pose proof (target_offset_unlisted x Hx Hlx) as Hux);
    try (pose proof (target_offset_unlisted y Hy Hly) as Huy);
    first [ by apply repaired_inj
          | by apply stored_inj
          | apply stored_inj; [done | done | done | lia]
          | apply repaired_inj; [done | done | done | lia]
          | lia ].
Qed.

Lemma settle_step it settled :
  it ∈ query_mismatch db ->
  (fun us => if decide (us_id us = item_id it)
             then set_offset (item_story_offset it) us else us)
    <$> (settle db settled <$> userstorys db)
  = settle db (settled ++ [item_id it]) <$> userstorys db.
Proof.
  intros Hit. rewrite <- list_fmap_compose. apply list_fmap_ext.
  intros i us Hi. apply list_elem_of_lookup_2 in Hi. unfold compose.
  assert (Hid : us_id (settle db settled us) = us_id us).
  { unfold settle, negate_listed, negate_in. by repeat case_decide. }
  rewrite Hid. destruct (decide (us_id us = item_id it)) as [Heq|Hne].
  - assert (Hset : forall v, set_offset v (settle db settled us) = set_offset v us).
    { intros v. unfold settle, negate_listed, negate_in. by repeat case_decide. }
    rewrite Hset, (item_target it us Hit Hi Heq). unfold settle.
    rewrite decide_True; [done|].
    apply elem_of_app. right. by apply list_elem_of_singleton.
  - unfold settle. destruct (decide (us_id us ∈ settled)) as [Hin|Hnin].
    + rewrite decide_True; [done | apply elem_of_app; by left].
    + rewrite decide_False; [done|].
      intros [?|Hp%list_elem_of_singleton]%elem_of_app; done.
Qed.

Lemma phase_b_from items settled log :
  (forall it, it ∈ items -> it ∈ query_mismatch db) ->
  phase_b items (settle db settled <$> userstorys db, log)
  = Ok (settle db (settled ++ (item_id <$> items)) <$> userstorys db,
        log ++ ((fun it => (item_id it, item_story_offset it)) <$> items)).
Proof.
  revert settled log. induction items as [|it items IH]; intros settled log Hitems.
  - simpl. by rewrite !app_nil_r.
  - unfold phase_b in *. simpl. unfold write at 1, update_offset. simpl.
    rewrite settle_step by (apply Hitems; left).
    rewrite bool_decide_eq_true_2 by apply unique_settle.
    simpl. rewrite IH.
    + by rewrite <- !app_assoc.
    + intros it' Hit'. apply Hitems. by right.
Qed.

Lemma settle_nil :
  settle db [] <$> userstorys db = negate_listed (query_mismatch db) <$> userstorys db.
Proof.
  apply list_fmap_ext. intros i us _. unfold settle.
  rewrite decide_False; [done | apply not_elem_of_nil].
Qed.

Lemma settle_all :
  settle db (item_id <$> query_mismatch db) <$> userstorys db = repaired db.
Proof.
  unfold repaired. apply list_fmap_ext. intros i us Hi.
  apply list_elem_of_lookup_2 in Hi. unfold settle, negate_listed, negate_in.
  case_decide as Hl; [done|].
  rewrite (target_offset_unlisted us Hi Hl). by destruct us.
Qed.

(** X2: away from offset 0 the repair goes through: both phases are accepted
    write by write, 2 N writes in all, and afterwards every user story holds
    the offset of its story. *)
Lemma fix_user_story_offset_repairs :
  fix_user_story_offset db
  = Ok ({| userstorys := repaired db; storys := storys db |},
        if decide (query_mismatch db = []) then []
        else ((fun it => (item_id it, - item_us_offset it)) <$> query_mismatch db)
             ++ ((fun it => (item_id it, item_story_offset it)) <$> query_mismatch db))
  ∧ forall us s, us ∈ repaired db -> s ∈ storys db ->
      story_id s = us_story_id us -> us_offset us = story_offset s.
Proof.
  split.
  - unfold fix_user_story_offset. case_decide as Hitems.
    + f_equal. f_equal. rewrite <- settle_all, Hitems. simpl.
      rewrite settle_nil, Hitems. unfold negate_listed. simpl.
      rewrite negate_in_nil. by destruct db.
    + rewrite <- (negate_in_nil (userstorys db)) at 1.
      rewrite phase_a_from; [|done|done|by apply query_mismatch_snapshot].
      cbn [bind]. rewrite !app_nil_l.
      change (negate_in (item_id <$> query_mismatch db))
        with (negate_listed (query_mismatch db)).
      rewrite <- settle_nil, phase_b_from by done.
      cbn [bind fst snd]. by rewrite app_nil_l, settle_all.
  - intros us s Hus Hs Hid. unfold repaired in Hus.
    apply list_elem_of_fmap in Hus as (us0 & -> & Hus0). simpl in *.
    by apply target_offset_story.
Qed.

End Repair.

(** C1, at a failing input: on [zero_offset_db], ordinary data that
    satisfies the constraint and whose repaired table satisfies it too,
    Phase A leaves row 2 at offset 0 because 0 is its own negation, the
    first write of Phase B then moves row 1 to offset 0 as well, the
    constraint rejects it and the command ends in [IntegrityError] with
    nothing repaired. *)
Theorem fix_user_story_offset_zero_offset_collides :
  NoDup (us_id <$> userstorys zero_offset_db)
  ∧ unique_user_feed_offset (userstorys zero_offset_db)
  ∧ Forall (fun us => 0 <= us_offset us) (userstorys zero_offset_db)
  ∧ unique_user_feed_offset (repaired zero_offset_db)
  ∧ query_mismatch zero_offset_db = [(1, 2, 0); (2, 0, 1)]
  ∧ phase_a (query_mismatch zero_offset_db) (userstorys zero_offset_db, [])
    = Ok ([ mkUserStory 1 7 3 10 (-2) false false;
            mkUserStory 2 7 3 11 0 false false ], [(1, -2); (2, 0)])
  ∧ update_offset 1 0 [ mkUserStory 1 7 3 10 (-2) false false;
                        mkUserStory 2 7 3 11 0 false false ]
    = Raise IntegrityError
  ∧ fix_user_story_offset zero_offset_db = Raise IntegrityError.
Proof.
  split; [apply (bool_decide_unpack _); vm_compute; exact I|].
  split; [apply (bool_decide_unpack _); vm_compute; exact I|].
  split; [repeat constructor; simpl; lia|].
  split; [apply (bool_decide_unpack _); vm_compute; exact I|].
  repeat split; vm_compute; reflexivity.
Qed.

End OffsetReconcilerFacts.



(** ** AggregateRecalculator *)

Section RecalculatorFacts.
Import AggregateRecalculator.
Variable py_strip : string -> string.
Variable py_int : string -> option Z.
Variable month_of : Z -> Z.
Variable dryness_of : list (Z * Z) -> Z.

Lemma Feed_get_by_pk_Ok id tbl f :
  Feed_get_by_pk id tbl = Ok f -> f ∈ tbl ∧ feed_id f = id.
Proof.
  induction tbl as [|g tbl IH]; simpl; [done|].
  case_decide as Hid.
  - intros [= ->]. split; [left | done].
  - intros Hget. destruct (IH Hget). split; [by right | done].
Qed.

Lemma Feed_get_by_pk_elem id tbl :
  id ∈ feed_id <$> tbl -> exists f, Feed_get_by_pk id tbl = Ok f.
Proof.
  induction tbl as [|g tbl IH]; simpl.
  - intros Hin. by apply elem_of_nil in Hin.
  - intros Hin. case_decide as Hid; [by exists g|].
    apply elem_of_cons in Hin as [->|Hin]; [done | by apply IH].
Qed.

Lemma update_feed_ids id change tbl :
  (forall f, feed_id f = id -> feed_id (change f) = id) ->
  feed_id <$> update_feed id change tbl = feed_id <$> tbl.
Proof.
  intros Hchange. unfold update_feed. rewrite <- list_fmap_compose.
  apply list_fmap_ext. intros i f _. simpl.
  case_decide as Hid; [|done]. by rewrite Hchange.
Qed.

(** Reading a feed back after [save] gives the object saved. *)
Lemma Feed_get_by_pk_update id f' tbl :
  feed_id f' = id -> id ∈ feed_id <$> tbl ->
  Feed_get_by_pk id (update_feed id (fun _ => f') tbl) = Ok f'.
Proof.
  intros Hid. induction tbl as [|g tbl IH]; simpl.
  - intros Hin. by apply elem_of_nil in Hin.
  - intros Hin. destruct (decide (feed_id g = id)) as [Hg|Hg].
    + by rewrite decide_True.
    + rewrite decide_False by done.
      apply elem_of_cons in Hin as [->|Hin]; [done | by apply IH].
Qed.

Abbreviation backfill := (update_feed_dt_first_story_published_body).

Lemma backfill_feed_ids id st st' :
  backfill id st = Ok st' ->
  feed_id <$> feeds (db st') = feed_id <$> feeds (db st).
Proof.
  unfold backfill.
  destruct (Feed_get_by_pk id (feeds (db st))) as [feed|] eqn:Hget; simpl; [|done].
  apply Feed_get_by_pk_Ok in Hget as [_ Hid].
  destruct (decide (dt_first_story_published feed ≠ None)); [by intros [= <-]|].
  destruct (decide (total_storys feed <= 0)); [by intros [= <-]|].
  destruct (Story_get_by_offset id 0 (db st)) as [story|[]]; try done.
  - intros [= <-]. simpl. by apply update_feed_ids.
  - by intros [= <-].
Qed.

Lemma backfill_never_raises id st :
  id ∈ feed_id <$> feeds (db st) -> exists st', backfill id st = Ok st'.
Proof.
  intros Hin. unfold backfill.
  destruct (Feed_get_by_pk_elem _ _ Hin) as [feed ->]. simpl.
  destruct (decide (dt_first_story_published feed ≠ None)); [by eexists|].
  destruct (decide (total_storys feed <= 0)); [by eexists|].
  unfold Story_get_by_offset.
  destruct (filter _ (storys_of id (db st))); by eexists.
Qed.

Lemma backfill_batch_completes ids st :
  (forall id, id ∈ ids -> id ∈ feed_id <$> feeds (db st)) ->
  (for_each_atomic ids backfill st).2 = None.
Proof.
  revert st. induction ids as [|id ids IH]; intros st Hids; simpl; [done|].
  destruct (backfill_never_raises id st) as [st' Hst']; [apply Hids; left|].
  rewrite Hst'. apply IH. intros id' Hid'.
  rewrite (backfill_feed_ids _ _ _ Hst'). apply Hids. by right.
Qed.

(** C6: in the loop of [update_feed_dt_first_story_published], a feed
    whose first-published time is set, or whose [total_storys] is not
    positive, is passed over with no write and no log; a feed whose story
    at offset 0 is missing gets a warning and no write; otherwise the
    story's published time is saved to the feed and reads back from
    storage.  In each case the loop goes on with the next feed, and a batch
    over existing feeds never ends in an error, whatever storys are
    missing. *)
Theorem backfill_first_published (id : Z) (rest : list Z) (st : State) (feed : Feed) :
  Feed_get_by_pk id (feeds (db st)) = Ok feed ->
  (dt_first_story_published feed ≠ None ∨ total_storys feed <= 0 ->
     for_each_atomic (id :: rest) backfill st = for_each_atomic rest backfill st)
  ∧ (dt_first_story_published feed = None -> 0 < total_storys feed ->
     Story_get_by_offset id 0 (db st) = Raise DoesNotExist ->
     for_each_atomic (id :: rest) backfill st
     = for_each_atomic rest backfill
         {| db := db st; writes := writes st; warnings := warnings st ++ [id] |})
  ∧ (forall story,
     dt_first_story_published feed = None -> 0 < total_storys feed ->
     Story_get_by_offset id 0 (db st) = Ok story ->
     let saved := set_dt_first_story_published (Some (story_dt_published story)) feed in
     for_each_atomic (id :: rest) backfill st
     = for_each_atomic rest backfill (save saved st)
     ∧ writes (save saved st) = writes st ++ [SaveFeed saved]
     ∧ Feed_get_by_pk id (feeds (db (save saved st))) = Ok saved)
  ∧ ((forall id', id' ∈ rest -> id' ∈ feed_id <$> feeds (db st)) ->
     (for_each_atomic (id :: rest) backfill st).2 = None).
Proof.
  intros Hget. pose proof (Feed_get_by_pk_Ok _ _ _ Hget) as [Hin Hid].
  split; [|split; [|split]].
  - intros Hskip. simpl. unfold backfill at 1. rewrite Hget. simpl.
    destruct Hskip.
    + by rewrite decide_True.
    + destruct (decide (dt_first_story_published feed ≠ None)); [done|].
      by rewrite decide_True.
  - intros Hnone Hpos Hstory. simpl. unfold backfill at 1. rewrite Hget. simpl.
    rewrite decide_False by (by intros []).
    rewrite decide_False by lia. by rewrite Hstory.
  - intros story Hnone Hpos Hstory saved. split; [|split; [done|]].
    + simpl. unfold backfill at 1. rewrite Hget. simpl.
      rewrite decide_False by (by intros []).
      rewrite decide_False by lia. by rewrite Hstory.
    + simpl. replace (feed_id feed) with id.
      apply Feed_get_by_pk_update; [done|].
      rewrite <- Hid. by apply list_elem_of_fmap_2.
  - intros Hrest. apply backfill_batch_completes.
    intros id' [->|Hid']%elem_of_cons; [|by apply Hrest].
    rewrite <- Hid. by apply list_elem_of_fmap_2.
Qed.

(** *** Runs on storage without drift *)

Abbreviation monthly_of := (monthly_of month_of).
Abbreviation refresh_monthly := (Story_refresh_feed_monthly_story_count month_of).
Abbreviation dryness_body := (update_feed_dryness_body month_of dryness_of).

Lemma update_feed_same id change tbl :
  (forall f, f ∈ tbl -> feed_id f = id -> change f = f) ->
  update_feed id change tbl = tbl.
Proof.
  intros Hsame. unfold update_feed. rewrite <- (list_fmap_id tbl) at 2.
  apply list_fmap_ext. intros i f Hi. simpl. case_decide; [|done].
  apply Hsame; [|done]. by apply list_elem_of_lookup_2 in Hi.
Qed.

Lemma storage_eta (st : Storage) : {| feeds := feeds st; storys := storys st |} = st.
Proof. by destruct st. Qed.

Lemma no_drift_no_incorrect st :
  no_drift_total st -> Story_query_feed_incorrect_total_storys st = [].
Proof.
  intros Hnd. unfold Story_query_feed_incorrect_total_storys.
  apply bind_nil_all. intros f Hf. rewrite decide_False; [done|].
  intros Hne. by apply Hne, Hnd.
Qed.

Lemma refresh_monthly_same id st :
  (forall f, f ∈ feeds (db st) -> feed_id f = id ->
     monthly_story_count f = monthly_of id (db st)) ->
  refresh_monthly id st
  = {| db := db st;
       writes := writes st ++ [WriteMonthlyStoryCount id (monthly_of id (db st))];
       warnings := warnings st |}.
Proof.
  intros Hsame. unfold refresh_monthly. f_equal.
  rewrite update_feed_same; [apply storage_eta|].
  intros f Hf Hid. rewrite <- (Hsame f Hf Hid). by destruct f.
Qed.

Lemma save_same feed st :
  NoDup (feed_id <$> feeds (db st)) -> feed ∈ feeds (db st) ->
  save feed st
  = {| db := db st; writes := writes st ++ [SaveFeed feed]; warnings := warnings st |}.
Proof.
  intros Hnd Hin. unfold save. f_equal.
  rewrite update_feed_same; [apply storage_eta|].
  intros f Hf Hid. symmetry.
  by apply (NoDup_fmap_elem_inj feed_id (feeds (db st))).
Qed.

Lemma rewriting_refl st : rewriting st st.
Proof. split; [done|]. exists []. by rewrite app_nil_r. Qed.

Lemma rewriting_write st0 st w d ws' :
  rewriting st0 st -> rewrites_stored (db st0) w -> d = db st0 ->
  rewriting st0 {| db := d; writes := writes st ++ [w]; warnings := ws' |}.
Proof.
  intros [Hdb (ws & Hws & Hall)] Hw ->. split; [done|]. exists (ws ++ [w]). simpl.
  rewrite Hws, app_assoc. split; [done|].
  apply Forall_app. split; [done|]. by apply Forall_singleton.
Qed.

Lemma monthly_body_no_drift ids st0 id st :
  no_drift_monthly month_of ids (db st0) ->
  id ∈ ids -> id ∈ feed_id <$> feeds (db st0) ->
  rewriting st0 st -> rewriting st0 (refresh_monthly id st).
Proof.
  intros Hnd Hid Hex Hrw. pose proof Hrw as [Hdb _].
  rewrite refresh_monthly_same.
  - apply rewriting_write; [done| |done]. simpl.
    apply list_elem_of_fmap in Hex as (f & -> & Hf). exists f.
    rewrite Hdb. split; [done|]. split; [done|]. by apply Hnd.
  - rewrite Hdb. intros f Hf <-. by apply Hnd.
Qed.

Lemma dryness_body_no_drift ids st0 id st :
  NoDup (feed_id <$> feeds (db st0)) ->
  no_drift_dryness month_of dryness_of ids (db st0) ->
  id ∈ ids -> id ∈ feed_id <$> feeds (db st0) ->
  rewriting st0 st ->
  exists st', dryness_body id st = Ok st' ∧ rewriting st0 st'.
Proof.
  intros Hpk Hnd Hid Hex Hrw. pose proof Hrw as [Hdb _].
  unfold dryness_body. rewrite Hdb.
  destruct (Feed_get_by_pk_elem _ _ Hex) as [feed Hget]. rewrite Hget. simpl.
  pose proof (Feed_get_by_pk_Ok _ _ _ Hget) as [Hin Hfid].
  case_decide as Htotal; [by exists st|].
  destruct (Hnd feed Hin ltac:(by rewrite Hfid) ltac:(lia)) as [Hdry Hempty].
  assert (Hsame : set_dryness (Some (dryness_of (monthly_story_count feed))) feed = feed)
    by (rewrite <- Hdry; by destruct feed).
  case_decide as Hcnt.
  - assert (Hrefresh : refresh_monthly id st
              = {| db := db st0;
                   writes := writes st ++ [WriteMonthlyStoryCount id []];
                   warnings := warnings st |}).
    { rewrite refresh_monthly_same; rewrite Hdb, <- Hfid, (Hempty Hcnt); [done|].
      intros f Hf Heq.
      by rewrite (NoDup_fmap_elem_inj feed_id _ f feed Hpk Hf Hin Heq). }
    rewrite Hrefresh. simpl. rewrite Hfid, Hget. simpl. rewrite Hsame.
    eexists. split; [done|]. rewrite save_same by done. simpl.
    apply (rewriting_write st0 (mkState (db st0) _ (warnings st))); [|done|done].
    apply rewriting_write; [done| |done]. simpl. by exists feed.
  - rewrite Hdb, Hfid, Hget. simpl. rewrite Hsame.
    eexists. split; [done|]. rewrite save_same by (by rewrite Hdb).
    by apply rewriting_write.
Qed.

Lemma backfill_body_no_drift ids st0 id st :
  no_drift_first_published ids (db st0) ->
  id ∈ ids -> id ∈ feed_id <$> feeds (db st0) ->
  db st = db st0 ∧ writes st = writes st0 ->
  exists st', backfill id st = Ok st' ∧ db st' = db st0 ∧ writes st' = writes st0.
Proof.
  intros Hnd Hid Hex [Hdb Hw]. unfold backfill. rewrite Hdb.
  destruct (Feed_get_by_pk_elem _ _ Hex) as [feed Hget]. rewrite Hget. simpl.
  pose proof (Feed_get_by_pk_Ok _ _ _ Hget) as [Hin Hfid].
  case_decide as Hset; [by exists st|].
  case_decide as Htotal; [by exists st|].
  destruct (Story_get_by_offset id 0 (db st0)) as [story|e] eqn:Hstory.
  - exfalso. rewrite <- Hfid in Hstory, Hid.
    by rewrite (Hnd feed story Hin Hid ltac:(lia) Hstory) in Hset.
  - unfold Story_get_by_offset in Hstory.
    destruct (filter _ (storys_of id (db st0))); [|done].
    injection Hstory as <-. by eexists.
Qed.

Lemma over_feeds_ids option_feeds ids body st :
  Selection._get_feed_ids py_strip py_int option_feeds (feeds (db st)) = Ok ids ->
  over_feeds py_strip py_int option_feeds body st = for_each_atomic ids body st.
Proof. intros Hids. unfold over_feeds. by rewrite Hids. Qed.

Lemma state_eta (st : State) d :
  db st = d -> {| db := d; writes := writes st; warnings := warnings st |} = st.
Proof. intros <-. by destruct st. Qed.

Lemma monthly_no_drift_loop ids0 st0 ids st :
  no_drift_monthly month_of ids0 (db st0) ->
  (forall id, id ∈ ids -> id ∈ ids0) -> db st = db st0 ->
  for_each_atomic ids (fun id s => Ok (refresh_monthly id s)) st
  = ({| db := db st0;
        writes := writes st ++ (monthly_write month_of (db st0) <$> ids);
        warnings := warnings st |}, None).
Proof.
  intros Hnd. revert st. induction ids as [|id ids IH]; intros st Hids Hdb;
    cbn [for_each_atomic].
  - rewrite fmap_nil, app_nil_r. by rewrite state_eta.
  - rewrite refresh_monthly_same.
    + rewrite IH; [|intros id' Hid'; apply Hids; by right|done].
      cbn [writes warnings]. by rewrite fmap_cons, <- app_assoc, Hdb.
    + rewrite Hdb. intros f Hf <-. apply Hnd; [done|]. apply Hids. left.
Qed.

Lemma dryness_no_drift_step ids0 st0 id st :
  NoDup (feed_id <$> feeds (db st0)) ->
  no_drift_dryness month_of dryness_of ids0 (db st0) ->
  id ∈ ids0 -> id ∈ feed_id <$> feeds (db st0) -> db st = db st0 ->
  dryness_body id st
  = Ok {| db := db st0;
          writes := writes st ++ dryness_writes month_of (db st0) id;
          warnings := warnings st |}.
Proof.
  intros Hpk Hnd Hid Hex Hdb. unfold dryness_body, dryness_writes. rewrite Hdb.
  destruct (Feed_get_by_pk_elem _ _ Hex) as [feed Hget]. rewrite Hget. cbn [bind].
  pose proof (Feed_get_by_pk_Ok _ _ _ Hget) as [Hin Hfid].
  destruct (decide (total_storys feed <= 0)) as [Htotal|Htotal].
  { rewrite app_nil_r. by rewrite state_eta. }
  destruct (Hnd feed Hin ltac:(by rewrite Hfid) ltac:(lia)) as [Hdry Hempty].
  assert (Hsame : set_dryness (Some (dryness_of (monthly_story_count feed))) feed = feed)
    by (rewrite <- Hdry; by destruct feed).
  destruct (decide (monthly_story_count feed = [])) as [Hcnt|Hcnt].
  - assert (Hrefresh : refresh_monthly id st
              = {| db := db st0;
                   writes := writes st ++ [WriteMonthlyStoryCount id []];
                   warnings := warnings st |}).
    { rewrite refresh_monthly_same; rewrite Hdb, <- Hfid, (Hempty Hcnt); [done|].
      intros f Hf Heq.
      by rewrite (NoDup_fmap_elem_inj feed_id _ f feed Hpk Hf Hin Heq). }
    rewrite Hrefresh. cbn [db]. rewrite Hfid, Hget. cbn [bind]. rewrite Hsame.
    rewrite save_same by done. cbn [db writes warnings].
    assert (Hhist : monthly_of id (db st0) = []) by (rewrite <- Hfid; by apply Hempty).
    unfold monthly_write. by rewrite Hhist, <- app_assoc.
  - rewrite Hdb, Hfid, Hget. cbn [bind]. rewrite Hsame.
    rewrite save_same by (by rewrite Hdb). by rewrite Hdb.
Qed.

Lemma dryness_no_drift_loop ids0 st0 ids st :
  NoDup (feed_id <$> feeds (db st0)) ->
  no_drift_dryness month_of dryness_of ids0 (db st0) ->
  (forall id, id ∈ ids -> id ∈ ids0 ∧ id ∈ feed_id <$> feeds (db st0)) ->
  db st = db st0 ->
  for_each_atomic ids dryness_body st
  = ({| db := db st0;
        writes := writes st ++ (ids ≫= dryness_writes month_of (db st0));
        warnings := warnings st |}, None).
Proof.
  intros Hpk Hnd. revert st. induction ids as [|id ids IH]; intros st Hids Hdb;
    cbn [for_each_atomic].
  - change ([] ≫= dryness_writes month_of (db st0)) with (@nil Write).
    rewrite app_nil_r. by rewrite state_eta.
  - destruct (Hids id) as [Hid Hex]; [left|].
    rewrite (dryness_no_drift_step ids0 st0 id st) by done.
    rewrite IH; [|intros id' Hid'; apply Hids; by right|done].
    cbn [writes warnings]. by rewrite bind_cons, <- app_assoc.
Qed.

(** C5, amended: on feeds whose stored derived values already agree with
    the recomputed ones, each of the four commands completes and leaves
    storage as it was.  Recomputing [total_storys] and backfilling the
    first-published time then send no write at all.  Refreshing the month
    histogram still sends one write for every selected feed, and refreshing
    the dryness still saves every selected feed that has storys, after a
    write of the histogram when the stored one is empty; each of these
    writes stores again what the row already holds. *)
Theorem recalculation_without_drift (option_feeds : option string)
    (ids : list Z) (st : State) :
  NoDup (feed_id <$> feeds (db st)) ->
  Selection._get_feed_ids py_strip py_int option_feeds (feeds (db st)) = Ok ids ->
  (forall id, id ∈ ids -> id ∈ feed_id <$> feeds (db st)) ->
  (no_drift_total (db st) ->
     forall dry_run, fix_feed_total_storys dry_run st = (st, [], 0))
  ∧ (no_drift_first_published ids (db st) ->
     exists st',
       update_feed_dt_first_story_published py_strip py_int option_feeds st
       = (st', None)
       ∧ db st' = db st ∧ writes st' = writes st)
  ∧ (no_drift_monthly month_of ids (db st) ->
     exists st',
       update_feed_monthly_story_count py_strip py_int month_of option_feeds st
       = (st', None)
       ∧ rewriting st st'
       ∧ writes st' = writes st ++ (monthly_write month_of (db st) <$> ids))
  ∧ (no_drift_dryness month_of dryness_of ids (db st) ->
     exists st',
       update_feed_dryness py_strip py_int month_of dryness_of option_feeds st
       = (st', None)
       ∧ rewriting st st'
       ∧ writes st' = writes st ++ (ids ≫= dryness_writes month_of (db st))
       ∧ (forall id feed, id ∈ ids ->
            Feed_get_by_pk id (feeds (db st)) = Ok feed -> 0 < total_storys feed ->
            SaveFeed feed ∈ ids ≫= dryness_writes month_of (db st))).
Proof.
  intros Hpk Hids Hex. split; [|split; [|split]].
  - intros Hnd dry_run. unfold fix_feed_total_storys.
    rewrite (no_drift_no_incorrect _ Hnd). by destruct dry_run.
  - intros Hnd. unfold update_feed_dt_first_story_published.
    rewrite (over_feeds_ids _ ids) by done.
    apply (for_each_atomic_invariant
             (fun s => db s = db st ∧ writes s = writes st)); [done|].
    intros id s Hid Hs.
    apply (backfill_body_no_drift ids st id s); auto.
  - intros Hnd. unfold update_feed_monthly_story_count.
    rewrite (over_feeds_ids _ ids) by done.
    rewrite (monthly_no_drift_loop ids st ids st) by done.
    eexists. split; [done|]. cbn [writes]. split; [|done].
    split; [done|]. eexists. split; [done|].
    apply Forall_fmap, Forall_forall. intros id Hid. simpl.
    pose proof (Hex id Hid) as Hin.
    apply list_elem_of_fmap in Hin as (f & -> & Hf). exists f.
    split; [done|]. split; [done|]. by apply Hnd.
  - intros Hnd. unfold update_feed_dryness.
    rewrite (over_feeds_ids _ ids) by done.
    rewrite (dryness_no_drift_loop ids st ids st) by auto.
    eexists. split; [done|]. cbn [writes]. split; [|split; [done|]].
    + split; [done|]. eexists. split; [done|].
      apply Forall_forall. intros w Hw.
      apply list_elem_of_bind in Hw as (id & Hw & Hid). unfold dryness_writes in Hw.
      destruct (Feed_get_by_pk id (feeds (db st))) as [feed|] eqn:Hget;
        [|by apply elem_of_nil in Hw].
      apply Feed_get_by_pk_Ok in Hget as [Hin Hfid].
      destruct (decide (total_storys feed <= 0)); [by apply elem_of_nil in Hw|].
      destruct (Hnd feed Hin ltac:(by rewrite Hfid) ltac:(lia)) as [_ Hempty].
      apply elem_of_app in Hw as [Hw|Hw].
      * destruct (decide (monthly_story_count feed = [])) as [Hcnt|];
          [|by apply elem_of_nil in Hw].
        apply list_elem_of_singleton in Hw as ->. simpl. exists feed.
        split; [done|]. split; [done|]. rewrite <- Hfid. by rewrite (Hempty Hcnt).
      * apply list_elem_of_singleton in Hw as ->. done.
    + intros id feed Hid Hget Hpos. apply list_elem_of_bind. exists id.
      split; [|done]. unfold dryness_writes. rewrite Hget.
      rewrite decide_False by lia. apply elem_of_app. right. left.
Qed.

End RecalculatorFacts.

Section RecalculatorExamples.
Import AggregateRecalculator.

Lemma settled_db_no_drift :
  no_drift_total settled_db
  ∧ no_drift_monthly sample_month_of [1] settled_db
  ∧ no_drift_dryness sample_month_of sample_dryness_of [1] settled_db
  ∧ no_drift_first_published [1] settled_db.
Proof.
  split; [|split; [|split]].
  - intros f ->%list_elem_of_singleton. reflexivity.
  - intros f ->%list_elem_of_singleton _. reflexivity.
  - intros f ->%list_elem_of_singleton _ _. split; [reflexivity | done].
  - intros f story ->%list_elem_of_singleton _ _ [= <-]. reflexivity.
Qed.

(** The claim as stated fails: [settled_db] has no drift, and a run of
    [update_feed_dryness] over it still saves the feed. *)
Lemma update_feed_dryness_writes_without_drift :
  no_drift_dryness sample_month_of sample_dryness_of [1] settled_db
  ∧ update_feed_dryness (fun s => s) (fun _ => None) sample_month_of
      sample_dryness_of None {| db := settled_db; writes := []; warnings := [] |}
    = ({| db := settled_db; writes := [SaveFeed settled_feed]; warnings := [] |},
       None).
Proof.
  split; [apply settled_db_no_drift | vm_compute; reflexivity].
Qed.

Lemma recalculation_without_drift_witness :
  (exists st',
     update_feed_monthly_story_count (fun s => s) (fun _ => None) sample_month_of
       None {| db := settled_db; writes := []; warnings := [] |}
     = (st', None)
     ∧ rewriting {| db := settled_db; writes := []; warnings := [] |} st'
     ∧ writes st' = [WriteMonthlyStoryCount 1 [(600, 2)]])
  ∧ (exists st',
       update_feed_dryness (fun s => s) (fun _ => None) sample_month_of
         sample_dryness_of None {| db := settled_db; writes := []; warnings := [] |}
       = (st', None)
       ∧ rewriting {| db := settled_db; writes := []; warnings := [] |} st'
       ∧ writes st' = [SaveFeed settled_feed]).
Proof.
  assert (Hpk : NoDup (feed_id <$> feeds settled_db))
    by (apply (bool_decide_unpack _); vm_compute; exact I).
  assert (Hex : forall id, id ∈ [1] -> id ∈ feed_id <$> feeds settled_db)
    by (intros id Hid; exact Hid).
  destruct (recalculation_without_drift (fun s => s) (fun _ => None)
              sample_month_of sample_dryness_of None [1]
              {| db := settled_db; writes := []; warnings := [] |}
              Hpk eq_refl Hex) as (_ & _ & Hmonthly & Hdry).
  destruct settled_db_no_drift as (_ & Hnd_monthly & Hnd_dry & _).
  split.
  - destruct (Hmonthly Hnd_monthly) as (st' & Hrun & Hrw & Hw).
    exists st'. split; [exact Hrun|]. split; [exact Hrw | exact Hw].
  - destruct (Hdry Hnd_dry) as (st' & Hrun & Hrw & Hw & _).
    exists st'. split; [exact Hrun|]. split; [exact Hrw | exact Hw].
Defined.

Lemma backfill_first_published_witness :
  for_each_atomic [1; 2; 3] update_feed_dt_first_story_published_body
    {| db := backfill_db; writes := []; warnings := [] |}
  = for_each_atomic [2; 3] update_feed_dt_first_story_published_body
      (save (mkFeed 1 "https://a.example/feed" None 2 [] None (Some 1555200000)
               false None 0 0)
         {| db := backfill_db; writes := []; warnings := [] |}).
Proof.
  destruct (backfill_first_published 1 [2; 3]
              {| db := backfill_db; writes := []; warnings := [] |}
              (mkFeed 1 "https://a.example/feed" None 2 [] None None false None 0 0)
              eq_refl) as (_ & _ & Hsave & _).
  exact (proj1 (Hsave (mkStory 10 1 0 "first" "https://a.example/1" 1555200000 false)
                  eq_refl ltac:(simpl; lia) eq_refl)).
Defined.

(** The whole batch over [backfill_db]: feed 1 is saved, feed 2 is logged,
    feed 3 passed over, and the command ends without error. *)
Example backfill_batch :
  update_feed_dt_first_story_published (fun s => s) (fun _ => None) None
    {| db := backfill_db; writes := []; warnings := [] |}
  = ({| db := {| feeds :=
                   [ mkFeed 1 "https://a.example/feed" None 2 [] None
                       (Some 1555200000) false None 0 0;
                     mkFeed 2 "https://b.example/feed" None 3 [] None None false None 0 0;
                     mkFeed 3 "https://c.example/feed" None 0 [] None None false None 0 0 ];
                 storys := storys backfill_db |};
        writes := [SaveFeed (mkFeed 1 "https://a.example/feed" None 2 [] None
                               (Some 1555200000) false None 0 0)];
        warnings := [2] |}, None).
Proof. vm_compute. reflexivity. Qed.

End RecalculatorExamples.

(** ** FeedHealthClassifier *)

Section FloatFacts.
Import PyFloat.

Lemma div_core_diag (p : positive) :
  SFdiv_core_binary prec emax (Z.pos p) 0 (Z.pos p) 0 = (2 ^ 53, -53, loc_Exact).
Proof.
  unfold SFdiv_core_binary, prec, emax. cbv zeta.
  replace (Zdigits2 (Z.pos p) + 0 - (Zdigits2 (Z.pos p) + 0)) with 0 by lia.
  change (0 - 0 - IntDef.Z.min (fexp 53 1024 0) (0 - 0)) with 53.
  change (IntDef.Z.min (fexp 53 1024 0) (0 - 0)) with (-53).
  cbv iota.
  change (IntDef.Z.div_eucl (IntDef.Z.shiftl (Z.pos p) 53) (Z.pos p))
    with (Z.div_eucl (Z.shiftl (Z.pos p) 53) (Z.pos p)).
  rewrite Z.shiftl_mul_pow2 by lia.
  pose proof (Z.div_eucl_eq (Z.pos p * 2 ^ 53) (Z.pos p)) as Heq.
  pose proof (Z.mod_pos_bound (Z.pos p * 2 ^ 53) (Z.pos p)) as Hbound.
  unfold Z.modulo in Hbound.
  destruct (Z.div_eucl (Z.pos p * 2 ^ 53) (Z.pos p)) as [q r].
  specialize (Heq ltac:(lia)). specialize (Hbound ltac:(lia)).
  assert (q = 2 ^ 53) as -> by nia.
  assert (r = 0) as -> by lia.
  unfold new_location, new_location_even, new_location_odd.
  destruct (Z.even (Z.pos p)); reflexivity.
Qed.

(** [n / n] is [1.0] for every positive int, whatever its size. *)
Lemma int_true_div_diag (n : Z) :
  0 < n -> int_true_div n n = Ok (S754_finite false 4503599627370496 (-52)).
Proof.
  intros Hn. destruct n as [|p|p]; try lia.
  unfold int_true_div. change (Z.abs (Z.pos p)) with (Z.pos p).
  rewrite div_core_diag. reflexivity.
Qed.

End FloatFacts.

Section ClassifierFacts.
Import FeedHealthClassifier.
Variable name_of : Z -> string.

Lemma error_percent_of_zero_ok (e : Z) : 0 < e -> error_percent_of e 0 = Ok 100.
Proof.
  intros He. unfold error_percent_of.
  rewrite Z.add_0_r, int_true_div_diag by done. reflexivity.
Qed.

(** *** Dicts in insertion order *)

Lemma elem_of_dict_set {K V : Type} `{EqDecision K} (k : K) (v : V)
    (d : list (K * V)) (x : K * V) :
  x ∈ dict_set k v d -> x = (k, v) ∨ (x ∈ d ∧ (NoDup d.*1 -> x.1 ≠ k)).
Proof.
  induction d as [|[k' v'] d IH]; simpl.
  - intros ->%list_elem_of_singleton. by left.
  - case_decide as Hk.
    + subst k'. intros [->|Hx]%elem_of_cons; [by left|]. right. split; [by right|].
      intros [Hnotin _]%NoDup_cons Heq. apply Hnotin. rewrite <- Heq.
      by apply (list_elem_of_fmap_2 fst) in Hx.
    + intros [->|Hx]%elem_of_cons.
      * right. split; [left | done].
      * destruct (IH Hx) as [->|[Hin Hne]]; [by left|]. right. split; [by right|].
        intros [_ Hnd]%NoDup_cons. by apply Hne.
Qed.

Lemma dict_set_keys {K V : Type} `{EqDecision K} (k : K) (v : V) (d : list (K * V)) :
  (dict_set k v d).*1 = if decide (k ∈ d.*1) then d.*1 else d.*1 ++ [k].
Proof.
  induction d as [|[k' v'] d IH]; simpl.
  - done.
  - destruct (decide (k' = k)) as [->|Hk].
    + rewrite !fmap_cons. simpl. rewrite decide_True; [done | left].
    + rewrite !fmap_cons, IH. simpl. destruct (decide (k ∈ d.*1)) as [Hin|Hnin].
      * rewrite decide_True; [done | by right].
      * rewrite decide_False; [done|].
        intros [->|?]%elem_of_cons; done.
Qed.

Lemma NoDup_dict_set {K V : Type} `{EqDecision K} (k : K) (v : V) (d : list (K * V)) :
  NoDup d.*1 -> NoDup (dict_set k v d).*1.
Proof.
  intros Hnd. rewrite dict_set_keys. case_decide as Hk; [done|].
  apply NoDup_app. split; [done|]. split; [|apply NoDup_singleton].
  intros x Hx ->%list_elem_of_singleton. done.
Qed.

Lemma dict_get_Some {K V : Type} `{EqDecision K} (k : K) (v : V) (d : list (K * V)) :
  dict_get k d = Some v -> (k, v) ∈ d.
Proof.
  induction d as [|[k' v'] d IH]; simpl; [done|].
  case_decide as Hk.
  - intros [= ->]. subst. left.
  - intros Hget. right. by apply IH.
Qed.

Lemma dict_set_nonempty {K V : Type} `{EqDecision K} (k : K) (v : V) (d : list (K * V)) :
  dict_set k v d ≠ [].
Proof. destruct d as [|[k' v'] d]; simpl; [done|]. by case_decide. Qed.

Lemma sum_values_pos {K : Type} (d : list (K * Z)) :
  d ≠ [] -> (forall kv, kv ∈ d -> 0 < kv.2) -> 0 < sum_values d.
Proof.
  assert (Hnonneg : forall d' : list (K * Z),
            (forall kv, kv ∈ d' -> 0 < kv.2) -> 0 <= sum_values d').
  { induction d' as [|kv d' IH]; intros Hpos; simpl; [lia|].
    specialize (Hpos kv ltac:(left)) as Hkv.
    specialize (IH ltac:(intros; apply Hpos; by right)). lia. }
  destruct d as [|kv d]; [done|]. intros _ Hpos. simpl.
  specialize (Hpos kv ltac:(left)) as Hkv.
  specialize (Hnonneg d ltac:(intros; apply Hpos; by right)). lia.
Qed.

(** *** The two loops *)

Lemma first_loop (rows : list ErrorRow) :
  (forall r, r ∈ rows -> 3 < er_count r) ->
  let d := foldl (fun acc r => add_error_row name_of r acc) [] rows in
  keyed d ∧ fresh d.
Proof.
  intros Hrows. apply (foldl_invariant (fun d => keyed d ∧ fresh d)).
  - split; [split|]; [constructor | |]; intros id feed Hin;
      by apply elem_of_nil in Hin.
  - intros acc r Hr [[Hnd Hkey] Hfresh]. unfold add_error_row.
    split; [split|].
    + by apply NoDup_dict_set.
    + intros id feed [[= -> ->]|[Hin _]]%elem_of_dict_set; [done | by apply Hkey].
    + intros id feed [[= -> ->]|[Hin _]]%elem_of_dict_set; [|by apply (Hfresh id)].
      simpl. repeat split; try done.
      * apply dict_set_nonempty.
      * intros kv [->|[Hkv _]]%elem_of_dict_set.
        { simpl. specialize (Hrows r Hr). lia. }
        destruct (dict_get (er_feed_id r) acc) as [old|] eqn:Hget.
        -- apply dict_get_Some in Hget.
           destruct (Hfresh _ _ Hget) as (_ & _ & _ & Hpos & _). by apply Hpos.
        -- by apply elem_of_nil in Hkv.
Qed.

Lemma fresh_computed (d : list (Z * ErrorFeed)) : fresh d -> computed [] d.
Proof.
  intros Hfresh id feed Hin.
  destruct (Hfresh id feed Hin) as (Hok & Hpct & Hne & Hpos & Hcount).
  assert (0 < error_count feed) by (rewrite Hcount; by apply sum_values_pos).
  split; [done|]. split; [|done].
  rewrite Hok, Hpct. by apply error_percent_of_zero_ok.
Qed.

Lemma second_loop (rows seen : list (Z * Z)) (d d' : list (Z * ErrorFeed)) :
  keyed d -> computed seen d ->
  for_each rows add_ok_row d = Ok d' ->
  keyed d' ∧ computed (seen ++ rows) d'.
Proof.
  revert seen d. induction rows as [|[k c] rows IH]; intros seen d Hkeyed Hcomp.
  - simpl. intros [= <-]. by rewrite app_nil_r.
  - cbn [for_each].
    destruct (add_ok_row (k, c) d) as [d1|] eqn:Hrow; cbn [bind]; [|done].
    intros Hrest. rewrite cons_middle, app_assoc.
    apply (IH (seen ++ [(k, c)]) d1); [| |done]; clear IH Hrest;
      unfold add_ok_row in Hrow;
      destruct (dict_get k d) as [feed|] eqn:Hget; try done;
      destruct (error_percent_of (error_count feed) c) as [pct|] eqn:Hpct;
      simpl in Hrow; try done; injection Hrow as <-;
      apply dict_get_Some in Hget; destruct Hkeyed as [Hnd Hkey].
    + split; [by apply NoDup_dict_set|].
      intros id f [[= -> ->]|[Hin _]]%elem_of_dict_set; [simpl | by apply Hkey].
      by apply Hkey.
    + intros id f [[= -> ->]|[Hin Hne]]%elem_of_dict_set.
      * simpl. destruct (Hcomp _ _ Hget) as (Hpos & _ & _).
        split; [done|]. split; [done|].
        unfold reported_ok_count. rewrite reverse_app. simpl.
        by rewrite decide_True.
      * destruct (Hcomp _ _ Hin) as (Hpos & Hformula & Hok).
        split; [done|]. split; [done|]. rewrite Hok.
        unfold reported_ok_count. rewrite reverse_app. simpl.
        rewrite decide_False; [done|]. intros ->. by apply (Hne Hnd).
Qed.

Lemma collect_computed cursor t_begin limit d :
  (forall r, r ∈ execute_sql cursor t_begin limit -> 3 < er_count r) ->
  collect name_of cursor t_begin limit = Ok d ->
  keyed d
  ∧ computed (execute_sql_ok_count cursor t_begin
                (foldl (fun acc r => add_error_row name_of r acc) []
                   (execute_sql cursor t_begin limit)).*1) d.
Proof.
  intros Hrows Hcollect. unfold collect in Hcollect.
  destruct (first_loop _ Hrows) as [Hkeyed Hfresh].
  apply (second_loop _ [] _ _ Hkeyed (fresh_computed _ Hfresh) Hcollect).
Qed.

(** *** Sorting and the proposal loop *)

Lemma insert_desc_perm x l : insert_desc x l ≡ₚ x :: l.
Proof.
  induction l as [|y l IH]; simpl; [done|].
  case_decide; [done|]. rewrite IH. apply Permutation_swap.
Qed.

Lemma sorted_desc_perm l : sorted_desc l ≡ₚ l.
Proof.
  induction l as [|x l IH]; simpl; [done|].
  rewrite insert_desc_perm. by f_equiv.
Qed.

Lemma foldl_propose threshold (l : list ErrorFeed) ids evs :
  foldl (propose threshold) (ids, evs) l
  = (ids ++ (ef_feed_id <$> filter (fun feed => threshold <= error_percent feed) l),
     evs ++ (EchoFeed <$> filter (fun feed => threshold <= error_percent feed) l)).
Proof.
  revert ids evs. induction l as [|x l IH]; intros ids evs; simpl.
  - by rewrite !app_nil_r.
  - rewrite filter_cons. unfold propose at 2. case_decide; simpl.
    + rewrite IH. by rewrite <- !app_assoc.
    + apply IH.
Qed.

Lemma delete_invalid_feeds_Ok cursor now confirm days limit threshold out :
  delete_invalid_feeds name_of cursor now confirm days limit threshold = Ok out ->
  exists d,
    collect name_of cursor (now - days * 86400) limit = Ok d
    ∧ returned out = sorted_desc d.*2
    ∧ delete_feed_ids out
      = ef_feed_id <$> filter (fun feed => threshold <= error_percent feed) (returned out)
    ∧ events out
      = (EchoFeed <$> filter (fun feed => threshold <= error_percent feed) (returned out))
        ++ match delete_feed_ids out with
           | [] => []
           | _ :: _ =>
               if confirm (length (delete_feed_ids out))
               then [Confirm (length (delete_feed_ids out)) true;
                     BulkDelete (delete_feed_ids out); Echo "Done!"]
               else [Confirm (length (delete_feed_ids out)) false; Echo "Abort!"]
           end
    ∧ window_in_range now days.
Proof.
  unfold delete_invalid_feeds, timedelta_days, datetime_sub.
  destruct (decide (-999999999 <= days <= 999999999)) as [Hdays|]; cbn [bind]; [|done].
  destruct (decide (datetime_min <= now - days * 86400 <= datetime_max)) as [Ht|];
    cbn [bind]; [|done].
  destruct (collect name_of cursor (now - days * 86400) limit) as [d|];
    cbn [bind]; [|done].
  rewrite foldl_propose. simpl. intros [= <-]. by exists d.
Qed.

(** The float expression against exact arithmetic, for every total of up
    to 200 fetches: the division, the product and [round] are carried out
    for each pair of counts. *)
Lemma nearest_upto_200 : nearest_upto 200 = true.
Proof. vm_compute. reflexivity. Qed.

Lemma nearest_upto_spec (bound e ok : nat) :
  nearest_upto bound = true ->
  (1 <= e <= bound)%nat -> (ok <= bound - e)%nat ->
  nearest_percentb (Z.of_nat e) (Z.of_nat ok) = true.
Proof.
  unfold nearest_upto. rewrite forallb_forall. intros Hall He Hok.
  specialize (Hall e). rewrite forallb_forall in Hall.
  apply Hall; apply in_seq; lia.
Qed.

Lemma error_percent_of_nearest (e ok : Z) :
  0 < e -> 0 <= ok -> e + ok <= 200 ->
  exists percent, error_percent_of e ok = Ok percent ∧ nearest_percent percent e ok.
Proof.
  intros He Hok Htotal.
  pose proof (nearest_upto_spec 200 (Z.to_nat e) (Z.to_nat ok) nearest_upto_200
                ltac:(lia) ltac:(lia)) as Hcheck.
  rewrite !Z2Nat.id in Hcheck by lia. unfold nearest_percentb in Hcheck.
  destruct (error_percent_of e ok) as [percent|]; [|done].
  exists percent. split; [done|]. unfold nearest_percent. by apply Z.leb_le.
Qed.

(** C3: every feed of the report carries
    [round(error_count / (error_count + ok_count) * 100)]: the true
    division of the two ints, its product with 100 and [round], as floats;
    its ok count is the one reported by the ok-count query and 0 when the
    query reports none; a feed with ok count 0 carries 100; and up to a
    total of 200 fetches the value is an integer nearest to the exact
    percentage.  99 errors and one ok fetch give 99, 10 errors and no ok
    fetch give 100; a tie goes to the even integer, 1 error of 8 fetches
    gives 12 and 3 of 8 give 38; and 23 of 40, whose quotient is the float
    just below 0.575, give 57. *)
Theorem error_percent_computed cursor now confirm days limit threshold out :
  (forall r, r ∈ execute_sql cursor (now - days * 86400) limit -> 3 < er_count r) ->
  delete_invalid_feeds name_of cursor now confirm days limit threshold = Ok out ->
  (forall feed, feed ∈ returned out ->
     (exists ratio,
        PyFloat.int_true_div (error_count feed) (error_count feed + ok_count feed)
        = Ok ratio
        ∧ PyFloat.round (PyFloat.mul_int ratio 100) = Ok (error_percent feed))
     ∧ ok_count feed
       = reported_ok_count
           (execute_sql_ok_count cursor (now - days * 86400)
              (foldl (fun acc r => add_error_row name_of r acc) []
                 (execute_sql cursor (now - days * 86400) limit)).*1)
           (ef_feed_id feed)
     ∧ (ok_count feed = 0 -> error_percent feed = 100)
     ∧ (0 <= ok_count feed -> error_count feed + ok_count feed <= 200 ->
        nearest_percent (error_percent feed) (error_count feed) (ok_count feed)))
  ∧ error_percent_of 99 1 = Ok 99
  ∧ error_percent_of 10 0 = Ok 100
  ∧ error_percent_of 1 7 = Ok 12
  ∧ error_percent_of 3 5 = Ok 38
  ∧ error_percent_of 23 17 = Ok 57.
Proof.
  intros Hrows Hrun.
  apply delete_invalid_feeds_Ok in Hrun as (d & Hcollect & Hret & _).
  destruct (collect_computed _ _ _ _ Hrows Hcollect) as [[Hnd Hkey] Hcomp].
  split; [|repeat split; vm_compute; reflexivity].
  intros feed Hfeed. rewrite Hret, sorted_desc_perm in Hfeed.
  apply list_elem_of_fmap in Hfeed as ([id feed'] & -> & Hin). simpl.
  destruct (Hcomp id feed' Hin) as (Hpos & Hformula & Hok).
  rewrite (Hkey id feed' Hin). split; [|split; [done|split]].
  - unfold error_percent_of in Hformula.
    destruct (PyFloat.int_true_div (error_count feed')
                (error_count feed' + ok_count feed')) as [ratio|]; [|done].
    by exists ratio.
  - intros Hzero. rewrite Hzero, (error_percent_of_zero_ok _ Hpos) in Hformula.
    by injection Hformula.
  - intros Hnonneg Htotal.
    destruct (error_percent_of_nearest _ _ Hpos Hnonneg Htotal) as (percent & Hp & Hnear).
    rewrite Hformula in Hp. by injection Hp as <-.
Qed.

Lemma add_error_row_keyed r d : keyed d -> keyed (add_error_row name_of r d).
Proof.
  intros [Hnd Hkey]. unfold add_error_row. split; [by apply NoDup_dict_set|].
  intros id feed [[= -> ->]|[Hin _]]%elem_of_dict_set; [done | by apply Hkey].
Qed.

Lemma add_ok_row_keyed row d d' : keyed d -> add_ok_row row d = Ok d' -> keyed d'.
Proof.
  intros [Hnd Hkey]. destruct row as [k c]. unfold add_ok_row.
  destruct (dict_get k d) as [feed|] eqn:Hget; [|done].
  destruct (error_percent_of (error_count feed) c) as [pct|]; simpl; [|done].
  intros [= <-]. apply dict_get_Some in Hget.
  split; [by apply NoDup_dict_set|].
  intros id f [[= -> ->]|[Hin _]]%elem_of_dict_set; [simpl | by apply Hkey].
  by apply Hkey.
Qed.

Lemma collect_keyed cursor t_begin limit d :
  collect name_of cursor t_begin limit = Ok d -> keyed d.
Proof.
  unfold collect.
  set (rows := execute_sql_ok_count _ _ _). clearbody rows.
  assert (Hfirst : keyed (foldl (fun acc r => add_error_row name_of r acc) []
                            (execute_sql cursor t_begin limit))).
  { apply (foldl_invariant keyed).
    - split; [constructor|]. intros id feed Hin. by apply elem_of_nil in Hin.
    - intros acc r _. apply add_error_row_keyed. }
  revert Hfirst. generalize (foldl (fun acc r => add_error_row name_of r acc) []
                               (execute_sql cursor t_begin limit)).
  induction rows as [|row rows IH]; intros d0 Hkeyed; cbn [for_each].
  - by intros [= <-].
  - destruct (add_ok_row row d0) as [d1|] eqn:Hrow; cbn [bind]; [|done].
    apply IH. by apply (add_ok_row_keyed row d0).
Qed.

Lemma filter_echo_feed (P : Event -> bool) (l : list ErrorFeed) :
  (forall feed, P (EchoFeed feed) = false) ->
  filter P (EchoFeed <$> l) = [].
Proof.
  intros HP. induction l as [|x l IH]; [done|].
  rewrite fmap_cons, filter_cons, IH, HP. done.
Qed.

(** C4: the delete proposal holds exactly the feeds of the report whose
    error percent reaches the threshold, and exactly these are shown; the
    operator is asked at most once; [UnionFeed.bulk_delete] runs at most
    once, only on the whole proposal, and only if the proposal is not
    empty and the operator confirmed: after a rejection, or with nothing
    proposed, nothing is deleted. *)
Theorem deletion_gate cursor now confirm days limit threshold out :
  delete_invalid_feeds name_of cursor now confirm days limit threshold = Ok out ->
  delete_feed_ids out
  = ef_feed_id <$> filter (fun feed => threshold <= error_percent feed) (returned out)
  ∧ (forall feed, feed ∈ returned out ->
       ef_feed_id feed ∈ delete_feed_ids out <-> threshold <= error_percent feed)
  ∧ (forall feed, EchoFeed feed ∈ events out <->
       feed ∈ returned out ∧ threshold <= error_percent feed)
  ∧ (forall ids, BulkDelete ids ∈ events out <->
       ids = delete_feed_ids out ∧ ids ≠ [] ∧ confirm (length ids) = true)
  ∧ (length (filter is_confirm (events out)) <= 1)%nat
  ∧ (length (filter is_bulk_delete (events out)) <= 1)%nat.
Proof.
  intros Hrun.
  apply delete_invalid_feeds_Ok in Hrun as (d & Hcollect & Hret & Hids & Hev & _).
  assert (Hnd : NoDup (ef_feed_id <$> returned out)).
  { rewrite Hret, sorted_desc_perm.
    destruct (collect_keyed _ _ _ _ Hcollect) as [Hnd Hkey].
    replace (ef_feed_id <$> d.*2) with d.*1; [done|].
    rewrite <- list_fmap_compose. apply list_fmap_ext.
    intros i [id feed] Hi. simpl. symmetry. apply Hkey.
    by apply list_elem_of_lookup_2 in Hi. }
  assert (Hnoecho : forall ev, ev ∈ match delete_feed_ids out with
            | [] => []
            | _ :: _ =>
                if confirm (length (delete_feed_ids out))
                then [Confirm (length (delete_feed_ids out)) true;
                      BulkDelete (delete_feed_ids out); Echo "Done!"]
                else [Confirm (length (delete_feed_ids out)) false; Echo "Abort!"]
            end -> forall feed, ev ≠ EchoFeed feed).
  { intros ev Hin feed ->. destruct (delete_feed_ids out); [by apply elem_of_nil in Hin|].
    destruct (confirm _);
      repeat (apply elem_of_cons in Hin as [?|Hin]; [done|]);
      by apply elem_of_nil in Hin. }
  split; [done|]. split; [|split; [|split; [|split]]].
  - intros feed Hfeed. rewrite Hids. split.
    + intros (feed' & Hid & Hin)%list_elem_of_fmap.
      apply list_elem_of_filter in Hin as [Hpct Hin].
      by rewrite (NoDup_fmap_elem_inj ef_feed_id _ feed feed' Hnd Hfeed Hin Hid).
    + intros Hpct. apply list_elem_of_fmap_2. by apply list_elem_of_filter.
  - intros feed. rewrite Hev, elem_of_app. split.
    + intros [(feed' & [= <-] & Hin)%list_elem_of_fmap|Hin].
      * apply list_elem_of_filter in Hin as [Hpct Hin]. done.
      * by destruct (Hnoecho _ Hin feed).
    + intros [Hin Hpct]. left. apply list_elem_of_fmap_2.
      by apply list_elem_of_filter.
  - intros ids. rewrite Hev, elem_of_app. split.
    + intros [(feed' & [=] & _)%list_elem_of_fmap|Hin].
      destruct (delete_feed_ids out) as [|x l] eqn:Hl; [by apply elem_of_nil in Hin|].
      destruct (confirm (length (x :: l))) eqn:Hc;
        repeat (apply elem_of_cons in Hin as [Heq|Hin]; [try done|]);
        try by apply elem_of_nil in Hin.
      injection Heq as ->. done.
    + intros (-> & Hne & Hc). right.
      destruct (delete_feed_ids out) as [|x l] eqn:Hl; [done|].
      rewrite Hc. right. left.
  - rewrite Hev, filter_app, filter_echo_feed by done. simpl.
    destruct (delete_feed_ids out); [simpl; lia|].
    destruct (confirm _); simpl; lia.
  - rewrite Hev, filter_app, filter_echo_feed by done. simpl.
    destruct (delete_feed_ids out); [simpl; lia|].
    destruct (confirm _); simpl; lia.
Qed.

End ClassifierFacts.

Section ClassifierExamples.
Import FeedHealthClassifier.

Lemma sample_run_accepted :
delete_invalid_feeds pretty sample_cursor 0 (fun _ => true) 1 100 99
= Ok sample_outcome.
Proof. vm_compute. reflexivity. Qed.

Lemma sample_rows_counted :
forall r, r ∈ execute_sql sample_cursor (0 - 1 * 86400) 100 -> 3 < er_count r.
Proof.
intros r Hr. simpl in Hr.
repeat (apply elem_of_cons in Hr as [->|Hr]; [simpl; lia|]).
by apply elem_of_nil in Hr.
Qed.

Lemma error_percent_computed_witness :
  Forall (fun feed =>
            (exists ratio,
               PyFloat.int_true_div (error_count feed) (error_count feed + ok_count feed)
               = Ok ratio
               ∧ PyFloat.round (PyFloat.mul_int ratio 100) = Ok (error_percent feed))
            ∧ nearest_percent (error_percent feed) (error_count feed) (ok_count feed))
    (returned sample_outcome).
Proof.
  apply Forall_forall. intros feed Hfeed.
  destruct (proj1 (error_percent_computed pretty sample_cursor 0 (fun _ => true)
                     1 100 99 sample_outcome
                     sample_rows_counted sample_run_accepted) feed Hfeed)
    as (Hformula & _ & _ & Hnear).
  split; [exact Hformula|]. simpl in Hfeed.
  repeat (apply elem_of_cons in Hfeed as [->|Hfeed]; [apply Hnear; simpl; lia|]).
  by apply elem_of_nil in Hfeed.
Defined.

(** Binary floats decide the ties: 23 errors and 17 ok fetches are 57.5
    percent in exact arithmetic, but [23 / 40] is the float just below
    0.575, its product with 100 is below 57.5, and [round] gives 57. *)
Example error_percent_below_tie : error_percent_of 23 17 = Ok 57.
Proof. vm_compute. reflexivity. Qed.

(** An exact tie goes to the even neighbour: 1 error in 8 fetches is 12.5
    percent and rounds to 12, 3 in 8 is 37.5 and rounds to 38. *)
Example error_percent_tie_to_even :
  error_percent_of 1 7 = Ok 12 ∧ error_percent_of 3 5 = Ok 38.
Proof. split; vm_compute; reflexivity. Qed.

Lemma sample_run_rejected :
delete_invalid_feeds pretty sample_cursor 0 (fun _ => false) 1 100 99
= Ok {| returned := returned sample_outcome;
        delete_feed_ids := [6; 5];
        events := take 2 (events sample_outcome)
                  ++ [Confirm 2 false; Echo "Abort!"] |}.
Proof. vm_compute. reflexivity. Qed.

(** With threshold 99 the feed at 98 percent (feed 7) is not proposed and the
  feed at 99 percent (feed 5) is. *)
Lemma deletion_gate_witness :
(forall feed, feed ∈ returned sample_outcome ->
   ef_feed_id feed ∈ [6; 5] <-> 99 <= error_percent feed)
∧ (forall ids, BulkDelete ids ∈ events sample_outcome <-> ids = [6; 5] ∧ ids ≠ [] ∧ true = true).
Proof.
pose proof (deletion_gate pretty sample_cursor 0 (fun _ => true) 1 100 99
              sample_outcome sample_run_accepted) as (_ & Hiff & _ & Hdel & _).
split; [exact Hiff | exact Hdel].
Defined.

End ClassifierExamples.

(** ** RefreshTaskScheduler *)

Section SchedulerFacts.
Import RefreshTaskScheduler.
Variable py_strip : string -> string.
Variable py_int : string -> option Z.
Variable unionid_decode : string -> option (list Z).

Lemma Feed_get_Ok pk tbl f : Feed_get pk tbl = Ok f -> f ∈ tbl ∧ feed_id f = pk.
Proof.
  induction tbl as [|g tbl IH]; simpl; [done|].
  case_decide as Hid.
  - intros [= ->]. split; [left | done].
  - intros Hget. destruct (IH Hget). split; [by right | done].
Qed.

(** The loop builds one task per id, in the order of the ids. *)
Lemma add_task_loop expire tbl ids acc task_s :
  for_each ids (add_task expire tbl) acc = Ok task_s ->
  exists built,
    task_s = acc ++ built
    ∧ task_feed_id <$> built = ids
    ∧ Forall (fun task => exists feed, feed ∈ tbl ∧ task = task_for expire feed) built.
Proof.
  revert acc. induction ids as [|id ids IH]; intros acc; cbn [for_each].
  - intros [= <-]. exists []. by rewrite app_nil_r.
  - unfold add_task at 1.
    destruct (Feed_get id tbl) as [feed|] eqn:Hget; cbn [bind]; [|done].
    intros Hrest. destruct (IH _ Hrest) as (built & -> & Hids & Hall).
    apply Feed_get_Ok in Hget as [Hin Hid].
    exists (task_for expire feed :: built). split; [by rewrite <- app_assoc|].
    split.
    + rewrite fmap_cons, Hids. unfold task_feed_id at 1. simpl. by rewrite Hid.
    + apply Forall_cons. split; [by exists feed | done].
Qed.

Lemma sorted_set_spec (l : list Z) :
  StronglySorted Z.lt (merge_sort Z.le (remove_dups l))
  ∧ forall x, x ∈ merge_sort Z.le (remove_dups l) <-> x ∈ l.
Proof.
  split.
  - assert (Hsorted : StronglySorted Z.le (merge_sort Z.le (remove_dups l)))
      by apply (StronglySorted_merge_sort Z.le).
    assert (Hnd : NoDup (merge_sort Z.le (remove_dups l)))
      by (rewrite merge_sort_Permutation; apply NoDup_remove_dups).
    induction Hsorted as [|x xs Hxs IH Hall]; [constructor|].
    apply NoDup_cons in Hnd as [Hnotin Hnd].
    constructor; [by apply IH|].
    apply Forall_forall. intros y Hy.
    assert (x <= y) by (by apply (proj1 (Forall_forall _ _) Hall)).
    assert (x ≠ y) by (by intros ->). lia.
  - intros x. by rewrite merge_sort_Permutation, elem_of_remove_dups.
Qed.

Lemma StronglySorted_lt_NoDup (l : list Z) : StronglySorted Z.lt l -> NoDup l.
Proof.
  induction 1 as [|x xs Hxs IH Hall]; [constructor|].
  apply NoDup_cons. split; [|done].
  intros Hin. apply (proj1 (Forall_forall _ _) Hall) in Hin. lia.
Qed.

Lemma filter_absent_key {A K : Type} `{EqDecision K} (g : A -> K) (l : list A) (k : K) :
  k ∉ g <$> l -> filter (fun y => g y = k) l = [].
Proof.
  induction l as [|y l IH]; intros Hnotin; [done|].
  rewrite fmap_cons in Hnotin. apply not_elem_of_cons in Hnotin as [Hne Hnotin].
  rewrite filter_cons, decide_False by done. by apply IH.
Qed.

Lemma filter_unique_key {A K : Type} `{EqDecision K} (g : A -> K) (l : list A) (k : K) :
  NoDup (g <$> l) -> k ∈ g <$> l -> length (filter (fun y => g y = k) l) = 1%nat.
Proof.
  induction l as [|y l IH]; intros Hnd Hin; [by apply elem_of_nil in Hin|].
  rewrite fmap_cons in Hnd, Hin. apply NoDup_cons in Hnd as [Hnotin Hnd].
  rewrite filter_cons. destruct (decide (g y = k)) as [Heq|Hne].
  - simpl. rewrite filter_absent_key; [done | by rewrite <- Heq].
  - apply IH; [done|]. apply elem_of_cons in Hin as [->|Hin]; done.
Qed.

Lemma key_inj (a b : Z) :
  sync_feed_api +:+ ":" +:+ pretty a = sync_feed_api +:+ ":" +:+ pretty b -> a = b.
Proof.
  intros Heq. apply (inj (String.app sync_feed_api)) in Heq.
  apply (inj (String.app ":")) in Heq. by apply (inj pretty) in Heq.
Qed.

Lemma add_task_loop_returns expire tbl ids acc :
  (forall id, id ∈ ids -> id ∈ feed_id <$> tbl) ->
  exists task_s, for_each ids (add_task expire tbl) acc = Ok task_s.
Proof.
  revert acc. induction ids as [|id ids IH]; intros acc Hids; cbn [for_each].
  - by eexists.
  - unfold add_task at 1.
    assert (Hget : exists feed, Feed_get id tbl = Ok feed).
    { specialize (Hids id ltac:(left)). clear IH.
      induction tbl as [|g tbl IHt]; simpl; [by apply elem_of_nil in Hids|].
      case_decide as Hg; [by eexists|].
      apply IHt. rewrite fmap_cons in Hids.
      apply elem_of_cons in Hids as [->|Hids]; done. }
    destruct Hget as [feed ->]. cbn [bind]. apply IH.
    intros id' Hid'. apply Hids. by right.
Qed.

(** The command completes when the options decode and the ids given are ids
    of feeds. *)
Lemma refresh_feed_returns feeds union_feeds keyword expire tbl ids1 ids2 :
  ids_of_feeds py_strip py_int feeds tbl = Ok ids1 ->
  ids_of_union_feeds py_strip unionid_decode union_feeds = Ok ids2 ->
  (forall id, id ∈ ids1 ++ ids2 -> id ∈ feed_id <$> tbl) ->
  exists task_s,
    refresh_feed py_strip py_int unionid_decode feeds union_feeds keyword expire tbl
    = Ok task_s.
Proof.
  intros H1 H2 Hids. unfold refresh_feed. rewrite H1, H2. cbn [bind].
  apply add_task_loop_returns. intros id Hid.
  apply (proj1 (proj2 (sorted_set_spec _) id)) in Hid. rewrite app_assoc in Hid.
  apply elem_of_app in Hid as [Hid|Hid]; [by apply Hids|].
  unfold ids_of_key in Hid. destruct keyword as [text|]; [|by apply elem_of_nil in Hid].
  case_decide; [by apply elem_of_nil in Hid|].
  apply list_elem_of_fmap in Hid as (feed & -> & Hfeed).
  apply list_elem_of_filter in Hfeed as [_ Hfeed]. by apply list_elem_of_fmap_2.
Qed.

(** C7: the batch handed to [WorkerTask.bulk_save] holds one task per feed
    id, the ids in ascending order and without repetition; an id is in the
    batch exactly when one of the three sources gave it; every task has the
    api name [worker_rss.sync_feed] and as key the api name, a colon and its
    feed id; so a feed id given by several sources, or several times, has
    exactly one task with its key in the batch. *)
Theorem refresh_feed_batch (feeds union_feeds keyword : option string)
    (expire : Z) (tbl : list Feed) (task_s : list WorkerTask) :
  refresh_feed py_strip py_int unionid_decode feeds union_feeds keyword expire tbl
  = Ok task_s ->
  exists ids1 ids2,
    ids_of_feeds py_strip py_int feeds tbl = Ok ids1
    ∧ ids_of_union_feeds py_strip unionid_decode union_feeds = Ok ids2
    ∧ StronglySorted Z.lt (task_feed_id <$> task_s)
    ∧ (forall id, id ∈ task_feed_id <$> task_s <->
         id ∈ ids1 ∨ id ∈ ids2 ∨ id ∈ ids_of_key keyword tbl)
    ∧ Forall (fun task =>
                api task = "worker_rss.sync_feed"
                ∧ key task = api task +:+ ":" +:+ pretty (task_feed_id task)) task_s
    ∧ (forall id, id ∈ ids1 ∨ id ∈ ids2 ∨ id ∈ ids_of_key keyword tbl ->
         length (filter (fun task => key task = "worker_rss.sync_feed:" +:+ pretty id)
                   task_s) = 1%nat).
Proof.
  unfold refresh_feed.
  destruct (ids_of_feeds py_strip py_int feeds tbl) as [ids1|]; cbn [bind]; [|done].
  destruct (ids_of_union_feeds py_strip unionid_decode union_feeds) as [ids2|];
    cbn [bind]; [|done].
  intros Hloop. exists ids1, ids2. split; [done|]. split; [done|].
  apply add_task_loop in Hloop as (built & -> & Hids & Hall). simpl.
  destruct (sorted_set_spec (ids1 ++ ids2 ++ ids_of_key keyword tbl)) as [Hsorted Hmem].
  assert (Hin : forall id, id ∈ task_feed_id <$> built <->
            id ∈ ids1 ∨ id ∈ ids2 ∨ id ∈ ids_of_key keyword tbl).
  { intros id. rewrite Hids, Hmem, !elem_of_app. tauto. }
  assert (Hkeys : Forall (fun task =>
            api task = "worker_rss.sync_feed"
            ∧ key task = api task +:+ ":" +:+ pretty (task_feed_id task)) built).
  { eapply Forall_impl; [exact Hall|]. by intros task (feed & _ & ->). }
  split; [by rewrite Hids|]. split; [done|]. split; [done|].
  intros id Hid. apply (filter_unique_key key).
  - apply (NoDup_fmap_transfer task_feed_id).
    + rewrite Hids. by apply StronglySorted_lt_NoDup.
    + intros x y Hx Hy Hxy.
      destruct (proj1 (Forall_forall _ _) Hkeys x Hx) as [Hax Hkx].
      destruct (proj1 (Forall_forall _ _) Hkeys y Hy) as [Hay Hky].
      rewrite Hkx, Hky, Hax, Hay in Hxy. by apply key_inj.
  - apply Hin in Hid. apply list_elem_of_fmap in Hid as (task & -> & Htask).
    apply list_elem_of_fmap. exists task. split; [|done].
    destruct (proj1 (Forall_forall _ _) Hkeys task Htask) as [Ha Hk].
    by rewrite Hk, Ha.
Qed.

End SchedulerFacts.

Section SchedulerExamples.
Import RefreshTaskScheduler.

Lemma sample_refresh :
  refresh_feed (fun s => s) sample_int sample_unionid_decode
    (Some "196,7,196") (Some "014064,0140be") (Some "blog") 1 sample_feeds
  = Ok [ task_for 1 (mkFeed 7 "https://other.example/feed" None 10 [] None None false None 0 0);
         task_for 1 (mkFeed 196 "https://blog.example/atom.xml" (Some "Blog") 10 [] None None false None 0 0);
         task_for 1 (mkFeed 366 "https://news.example/rss" (Some "News") 10 [] None None true None 0 0) ].
Proof. vm_compute. reflexivity. Qed.

(** Feed 196 is given twice by id, once by union id and once by keyword,
    and the batch has one task with the key [worker_rss.sync_feed:196]. *)
Lemma refresh_feed_batch_witness :
  length (filter (fun task => key task = "worker_rss.sync_feed:196")
            [ task_for 1 (mkFeed 7 "https://other.example/feed" None 10 [] None None false None 0 0);
              task_for 1 (mkFeed 196 "https://blog.example/atom.xml" (Some "Blog") 10 [] None None false None 0 0);
              task_for 1 (mkFeed 366 "https://news.example/rss" (Some "News") 10 [] None None true None 0 0) ])
  = 1%nat.
Proof.
  destruct (refresh_feed_batch (fun s => s) sample_int sample_unionid_decode
              (Some "196,7,196") (Some "014064,0140be") (Some "blog") 1 sample_feeds
              _ sample_refresh) as (ids1 & ids2 & H1 & H2 & _ & _ & _ & Hone).
  injection H1 as <-.
  apply (Hone 196). left. left.
Defined.

End SchedulerExamples.

(** ** Proxy-need classification *)

Section ProxyFacts.
Import ProxyClassifier.
Variable Reader : Type.
Variable read : Reader -> string -> bool -> Z * Reader.
Variable is_need_proxy : Z -> bool.
Variable t_2020_04_01 t_2019_12_01 : Z.

Abbreviation probe := (probe Reader read is_need_proxy).
Abbreviation answers := (answers Reader read is_need_proxy).
Abbreviation promoted := (promoted is_need_proxy).
Abbreviation candidate := (candidate t_2020_04_01 t_2019_12_01).
Abbreviation update_feed_use_proxy :=
  (update_feed_use_proxy Reader read is_need_proxy t_2020_04_01 t_2019_12_01).

Lemma probe_loop (feeds : list Feed) pf0 pr0 r pf pr r' :
  foldl probe (pf0, pr0, r) feeds = (pf, pr, r') ->
  exists new,
    pr = pr0 ++ new
    ∧ probed <$> new = feeds
    ∧ answers r new r'
    ∧ pf = pf0 ++ (probed <$> filter (fun p => promoted p) new).
Proof.
  revert pf0 pr0 r. induction feeds as [|feed feeds IH]; intros pf0 pr0 r; simpl.
  - intros [= <- <- <-]. exists []. rewrite !app_nil_r. repeat split. constructor.
  - destruct (read r (feed_url feed) false) as [st r1] eqn:Hplain.
    destruct (is_need_proxy st) eqn:Hneed.
    + destruct (read r1 (feed_url feed) true) as [pst r2] eqn:Hproxied.
      destruct (decide (pst = 200)) as [Heq|Hne]; intros Hrest;
        destruct (IH _ _ _ Hrest) as (new & -> & Hfeeds & Hans & ->);
        exists (mkProbe feed st (Some pst) :: new);
        (split; [by rewrite <- app_assoc|]);
        (split; [by rewrite fmap_cons, Hfeeds|]);
        (split; [by eapply answers_proxied|]);
        rewrite filter_cons; unfold promoted at 1, ProxyClassifier.promoted; simpl;
        rewrite Hneed; simpl.
      * rewrite bool_decide_eq_true_2 by (by rewrite Heq). simpl.
        by rewrite <- app_assoc.
      * rewrite bool_decide_eq_false_2 by (intros [= ?]; done). done.
    + intros Hrest. destruct (IH _ _ _ Hrest) as (new & -> & Hfeeds & Hans & ->).
      exists (mkProbe feed st None :: new).
      split; [by rewrite <- app_assoc|]. split; [by rewrite fmap_cons, Hfeeds|].
      split; [by eapply answers_plain|].
      rewrite filter_cons. unfold promoted at 1, ProxyClassifier.promoted. simpl.
      by rewrite Hneed.
Qed.

Lemma refresh_from_db_Ok obj tbl row :
  refresh_from_db obj tbl = Ok row -> row ∈ tbl ∧ feed_id row = feed_id obj.
Proof.
  induction tbl as [|g tbl IH]; simpl; [done|].
  case_decide as Hid.
  - intros [= ->]. split; [left | done].
  - intros Hget. destruct (IH Hget). split; [by right | done].
Qed.

Lemma flag_in_id ids row : feed_id (flag_in ids row) = feed_id row.
Proof. unfold flag_in. by case_decide. Qed.

Lemma flag_in_ids ids (tbl : list Feed) : feed_id <$> (flag_in ids <$> tbl) = feed_id <$> tbl.
Proof.
  rewrite <- list_fmap_compose. apply list_fmap_ext. intros i f _. apply flag_in_id.
Qed.

Lemma save_flagged obj row (tbl : list Feed) :
  NoDup (feed_id <$> tbl) -> row ∈ tbl -> feed_id row = feed_id obj ->
  save (set_use_proxy true row) tbl = flag_in [feed_id obj] <$> tbl.
Proof.
  intros Hnd Hrow Hid. unfold save. apply list_fmap_ext. intros i f Hi.
  apply list_elem_of_lookup_2 in Hi. unfold flag_in. simpl.
  destruct (decide (feed_id f = feed_id row)) as [Heq|Hne].
  - rewrite decide_True by (apply list_elem_of_singleton; congruence).
    by rewrite (NoDup_fmap_elem_inj feed_id _ f row Hnd Hi Hrow Heq).
  - rewrite decide_False; [done|].
    intros Hin%list_elem_of_singleton. congruence.
Qed.

Lemma flag_in_cons id ids (tbl : list Feed) :
  flag_in ids <$> (flag_in [id] <$> tbl) = flag_in (id :: ids) <$> tbl.
Proof.
  rewrite <- list_fmap_compose. apply list_fmap_ext. intros i f _. simpl.
  unfold flag_in at 2.
  destruct (decide (feed_id f ∈ [id])) as [Hin|Hnin].
  - apply list_elem_of_singleton in Hin. unfold flag_in. simpl.
    rewrite (decide_True (P := feed_id f ∈ id :: ids)) by (rewrite Hin; left).
    by case_decide.
  - unfold flag_in.
    destruct (decide (feed_id f ∈ ids)) as [Hin|Hnin'].
    + rewrite decide_True; [done | by right].
    + rewrite decide_False; [done|].
      intros [Heq|?]%elem_of_cons; [|done]. apply Hnin. rewrite Heq. left.
Qed.

(** The final transaction goes by the primary keys of the objects alone:
    what the objects hold is replaced by what storage holds. *)
Lemma mark_loop (objs tbl : list Feed) sv s :
  NoDup (feed_id <$> tbl) ->
  for_each objs mark (tbl, sv) = Ok s ->
  s.1 = flag_in (feed_id <$> objs) <$> tbl
  ∧ exists new,
      s.2 = sv ++ new
      ∧ feed_id <$> new = feed_id <$> objs
      ∧ Forall (fun feed => use_proxy feed = true) new.
Proof.
  revert tbl sv. induction objs as [|obj objs IH]; intros tbl sv Hnd; cbn [for_each].
  - intros [= <-]. simpl. split.
    + rewrite <- (list_fmap_id tbl) at 1. apply list_fmap_ext. intros i f _.
      unfold flag_in. rewrite decide_False; [done | apply not_elem_of_nil].
    + exists []. by rewrite app_nil_r.
  - unfold mark at 1. cbn [fst snd].
    destruct (refresh_from_db obj tbl) as [row|] eqn:Hrow; cbn [bind]; [|done].
    apply refresh_from_db_Ok in Hrow as [Hin Hid].
    rewrite (save_flagged obj row tbl Hnd Hin Hid). intros Hrest.
    apply IH in Hrest as (Htbl & new & Hsv & Hids & Hall);
      [|by rewrite flag_in_ids].
    split.
    + by rewrite Htbl, flag_in_cons, fmap_cons.
    + exists (set_use_proxy true row :: new). split; [by rewrite Hsv, <- app_assoc|].
      split; [by rewrite !fmap_cons, Hids, <- Hid|].
      by apply Forall_cons.
Qed.

Lemma update_feed_use_proxy_Ok reader tbl out :
  update_feed_use_proxy true reader tbl = Ok out ->
  exists reader' s,
    foldl probe ([], [], reader) (filter (fun feed => candidate feed) tbl)
    = (proxy_feeds out, probes out, reader')
    ∧ for_each (proxy_feeds out) mark (tbl, []) = Ok s
    ∧ feeds_after out = s.1 ∧ saved out = s.2.
Proof.
  unfold update_feed_use_proxy, ProxyClassifier.update_feed_use_proxy. simpl.
  destruct (foldl probe ([], [], reader) (filter (fun feed => candidate feed) tbl))
    as [[pf pr] reader'] eqn:Hloop.
  destruct (for_each pf mark (tbl, [])) as [s|] eqn:Hmark; cbn [bind]; [|done].
  intros [= <-]. simpl. by exists reader', s.
Qed.

Lemma refresh_from_db_elem obj (tbl : list Feed) :
  feed_id obj ∈ feed_id <$> tbl -> exists row, refresh_from_db obj tbl = Ok row.
Proof.
  induction tbl as [|g tbl IH]; simpl.
  - intros Hin. by apply elem_of_nil in Hin.
  - intros Hin. case_decide as Hid; [by exists g|].
    apply elem_of_cons in Hin as [Heq|Hin]; [congruence | by apply IH].
Qed.

Lemma save_ids_kept feed (tbl : list Feed) : feed_id <$> save feed tbl = feed_id <$> tbl.
Proof.
  unfold save. rewrite <- list_fmap_compose. apply list_fmap_ext.
  intros i f _. simpl. by case_decide.
Qed.

Lemma mark_loop_returns (objs tbl : list Feed) sv :
  (forall obj, obj ∈ objs -> feed_id obj ∈ feed_id <$> tbl) ->
  exists s, for_each objs mark (tbl, sv) = Ok s.
Proof.
  revert tbl sv. induction objs as [|obj objs IH]; intros tbl sv Hobjs; cbn [for_each].
  - by eexists.
  - unfold mark at 1. cbn [fst snd].
    destruct (refresh_from_db_elem obj tbl) as [row Hrow]; [apply Hobjs; left|].
    rewrite Hrow. cbn [bind]. apply IH. intros obj' Hobj'.
    rewrite save_ids_kept. apply Hobjs. by right.
Qed.

(** The command always completes: the feeds it saves are rows it has read. *)
Lemma update_feed_use_proxy_returns rss_proxy_enable reader (tbl : list Feed) :
  exists out, update_feed_use_proxy rss_proxy_enable reader tbl = Ok out.
Proof.
  unfold update_feed_use_proxy, ProxyClassifier.update_feed_use_proxy.
  destruct rss_proxy_enable; simpl; [|by eexists].
  destruct (foldl probe ([], [], reader) (filter (fun feed => candidate feed) tbl))
    as [[pf pr] reader'] eqn:Hloop.
  apply probe_loop in Hloop as (new & _ & Hfeeds & _ & Hpf). simpl in Hpf.
  destruct (mark_loop_returns pf tbl []) as [s Hs]; [|rewrite Hs; by eexists].
  intros obj Hobj. apply list_elem_of_fmap_2.
  assert (Hin : obj ∈ filter (fun feed => candidate feed) tbl).
  { rewrite <- Hfeeds. rewrite Hpf in Hobj.
    apply list_elem_of_fmap in Hobj as (p & -> & Hp).
    apply list_elem_of_filter in Hp as [_ Hp]. by apply list_elem_of_fmap_2. }
  by apply list_elem_of_filter in Hin as [_ ?].
Qed.

(** C8: with the proxy enabled, every candidate is probed once, in order;
    the probes are the reader's answers, the proxied probe following the
    plain one exactly when the plain status needs a proxy; the proxy-enabled
    set holds exactly the feeds whose plain status needs a proxy and whose
    proxied status is 200; and the feeds saved with the flag are these and
    no others. *)
Theorem proxy_promotion (reader : Reader) (tbl : list Feed) (out : Outcome) :
  NoDup (feed_id <$> tbl) ->
  update_feed_use_proxy true reader tbl = Ok out ->
  probed <$> probes out = filter (fun feed => candidate feed) tbl
  ∧ (exists reader', answers reader (probes out) reader')
  ∧ proxy_feeds out = probed <$> filter (fun p => promoted p) (probes out)
  ∧ (forall feed, feed ∈ proxy_feeds out <->
       exists p, p ∈ probes out ∧ probed p = feed
         ∧ is_need_proxy (status p) = true ∧ proxy_status p = Some 200)
  ∧ feed_id <$> saved out = feed_id <$> proxy_feeds out
  ∧ (forall row, row ∈ tbl -> feed_id row ∉ feed_id <$> proxy_feeds out ->
       row ∈ feeds_after out).
Proof.
  intros Hnd Hrun.
  apply update_feed_use_proxy_Ok in Hrun as (reader' & s & Hloop & Hmark & Hafter & Hsaved).
  apply probe_loop in Hloop as (new & Hpr & Hfeeds & Hans & Hpf). simpl in Hpr, Hpf.
  subst new. apply mark_loop in Hmark as (Htbl & new & Hsv & Hids & Hall); [|done].
  split; [done|]. split; [by exists reader'|]. split; [done|]. split; [|split].
  - intros feed. rewrite Hpf, list_elem_of_fmap. split.
    + intros (p & -> & Hp). apply list_elem_of_filter in Hp as [Hprom Hp].
      exists p. split; [done|]. split; [done|].
      unfold promoted, ProxyClassifier.promoted in Hprom.
      apply andb_prop_elim in Hprom as [Hneed Hstatus].
      split; [by apply Is_true_eq_true | by apply bool_decide_unpack in Hstatus].
    + intros (p & Hp & <- & Hneed & Hstatus). exists p. split; [done|].
      apply list_elem_of_filter. split; [|done].
      unfold promoted, ProxyClassifier.promoted. by rewrite Hneed, Hstatus.
  - by rewrite Hsaved, Hsv, app_nil_l, Hids.
  - intros row Hrow Hnotin. rewrite Hafter, Htbl.
    apply list_elem_of_fmap. exists row. split; [|done].
    unfold flag_in. by rewrite decide_False.
Qed.

(** C9: the command only ever sets the flag.  Storage after the command is
    storage before it with [use_proxy] set on the rows of the proxy-enabled
    set: a row outside the set is unchanged, a row in the set differs in
    [use_proxy] alone, a flag that was set stays set, and every object saved
    carries [use_proxy = True].  The rows written come from storage as read
    by [refresh_from_db], whatever the objects probed hold; with the proxy
    disabled nothing is written. *)
Theorem use_proxy_only_set (rss_proxy_enable : bool) (reader : Reader)
    (tbl : list Feed) (out : Outcome) :
  NoDup (feed_id <$> tbl) ->
  update_feed_use_proxy rss_proxy_enable reader tbl = Ok out ->
  feeds_after out = flag_in (feed_id <$> proxy_feeds out) <$> tbl
  ∧ Forall (fun feed => use_proxy feed = true) (saved out)
  ∧ (forall (i : nat) row row',
       tbl !! i = Some row -> feeds_after out !! i = Some row' ->
       (feed_id row ∉ feed_id <$> proxy_feeds out -> row' = row)
       ∧ (feed_id row ∈ feed_id <$> proxy_feeds out -> row' = set_use_proxy true row)
       ∧ (use_proxy row = true -> use_proxy row' = true))
  ∧ (forall objs tbl0 s,
       NoDup (feed_id <$> tbl0) -> for_each objs mark (tbl0, []) = Ok s ->
       s.1 = flag_in (feed_id <$> objs) <$> tbl0)
  ∧ (rss_proxy_enable = false -> feeds_after out = tbl ∧ saved out = []).
Proof.
  intros Hnd Hrun.
  assert (Hafter : feeds_after out = flag_in (feed_id <$> proxy_feeds out) <$> tbl
                   ∧ Forall (fun feed => use_proxy feed = true) (saved out)).
  { destruct rss_proxy_enable.
    - apply update_feed_use_proxy_Ok in Hrun as (reader' & s & _ & Hmark & -> & ->).
      apply mark_loop in Hmark as (Htbl & new & Hsv & _ & Hall); [|done].
      split; [done|]. by rewrite Hsv.
    - injection Hrun as <-. simpl. split; [|constructor].
      rewrite <- (list_fmap_id tbl) at 1. apply list_fmap_ext. intros i f _.
      unfold flag_in. rewrite decide_False; [done | apply not_elem_of_nil]. }
  destruct Hafter as [Hafter Hsaved].
  split; [done|]. split; [done|]. split; [|split].
  - intros i row row' Hrow Hrow'.
    rewrite Hafter, list_lookup_fmap, Hrow in Hrow'. injection Hrow' as <-.
    unfold flag_in. split; [|split].
    + intros Hnotin. by rewrite decide_False.
    + intros Hin. by rewrite decide_True.
    + intros Hset. case_decide; [done | exact Hset].
  - intros objs tbl0 s Hnd0 Hmark. by apply mark_loop in Hmark as [Htbl _].
  - intros ->. by injection Hrun as <-.
Qed.

End ProxyFacts.

Section ProxyExamples.
Import ProxyClassifier.

Lemma sample_proxy_run :
  update_feed_use_proxy nat sample_read sample_is_need_proxy 50 10 true 0%nat sample_feeds
  = Ok {| proxy_feeds := [ mkFeed 1 "https://blocked.example/feed" (Some "Blocked") 3 []
                             None None false None 100 100 ];
          probes := [ mkProbe (mkFeed 1 "https://blocked.example/feed" (Some "Blocked") 3 []
                                 None None false None 100 100) (-200) (Some 200);
                      mkProbe (mkFeed 2 "https://gone.example/feed" (Some "Gone") 3 []
                                 None None true None 100 100) (-200) (Some 404);
                      mkProbe (mkFeed 3 "https://fine.example/feed" (Some "Fine") 3 []
                                 None None true None 100 100) 200 None ];
          feeds_after := [ mkFeed 1 "https://blocked.example/feed" (Some "Blocked") 3 []
                             None None true None 100 100;
                           mkFeed 2 "https://gone.example/feed" (Some "Gone") 3 []
                             None None true None 100 100;
                           mkFeed 3 "https://fine.example/feed" (Some "Fine") 3 []
                             None None true None 100 100;
                           mkFeed 4 "https://old.example/feed" (Some "Old") 30 []
                             None None true None 0 0 ];
          saved := [ mkFeed 1 "https://blocked.example/feed" (Some "Blocked") 3 []
                       None None true None 100 100 ] |}.
Proof. vm_compute. reflexivity. Qed.

Lemma sample_feeds_keyed : NoDup (feed_id <$> sample_feeds).
Proof. apply (bool_decide_unpack _). vm_compute. exact I. Qed.

Lemma proxy_promotion_witness :
  [ mkFeed 1 "https://blocked.example/feed" (Some "Blocked") 3 [] None None false None 100 100 ]
  = probed <$> filter (fun p => promoted sample_is_need_proxy p)
      [ mkProbe (mkFeed 1 "https://blocked.example/feed" (Some "Blocked") 3 []
                   None None false None 100 100) (-200) (Some 200);
        mkProbe (mkFeed 2 "https://gone.example/feed" (Some "Gone") 3 []
                   None None true None 100 100) (-200) (Some 404);
        mkProbe (mkFeed 3 "https://fine.example/feed" (Some "Fine") 3 []
                   None None true None 100 100) 200 None ].
Proof.
  exact (proj1 (proj2 (proj2 (proxy_promotion nat sample_read sample_is_need_proxy
                                50 10 0%nat sample_feeds _
                                sample_feeds_keyed sample_proxy_run)))).
Defined.

Lemma use_proxy_only_set_witness :
  [ mkFeed 1 "https://blocked.example/feed" (Some "Blocked") 3 [] None None true None 100 100;
    mkFeed 2 "https://gone.example/feed" (Some "Gone") 3 [] None None true None 100 100;
    mkFeed 3 "https://fine.example/feed" (Some "Fine") 3 [] None None true None 100 100;
    mkFeed 4 "https://old.example/feed" (Some "Old") 30 [] None None true None 0 0 ]
  = flag_in [1] <$> sample_feeds.
Proof.
  exact (proj1 (use_proxy_only_set nat sample_read sample_is_need_proxy
                  50 10 true 0%nat sample_feeds _
                  sample_feeds_keyed sample_proxy_run)).
Defined.

End ProxyExamples.

(** ** Content flags *)

Section MathjaxFacts.
Import MathjaxFlag.
Variable py_strip : string -> string.
Variable py_int : string -> option Z.
Variable story_has_mathjax : string -> bool.

Abbreviation body := (update_story_has_mathjax_body py_int story_has_mathjax).
Abbreviation one_way := (one_way story_has_mathjax).

Lemma Story_get_Ok pk tbl story :
  Story_get pk tbl = Ok story -> story ∈ tbl ∧ story_id story = pk.
Proof.
  induction tbl as [|s tbl IH]; simpl; [done|].
  case_decide as Hid.
  - intros [= ->]. split; [left | done].
  - intros Hget. destruct (IH Hget). split; [by right | done].
Qed.

Lemma save_ids story (tbl : list Story) : story_id <$> save story tbl = story_id <$> tbl.
Proof.
  unfold save. rewrite <- list_fmap_compose. apply list_fmap_ext.
  intros i s _. simpl. by case_decide.
Qed.

Lemma one_way_refl (tbl : list Story) : Forall2 one_way tbl tbl.
Proof. apply Forall_Forall2_diag, Forall_forall. intros s _. by left. Qed.

Lemma one_way_trans (t1 t2 t3 : list Story) :
  Forall2 one_way t1 t2 -> Forall2 one_way t2 t3 -> Forall2 one_way t1 t3.
Proof.
  intros H12. revert t3. induction H12 as [|a b t1 t2 Hab _ IH]; intros t3 H23.
  - by apply Forall2_nil_inv_l in H23 as ->.
  - apply Forall2_cons_inv_l in H23 as (c & t3' & Hbc & H23 & ->).
    constructor; [|by apply IH].
    destruct Hab as [->|[Ha ->]]; [done|].
    destruct Hbc as [->|[_ ->]]; right; by split.
Qed.

(** Saving the flagged story touches its row alone and sets the flag. *)
Lemma save_one_way story (tbl : list Story) :
  NoDup (story_id <$> tbl) -> story ∈ tbl ->
  story_has_mathjax (story_content story) = true ->
  Forall2 one_way tbl (save (set_has_mathjax true story) tbl).
Proof.
  intros Hnd Hin Hmath. unfold save. apply Forall2_fmap_r, Forall_Forall2_diag, Forall_forall.
  intros s Hs. simpl. case_decide as Hid; [|by left].
  rewrite (NoDup_fmap_elem_inj story_id _ s story Hnd Hs Hin Hid).
  right. split; [done|]. by destruct story.
Qed.

Lemma body_one_way sid st st' :
  NoDup (story_id <$> storys st) ->
  body sid st = Ok st' ->
  NoDup (story_id <$> storys st')
  ∧ Forall2 one_way (storys st) (storys st')
  ∧ exists new,
      saved st' = saved st ++ new
      ∧ Forall (fun s => has_mathjax s = true
                         ∧ story_has_mathjax (story_content s) = true) new.
Proof.
  intros Hnd. unfold body, update_story_has_mathjax_body.
  destruct (pk_of py_int sid) as [pk|]; cbn [bind]; [|done].
  destruct (Story_get pk (storys st)) as [story|] eqn:Hget; cbn [bind]; [|done].
  apply Story_get_Ok in Hget as [Hin _].
  destruct (story_has_mathjax (story_content story)) eqn:Hmath; intros [= <-]; simpl.
  - split; [by rewrite save_ids|]. split; [by apply save_one_way|].
    exists [set_has_mathjax true story]. split; [done|].
    by apply Forall_singleton.
  - split; [done|]. split; [apply one_way_refl|].
    exists []. by rewrite app_nil_r.
Qed.

(** C10: the command is one-way.  For every story looked up, a detector
    answer [False] leaves the state as it is, with no write, and an answer
    [True] saves the story with [has_mathjax = True].  Whatever the batch and
    however it ends, every row of the table is afterwards either unchanged
    or, its content having math notation, the same row with the flag set;
    every object saved carries the flag; and a flag that was set is still
    set, also where the content has no math notation any more. *)
Theorem has_mathjax_one_way (option_storys : option string) (st st' : State)
    (err : option Error) :
  NoDup (story_id <$> storys st) ->
  update_story_has_mathjax py_strip py_int story_has_mathjax option_storys st
  = (st', err) ->
  (forall sid pk story s,
     pk_of py_int sid = Ok pk -> Story_get pk (storys s) = Ok story ->
     body sid s
     = Ok (if story_has_mathjax (story_content story)
           then {| storys := save (set_has_mathjax true story) (storys s);
                   saved := saved s ++ [set_has_mathjax true story] |}
           else s))
  ∧ Forall2 one_way (storys st) (storys st')
  ∧ (exists new,
       saved st' = saved st ++ new
       ∧ Forall (fun s => has_mathjax s = true
                          ∧ story_has_mathjax (story_content s) = true) new)
  ∧ (forall (i : nat) row row',
       storys st !! i = Some row -> storys st' !! i = Some row' ->
       has_mathjax row = true -> has_mathjax row' = true).
Proof.
  intros Hnd Hrun.
  assert (Hbatch : Forall2 one_way (storys st) (storys st')
            ∧ exists new,
                saved st' = saved st ++ new
                ∧ Forall (fun s => has_mathjax s = true
                                   ∧ story_has_mathjax (story_content s) = true) new).
  { unfold update_story_has_mathjax in Hrun. revert Hrun.
    generalize (Selection._get_story_ids py_strip option_storys (storys st)).
    intros ids. revert st Hnd.
    induction ids as [|sid ids IH]; intros st Hnd; cbn [for_each_atomic].
    - intros [= <- _]. split; [apply one_way_refl|]. exists []. by rewrite app_nil_r.
    - destruct (body sid st) as [st1|e] eqn:Hbody.
      + destruct (body_one_way _ _ _ Hnd Hbody) as (Hnd1 & Hrows & new1 & Hsaved1 & Hall1).
        intros Hrest. destruct (IH st1 Hnd1 Hrest) as (Hrows' & new & Hsaved & Hall).
        split; [by eapply one_way_trans|].
        exists (new1 ++ new). rewrite Hsaved, Hsaved1, app_assoc. split; [done|].
        by apply Forall_app.
      + intros [= <- _]. split; [apply one_way_refl|]. exists []. by rewrite app_nil_r. }
  destruct Hbatch as [Hrows Hsaved]. split; [|split; [done|split; [done|]]].
  - intros sid pk story s Hpk Hget.
    unfold body, update_story_has_mathjax_body. rewrite Hpk. cbn [bind].
    rewrite Hget. cbn [bind]. by destruct (story_has_mathjax (story_content story)).
  - intros i row row' Hrow Hrow' Hset.
    destruct (Forall2_lookup_lr _ _ _ _ _ _ Hrows Hrow Hrow') as [->|[_ ->]]; done.
Qed.

End MathjaxFacts.

Section MathjaxExamples.
Import MathjaxFlag.

Lemma sample_mathjax_run :
  update_story_has_mathjax (fun s => s) (fun _ => None) sample_has_mathjax None
    {| storys := sample_storys; saved := [] |}
  = ({| storys :=
          [ mkStory 1 1 0 "Euler: $$e^{i\pi} + 1 = 0$$" "https://a.example/1" 0 true;
            mkStory 2 1 1 "the formula was removed" "https://a.example/2" 0 true;
            mkStory 3 1 2 "plain text" "https://a.example/3" 0 false ];
        saved :=
          [ mkStory 1 1 0 "Euler: $$e^{i\pi} + 1 = 0$$" "https://a.example/1" 0 true ] |},
     None).
Proof. vm_compute. reflexivity. Qed.

Lemma sample_storys_keyed : NoDup (story_id <$> sample_storys).
Proof. apply (bool_decide_unpack _). vm_compute. exact I. Qed.

(** Story 2 is flagged, its content has no math notation any more, and the
    command leaves the row as it is. *)
Lemma has_mathjax_one_way_witness :
  Forall2 (one_way sample_has_mathjax) sample_storys
    [ mkStory 1 1 0 "Euler: $$e^{i\pi} + 1 = 0$$" "https://a.example/1" 0 true;
      mkStory 2 1 1 "the formula was removed" "https://a.example/2" 0 true;
      mkStory 3 1 2 "plain text" "https://a.example/3" 0 false ].
Proof.
  exact (proj1 (proj2 (has_mathjax_one_way (fun s => s) (fun _ => None)
                         sample_has_mathjax None
                         {| storys := sample_storys; saved := [] |} _ _
                         sample_storys_keyed sample_mathjax_run))).
Defined.

End MathjaxExamples.

(** * Further properties of the commands *)

(** ** [fix_user_story_offset] *)

Section OffsetRepairFacts.
Import OffsetReconciler OffsetSamples.

(** The only exception of the two phases is the constraint's. *)
Lemma writes_raise_integrity (value : Item -> Z) items s e :
  for_each items (fun it => write (item_id it) (value it)) s = Raise e ->
  e = IntegrityError.
Proof.
  revert s. induction items as [|it items IH]; intros s; cbn [for_each]; [done|].
  unfold write at 1, update_offset.
  destruct (bool_decide _); cbn [bind]; [apply IH | by intros [= <-]].
Qed.

(** The table a phase ends with has passed the check of its last write. *)
Lemma writes_checked (value : Item -> Z) items s s' :
  items ≠ [] ->
  for_each items (fun it => write (item_id it) (value it)) s = Ok s' ->
  unique_user_feed_offset s'.1.
Proof.
  revert s. induction items as [|it items IH]; intros s Hne; [done|].
  cbn [for_each]. unfold write at 1, update_offset.
  destruct (bool_decide _) eqn:Hcheck; cbn [bind]; [|done].
  destruct items as [|it' items'].
  - intros [= <-]. simpl. by apply bool_decide_eq_true_1 in Hcheck.
  - by apply IH.
Qed.

Lemma phase_a_inv (tbl : list UserStory) items seen log s :
  snapshot_of tbl items ->
  phase_a items (negate_in seen <$> tbl, log) = Ok s ->
  s = (negate_in (seen ++ (item_id <$> items)) <$> tbl,
       log ++ ((fun it => (item_id it, - item_us_offset it)) <$> items)).
Proof.
  revert seen log. induction items as [|it items IH]; intros seen log Hsnap.
  - simpl. intros [= <-]. by rewrite !app_nil_r.
  - unfold phase_a in *. cbn [for_each]. unfold write at 1, update_offset. cbn [fst snd].
    rewrite (negate_step (item_id it) (item_us_offset it)).
    2:{ intros us Hus Hid. apply (Hsnap it us); [left | done | done]. }
    destruct (bool_decide _); cbn [bind]; [|done].
    intros Hrest. apply IH in Hrest.
    + rewrite Hrest. by rewrite <- !app_assoc.
    + intros it' us Hit'. apply Hsnap. by right.
Qed.

Lemma phase_b_inv db items settled log s :
  NoDup (us_id <$> userstorys db) ->
  NoDup (story_id <$> storys db) ->
  (forall it, it ∈ items -> it ∈ query_mismatch db) ->
  phase_b items (settle db settled <$> userstorys db, log) = Ok s ->
  s = (settle db (settled ++ (item_id <$> items)) <$> userstorys db,
       log ++ ((fun it => (item_id it, item_story_offset it)) <$> items)).
Proof.
  intros Hpk Hspk. revert settled log.
  induction items as [|it items IH]; intros settled log Hitems.
  - simpl. intros [= <-]. by rewrite !app_nil_r.
  - unfold phase_b in *. cbn [for_each]. unfold write at 1, update_offset. cbn [fst snd].
    rewrite settle_step by (try done; apply Hitems; left).
    destruct (bool_decide _); cbn [bind]; [|done].
    intros Hrest. apply IH in Hrest.
    + rewrite Hrest. by rewrite <- !app_assoc.
    + intros it' Hit'. apply Hitems. by right.
Qed.

(** What a run that commits has done. *)
Lemma commit_inv db db' ws :
  NoDup (us_id <$> userstorys db) ->
  NoDup (story_id <$> storys db) ->
  fix_user_story_offset db = Ok (db', ws) ->
  db' = {| userstorys := repaired db; storys := storys db |}
  ∧ length ws = (2 * length (query_mismatch db))%nat
  ∧ (query_mismatch db ≠ [] -> unique_user_feed_offset (repaired db)).
Proof.
  intros Hpk Hspk. unfold fix_user_story_offset. case_decide as Hitems.
  - intros [= <- <-]. rewrite Hitems. split; [|split; done].
    rewrite <- settle_all, Hitems. simpl. rewrite settle_nil, Hitems.
    unfold negate_listed. simpl. rewrite negate_in_nil. by destruct db.
  - destruct (phase_a _ _) as [s1|] eqn:Ha; cbn [bind]; [|done].
    rewrite <- (negate_in_nil (userstorys db)) in Ha.
    apply phase_a_inv in Ha; [|by apply query_mismatch_snapshot]. subst s1.
    rewrite !app_nil_l.
    change (negate_in (item_id <$> query_mismatch db))
      with (negate_listed (query_mismatch db)).
    rewrite <- settle_nil.
    destruct (phase_b _ _) as [s2|] eqn:Hb; cbn [bind]; [|done].
    pose proof (writes_checked _ _ _ _ Hitems Hb) as Hchecked.
    apply phase_b_inv in Hb; [|done..]. subst s2. cbn [fst snd] in *.
    rewrite app_nil_l, settle_all in *. intros [= <- <-].
    split; [done|]. split; [|done].
    rewrite length_app, !length_fmap. lia.
Qed.

Lemma repaired_no_mismatch db :
  NoDup (story_id <$> storys db) ->
  query_mismatch {| userstorys := repaired db; storys := storys db |} = [].
Proof.
  intros Hspk. unfold query_mismatch. cbn [userstorys storys].
  apply bind_nil_all. intros us' Hus'. apply bind_nil_all. intros s Hs.
  apply list_elem_of_filter in Hs as [Hid Hs].
  unfold repaired in Hus'. apply list_elem_of_fmap in Hus' as (us & -> & Hus).
  simpl in *. rewrite decide_False; [done|]. intros Hne. apply Hne.
  by apply target_offset_story.
Qed.

(** X1: whenever the command commits, on any data with unique primary keys,
    storage holds every user story at the offset of its story, the story
    table is untouched, 2 N writes were made, the mismatch report is empty
    afterwards, and running the command again writes nothing. *)
Theorem repair_commits_repaired (db db' : Storage) (ws : list (Z * Z)) :
  NoDup (us_id <$> userstorys db) ->
  NoDup (story_id <$> storys db) ->
  fix_user_story_offset db = Ok (db', ws) ->
  userstorys db' = repaired db
  ∧ storys db' = storys db
  ∧ length ws = (2 * length (query_mismatch db))%nat
  ∧ query_mismatch db' = []
  ∧ fix_user_story_offset db' = Ok (db', []).
Proof.
  intros Hpk Hspk Hrun.
  destruct (commit_inv db db' ws Hpk Hspk Hrun) as (-> & Hlen & _).
  pose proof (repaired_no_mismatch db Hspk) as Hnone.
  repeat split; try done.
  unfold fix_user_story_offset. by rewrite Hnone.
Qed.

Lemma swap_db_keyed :
  NoDup (us_id <$> userstorys swap_db) ∧ NoDup (story_id <$> storys swap_db).
Proof. split; apply (bool_decide_unpack _); vm_compute; exact I. Qed.

Lemma swap_db_run :
  fix_user_story_offset swap_db
  = Ok ({| userstorys :=
             [ mkUserStory 1 7 3 10 2 false false;
               mkUserStory 2 7 3 11 1 true false;
               mkUserStory 3 7 3 12 3 false false ];
           storys := storys swap_db |},
        [(1, -1); (2, -2); (1, 2); (2, 1)]).
Proof. vm_compute. reflexivity. Qed.

Lemma repair_commits_repaired_witness :
  query_mismatch
    {| userstorys :=
         [ mkUserStory 1 7 3 10 2 false false;
           mkUserStory 2 7 3 11 1 true false;
           mkUserStory 3 7 3 12 3 false false ];
       storys := storys swap_db |} = [].
Proof.
  exact (proj1 (proj2 (proj2 (proj2
    (repair_commits_repaired swap_db _ _ (proj1 swap_db_keyed) (proj2 swap_db_keyed)
       swap_db_run))))).
Defined.

(** X3: the repair needs the offsets to be non-negative.  If a row outside
    the snapshot holds, in the same (user, feed) scope, the negation of the
    offset of a listed row, the command ends in [IntegrityError] and, the
    transaction being rolled back, repairs nothing. *)
Theorem repair_rejects_negated_offset (db : Storage) (r u : UserStory) :
  NoDup (us_id <$> userstorys db) ->
  r ∈ userstorys db -> u ∈ userstorys db ->
  listed (query_mismatch db) r -> ¬ listed (query_mismatch db) u ->
  same_scope r u -> us_offset u = - us_offset r ->
  fix_user_story_offset db = Raise IntegrityError.
Proof.
  intros Hpk Hr Hu Hlr Hlu [Huser Hfeed] Hneg.
  assert (Hitems : query_mismatch db ≠ []).
  { intros Heq. unfold listed in Hlr. rewrite Heq in Hlr. by apply elem_of_nil in Hlr. }
  unfold fix_user_story_offset. rewrite decide_False by done.
  destruct (phase_a _ _) as [s1|e] eqn:Ha; cbn [bind];
    [|by rewrite (writes_raise_integrity _ _ _ _ Ha)].
  exfalso. pose proof (writes_checked _ _ _ _ Hitems Ha) as Hchecked.
  rewrite <- (negate_in_nil (userstorys db)) in Ha.
  apply phase_a_inv in Ha; [|by apply query_mismatch_snapshot]. subst s1.
  cbn [fst] in Hchecked. rewrite app_nil_l in Hchecked.
  unfold unique_user_feed_offset in Hchecked. rewrite <- list_fmap_compose in Hchecked.
  apply Hlu. replace u with r; [done|].
  apply (NoDup_fmap_elem_inj _ _ r u Hchecked Hr Hu).
  unfold compose, negate_in, constraint_key.
  rewrite decide_True by done. rewrite decide_False by done.
  simpl. by rewrite Huser, Hfeed, Hneg.
Qed.

Lemma repair_rejects_negated_offset_witness :
  fix_user_story_offset negated_db = Raise IntegrityError.
Proof.
  apply (repair_rejects_negated_offset negated_db
           (mkUserStory 1 7 3 10 1 false false)
           (mkUserStory 2 7 3 11 (-1) false false)).
  - apply (bool_decide_unpack _). vm_compute. exact I.
  - left.
  - right. left.
  - unfold listed. apply (bool_decide_unpack _). vm_compute. exact I.
  - unfold listed. apply (bool_decide_unpack _). vm_compute. exact I.
  - split; reflexivity.
  - reflexivity.
Defined.

Lemma swap_db_repairable :
  unique_user_feed_offset (userstorys swap_db)
  ∧ (forall us, us ∈ userstorys swap_db -> 0 <= us_offset us)
  ∧ (forall s, s ∈ storys swap_db -> 0 <= story_offset s)
  ∧ (forall us, us ∈ userstorys swap_db -> listed (query_mismatch swap_db) us ->
       us_offset us ≠ 0)
  ∧ unique_user_feed_offset (repaired swap_db).
Proof.
  split; [apply (bool_decide_unpack _); vm_compute; exact I|].
  split; [|split; [|split]].
  - intros us Hus. simpl in Hus.
    repeat (apply elem_of_cons in Hus as [->|Hus]; [simpl; lia|]).
    by apply elem_of_nil in Hus.
  - intros s Hs. simpl in Hs.
    repeat (apply elem_of_cons in Hs as [->|Hs]; [simpl; lia|]).
    by apply elem_of_nil in Hs.
  - intros us Hus _. simpl in Hus.
    repeat (apply elem_of_cons in Hus as [->|Hus]; [simpl; lia|]).
    by apply elem_of_nil in Hus.
  - apply (bool_decide_unpack _). vm_compute. exact I.
Qed.

Lemma fix_user_story_offset_repairs_witness :
  fix_user_story_offset swap_db
  = Ok ({| userstorys := repaired swap_db; storys := storys swap_db |},
        if decide (query_mismatch swap_db = []) then []
        else ((fun it => (item_id it, - item_us_offset it)) <$> query_mismatch swap_db)
             ++ ((fun it => (item_id it, item_story_offset it)) <$> query_mismatch swap_db)).
Proof.
  destruct swap_db_repairable as (H1 & H2 & H3 & H4 & H5).
  exact (proj1 (fix_user_story_offset_repairs swap_db (proj1 swap_db_keyed)
                  (proj2 swap_db_keyed) H1 H2 H3 H4 H5)).
Defined.

End OffsetRepairFacts.

(** ** The recalculation commands, row by row *)

Section RowwiseLoop.
Import AggregateRecalculator.
Variable step : Z -> State -> result State.
Variable change : Storage -> Feed -> Feed.
Hypothesis change_id : forall st f, feed_id (change st f) = feed_id f.
Hypothesis change_storys :
  forall a b f, storys a = storys b -> change a f = change b f.
Hypothesis change_idem : forall st f, change st (change st f) = change st f.
Hypothesis step_row : forall id s s',
  NoDup (feed_id <$> feeds (db s)) -> step id s = Ok s' ->
  id ∈ feed_id <$> feeds (db s)
  ∧ feeds (db s') = update_feed id (change (db s)) (feeds (db s))
  ∧ storys (db s') = storys (db s).

(** A loop whose iteration rewrites the row of its feed by [change] leaves
    every selected row changed once and the others alone. *)
Lemma rowwise_loop ids s s' :
  NoDup (feed_id <$> feeds (db s)) ->
  for_each_atomic ids step s = (s', None) ->
  (forall id, id ∈ ids -> id ∈ feed_id <$> feeds (db s))
  ∧ feeds (db s')
    = (fun f => if decide (feed_id f ∈ ids) then change (db s) f else f)
        <$> feeds (db s)
  ∧ storys (db s') = storys (db s).
Proof.
  revert s. induction ids as [|id ids IH]; intros s Hnd; cbn [for_each_atomic].
  - intros [= <-]. split; [intros id Hid; by apply elem_of_nil in Hid|]. split; [|done].
    symmetry. etrans; [|apply list_fmap_id]. apply list_fmap_ext. intros i f _.
    rewrite decide_False; [done|]. apply not_elem_of_nil.
  - destruct (step id s) as [s1|e] eqn:Hstep; [|by intros [= _ ?]].
    intros Hrun. destruct (step_row _ _ _ Hnd Hstep) as (Hin & Hfeeds & Hstorys).
    assert (Hids1 : feed_id <$> feeds (db s1) = feed_id <$> feeds (db s)).
    { rewrite Hfeeds. apply update_feed_ids. intros f Hf. by rewrite change_id. }
    destruct (IH s1) as (Hall & Hfeeds' & Hstorys'); [by rewrite Hids1 | done |].
    split; [|split].
    + intros id' Hid'. apply elem_of_cons in Hid' as [Heq|Hid']; [by rewrite Heq|].
      rewrite <- Hids1. by apply Hall.
    + rewrite Hfeeds', Hfeeds. unfold update_feed. rewrite <- list_fmap_compose.
      apply list_fmap_ext. intros i f _. unfold compose.
      destruct (decide (feed_id f = id)) as [Heq|Hne].
      * rewrite change_id. rewrite (decide_True (P := feed_id f ∈ id :: ids));
          [|rewrite Heq; left].
        destruct (decide (feed_id f ∈ ids)); [|done].
        by rewrite (change_storys (db s1) (db s)), change_idem.
      * destruct (decide (feed_id f ∈ ids)) as [Hi|Hi].
        -- rewrite decide_True by (by right). by apply change_storys.
        -- rewrite decide_False; [done|]. intros [?|?]%elem_of_cons; done.
    + by rewrite Hstorys'.
Qed.

End RowwiseLoop.

Section RecalculatedRowsFacts.
Import AggregateRecalculator RecalculatedRows.
Variable py_strip : string -> string.
Variable py_int : string -> option Z.
Variable month_of : Z -> Z.
Variable dryness_of : list (Z * Z) -> Z.

Abbreviation backfill := (update_feed_dt_first_story_published_body).
Abbreviation monthly_of := (monthly_of month_of).
Abbreviation refresh_monthly := (Story_refresh_feed_monthly_story_count month_of).
Abbreviation dryness_body := (update_feed_dryness_body month_of dryness_of).
Abbreviation dried := (dried month_of dryness_of).

Lemma Feed_get_by_pk_NoDup (tbl : list Feed) f :
  NoDup (feed_id <$> tbl) -> f ∈ tbl -> Feed_get_by_pk (feed_id f) tbl = Ok f.
Proof.
  induction tbl as [|g tbl IH]; intros Hnd Hf; [by apply elem_of_nil in Hf|].
  rewrite fmap_cons in Hnd. apply NoDup_cons in Hnd as [Hg Hnd]. simpl.
  apply elem_of_cons in Hf as [Heq|Hf].
  - subst g. by rewrite decide_True.
  - rewrite decide_False; [by apply IH|].
    intros Heq. apply Hg. rewrite Heq. apply list_elem_of_fmap. by exists f.
Qed.

Lemma Feed_get_by_pk_update_feed id id' change (tbl : list Feed) :
  (forall f, feed_id (change f) = feed_id f) ->
  Feed_get_by_pk id' (update_feed id change tbl)
  = match Feed_get_by_pk id' tbl with
    | Ok f => Ok (if decide (feed_id f = id) then change f else f)
    | Raise e => Raise e
    end.
Proof.
  intros Hid. induction tbl as [|g tbl IH]; [done|].
  unfold update_feed in *. rewrite fmap_cons. simpl.
  assert (Hg : feed_id (if decide (feed_id g = id) then change g else g) = feed_id g).
  { by destruct (decide (feed_id g = id)). }
  rewrite Hg. by destruct (decide (feed_id g = id')).
Qed.

Lemma update_feed_ext id (c1 c2 : Feed -> Feed) (tbl : list Feed) :
  (forall g, g ∈ tbl -> feed_id g = id -> c1 g = c2 g) ->
  update_feed id c1 tbl = update_feed id c2 tbl.
Proof.
  intros Hc. unfold update_feed. apply list_fmap_ext. intros i g Hi.
  apply list_elem_of_lookup_2 in Hi. destruct (decide (feed_id g = id)); [|done].
  by apply Hc.
Qed.

Lemma update_feed_twice id (c1 c2 : Feed -> Feed) (tbl : list Feed) :
  (forall f, feed_id (c1 f) = feed_id f) ->
  update_feed id c2 (update_feed id c1 tbl) = update_feed id (fun f => c2 (c1 f)) tbl.
Proof.
  intros Hid. unfold update_feed. rewrite <- list_fmap_compose.
  apply list_fmap_ext. intros i g _. unfold compose.
  destruct (decide (feed_id g = id)) as [Hg|Hg].
  - by rewrite decide_True by (by rewrite Hid).
  - by rewrite decide_False.
Qed.

Lemma same_row (tbl : list Feed) f g :
  NoDup (feed_id <$> tbl) -> f ∈ tbl -> g ∈ tbl -> feed_id g = feed_id f -> g = f.
Proof. intros Hnd Hf Hg Heq. by apply (NoDup_fmap_elem_inj feed_id tbl g f). Qed.

Lemma Story_get_by_offset_raises id o st e :
  Story_get_by_offset id o st = Raise e -> e = DoesNotExist.
Proof.
  unfold Story_get_by_offset. destruct (filter _ _); [|done]. by intros [= <-].
Qed.

Lemma Story_get_by_offset_storys id o a b :
  storys a = storys b -> Story_get_by_offset id o a = Story_get_by_offset id o b.
Proof. intros Heq. unfold Story_get_by_offset, storys_of. by rewrite Heq. Qed.

(** *** Backfill of the first publication time *)

Lemma backfilled_id st f : feed_id (backfilled st f) = feed_id f.
Proof.
  unfold backfilled. repeat case_decide; try done.
  by destruct (Story_get_by_offset _ _ _).
Qed.

Lemma backfilled_storys a b f : storys a = storys b -> backfilled a f = backfilled b f.
Proof.
  intros Heq. unfold backfilled.
  by rewrite (Story_get_by_offset_storys _ _ a b Heq).
Qed.

Lemma backfilled_idem st f : backfilled st (backfilled st f) = backfilled st f.
Proof.
  destruct (decide (dt_first_story_published f ≠ None)) as [Hdt|Hdt].
  { assert (H : backfilled st f = f) by (unfold backfilled; by rewrite decide_True).
    by rewrite !H. }
  destruct (decide (total_storys f <= 0)) as [Ht|Ht].
  { assert (H : backfilled st f = f).
    { unfold backfilled. rewrite decide_False by done. by rewrite decide_True. }
    by rewrite !H. }
  destruct (Story_get_by_offset (feed_id f) 0 st) as [story|e] eqn:Hs.
  - assert (H : backfilled st f
                = set_dt_first_story_published (Some (story_dt_published story)) f).
    { unfold backfilled. rewrite decide_False by done. rewrite decide_False by done.
      by rewrite Hs. }
    rewrite H. unfold backfilled. by rewrite decide_True.
  - assert (H : backfilled st f = f).
    { unfold backfilled. rewrite decide_False by done. rewrite decide_False by done.
      by rewrite Hs. }
    by rewrite !H.
Qed.

Lemma backfill_step id s s' :
  NoDup (feed_id <$> feeds (db s)) -> backfill id s = Ok s' ->
  id ∈ feed_id <$> feeds (db s)
  ∧ feeds (db s') = update_feed id (backfilled (db s)) (feeds (db s))
  ∧ storys (db s') = storys (db s)
  ∧ warnings s' = warnings s ++ (if lacks_first_story (db s) id then [id] else []).
Proof.
  intros Hnd. unfold update_feed_dt_first_story_published_body, lacks_first_story.
  destruct (Feed_get_by_pk id (feeds (db s))) as [f|e] eqn:Hget; cbn [bind]; [|done].
  apply Feed_get_by_pk_Ok in Hget as [Hf Hid].
  assert (Hin : id ∈ feed_id <$> feeds (db s)).
  { apply list_elem_of_fmap. by exists f. }
  assert (Hsame : forall c, c f = f -> update_feed id c (feeds (db s)) = feeds (db s)).
  { intros c Hc. apply update_feed_same. intros g Hg Hgid.
    rewrite (same_row _ f g Hnd Hf Hg); [done | congruence]. }
  destruct (decide (dt_first_story_published f ≠ None)) as [Hdt|Hdt].
  { intros [= <-]. rewrite Hsame; [|unfold backfilled; by rewrite decide_True].
    rewrite bool_decide_eq_false_2 by done. simpl. by rewrite app_nil_r. }
  destruct (decide (total_storys f <= 0)) as [Ht|Ht].
  { intros [= <-].
    rewrite Hsame;
      [|unfold backfilled; rewrite decide_False by done; by rewrite decide_True].
    rewrite (bool_decide_eq_false_2 (0 < total_storys f)) by lia.
    rewrite andb_false_r. simpl. by rewrite app_nil_r. }
  assert (Hnone : dt_first_story_published f = None).
  { by destruct (dt_first_story_published f); [destruct Hdt|]. }
  rewrite !bool_decide_eq_true_2 by (done || lia). simpl.
  destruct (Story_get_by_offset id 0 (db s)) as [story|e] eqn:Hs.
  - intros [= <-]. simpl. rewrite app_nil_r. split; [done|]. split; [|done].
    rewrite Hid. apply update_feed_ext. intros g Hg Hgid.
    rewrite (same_row _ f g Hnd Hf Hg) by congruence.
    unfold backfilled. rewrite decide_False by done. rewrite decide_False by done.
    by rewrite Hid, Hs.
  - rewrite (Story_get_by_offset_raises _ _ _ _ Hs). intros [= <-]. simpl.
    split; [done|]. split; [|done]. symmetry. apply Hsame.
    unfold backfilled. rewrite decide_False by done. rewrite decide_False by done.
    by rewrite Hid, Hs.
Qed.

Lemma lacks_first_story_step id id' s :
  lacks_first_story
    {| feeds := update_feed id (backfilled (db s)) (feeds (db s));
       storys := storys (db s) |} id'
  = lacks_first_story (db s) id'.
Proof.
  unfold lacks_first_story. cbn [feeds].
  rewrite Feed_get_by_pk_update_feed by apply backfilled_id.
  rewrite (Story_get_by_offset_storys id' 0 _ (db s)) by done.
  destruct (Feed_get_by_pk id' (feeds (db s))) as [f|e] eqn:Hget; [|done].
  apply Feed_get_by_pk_Ok in Hget as [_ Hid].
  destruct (decide (feed_id f = id)); [|done].
  unfold backfilled.
  destruct (decide (dt_first_story_published f ≠ None)) as [Hdt|Hdt]; [done|].
  destruct (decide (total_storys f <= 0)); [done|].
  rewrite Hid.
  destruct (Story_get_by_offset id' 0 (db s)); [|done].
  simpl. by rewrite !andb_false_r.
Qed.

Lemma backfill_loop ids s s' :
  NoDup (feed_id <$> feeds (db s)) ->
  for_each_atomic ids backfill s = (s', None) ->
  (forall id, id ∈ ids -> id ∈ feed_id <$> feeds (db s))
  ∧ feeds (db s')
    = (fun f => if decide (feed_id f ∈ ids) then backfilled (db s) f else f)
        <$> feeds (db s)
  ∧ storys (db s') = storys (db s)
  ∧ warnings s' = warnings s ++ filter (fun id => lacks_first_story (db s) id) ids.
Proof.
  intros Hnd Hrun.
  destruct (rowwise_loop backfill backfilled backfilled_id backfilled_storys
              backfilled_idem) with (ids := ids) (s := s) (s' := s')
    as (Hall & Hfeeds & Hstorys); [|done|done|].
  { intros id t t' Ht Hstep. destruct (backfill_step id t t' Ht Hstep) as (?&?&?&?).
    done. }
  repeat split; try done.
  clear Hall Hfeeds Hstorys. revert s Hnd Hrun.
  induction ids as [|id ids IH]; intros s Hnd; cbn [for_each_atomic].
  - intros [= <-]. by rewrite app_nil_r.
  - destruct (backfill id s) as [s1|e] eqn:Hstep; [|by intros [= _ ?]].
    intros Hrun. destruct (backfill_step id s s1 Hnd Hstep) as (_ & Hf & Hs & Hw).
    assert (Hdb : db s1 = {| feeds := update_feed id (backfilled (db s)) (feeds (db s));
                             storys := storys (db s) |}).
    { destruct (db s1). simpl in *. by subst. }
    rewrite (IH s1); [| |done].
    2:{ rewrite Hf. rewrite update_feed_ids; [done|].
        intros f Hfid. by rewrite backfilled_id. }
    rewrite Hw, <- app_assoc. f_equal.
    rewrite filter_cons.
    assert (Hext : filter (fun id0 => lacks_first_story (db s1) id0) ids
                   = filter (fun id0 => lacks_first_story (db s) id0) ids).
    { apply list_filter_iff. intros id'. by rewrite Hdb, lacks_first_story_step. }
    rewrite Hext. by destruct (lacks_first_story (db s) id).
Qed.

Lemma get_feed_ids_same option_feeds (a b : list Feed) :
  feed_id <$> a = feed_id <$> b ->
  Selection._get_feed_ids py_strip py_int option_feeds a
  = Selection._get_feed_ids py_strip py_int option_feeds b.
Proof.
  intros Heq. unfold Selection._get_feed_ids, Selection._get_all_feed_ids.
  by rewrite Heq.
Qed.

Lemma over_feeds_None option_feeds body st st' :
  over_feeds py_strip py_int option_feeds body st = (st', None) ->
  exists ids,
    Selection._get_feed_ids py_strip py_int option_feeds (feeds (db st)) = Ok ids
    ∧ for_each_atomic ids body st = (st', None).
Proof.
  unfold over_feeds. destruct (Selection._get_feed_ids _ _ _ _) as [ids|e]; [|done].
  intros Hrun. by exists ids.
Qed.

(** X4: what a complete backfill leaves behind, in closed form.  Every
    selected feed without first publication time and with storys has the
    publication time of its story at offset 0, if there is one; every other
    row and every story is as before; and the warnings are the selected ids,
    in order, whose feed was due and has no story at offset 0. *)
Theorem backfill_outcome (option_feeds : option string) (ids : list Z)
    (st st' : State) :
  NoDup (feed_id <$> feeds (db st)) ->
  Selection._get_feed_ids py_strip py_int option_feeds (feeds (db st)) = Ok ids ->
  update_feed_dt_first_story_published py_strip py_int option_feeds st = (st', None) ->
  feeds (db st')
  = (fun f => if decide (feed_id f ∈ ids) then backfilled (db st) f else f)
      <$> feeds (db st)
  ∧ storys (db st') = storys (db st)
  ∧ warnings st'
    = warnings st ++ filter (fun id => lacks_first_story (db st) id) ids
  ∧ (forall f', f' ∈ feeds (db st') -> feed_id f' ∈ ids ->
       dt_first_story_published f' = None -> 0 < total_storys f' ->
       Story_get_by_offset (feed_id f') 0 (db st') = Raise DoesNotExist).
Proof.
  intros Hnd Hids Hrun. unfold update_feed_dt_first_story_published in Hrun.
  rewrite (over_feeds_ids _ _ _ _ _ _ Hids) in Hrun.
  destruct (backfill_loop ids st st' Hnd Hrun) as (_ & Hf & Hs & Hw).
  repeat split; try done.
  intros f' Hf' Hin Hdt Ht. rewrite Hf in Hf'.
  apply list_elem_of_fmap in Hf' as (f & Heq & _).
  rewrite (Story_get_by_offset_storys _ _ _ (db st) Hs).
  assert (Hfid : feed_id f' = feed_id f).
  { subst f'. destruct (decide _); [apply backfilled_id | done]. }
  rewrite Hfid in Hin. rewrite decide_True in Heq by done. rewrite Hfid.
  subst f'. unfold backfilled in Hdt, Ht.
  destruct (decide (dt_first_story_published f ≠ None)) as [Hd|Hd]; [done|].
  destruct (decide (total_storys f <= 0)) as [Hz|Hz]; [lia|].
  destruct (Story_get_by_offset (feed_id f) 0 (db st)) as [story|e] eqn:Hstory;
    [done|].
  by rewrite (Story_get_by_offset_raises _ _ _ _ Hstory).
Qed.

Lemma backfill_settled_step id s f :
  Feed_get_by_pk id (feeds (db s)) = Ok f -> backfilled (db s) f = f ->
  exists s', backfill id s = Ok s' ∧ db s' = db s ∧ writes s' = writes s.
Proof.
  intros Hget Hsettled. unfold update_feed_dt_first_story_published_body.
  rewrite Hget. cbn [bind]. unfold backfilled in Hsettled.
  apply Feed_get_by_pk_Ok in Hget as [_ Hid]. rewrite Hid in Hsettled.
  destruct (decide (dt_first_story_published f ≠ None)) as [Hd|Hd]; [by exists s|].
  destruct (decide (total_storys f <= 0)) as [Hz|Hz]; [by exists s|].
  destruct (Story_get_by_offset id 0 (db s)) as [story|e] eqn:Hstory.
  - exfalso. apply Hd. rewrite <- Hsettled. done.
  - rewrite (Story_get_by_offset_raises _ _ _ _ Hstory). by eexists.
Qed.

Lemma backfill_settled_loop ids s :
  (forall id, id ∈ ids ->
     exists f, Feed_get_by_pk id (feeds (db s)) = Ok f ∧ backfilled (db s) f = f) ->
  exists s', for_each_atomic ids backfill s = (s', None)
    ∧ db s' = db s ∧ writes s' = writes s.
Proof.
  revert s. induction ids as [|id ids IH]; intros s Hall; cbn [for_each_atomic].
  - by exists s.
  - destruct (Hall id) as (f & Hget & Hsettled); [left|].
    destruct (backfill_settled_step id s f Hget Hsettled) as (s1 & -> & Hdb & Hw).
    destruct (IH s1) as (s' & Hrun & Hdb' & Hw').
    { intros id' Hid'. rewrite Hdb. apply Hall. by right. }
    exists s'. by rewrite Hrun, Hdb', Hw', Hdb, Hw.
Qed.

(** X5: the backfill is idempotent.  Run again on what a complete run left
    behind, the command completes again, changes no row and sends no
    write. *)
Theorem backfill_rerun_writes_nothing (option_feeds : option string)
    (st st' : State) :
  NoDup (feed_id <$> feeds (db st)) ->
  update_feed_dt_first_story_published py_strip py_int option_feeds st = (st', None) ->
  exists st'',
    update_feed_dt_first_story_published py_strip py_int option_feeds st'
    = (st'', None)
    ∧ db st'' = db st' ∧ writes st'' = writes st'.
Proof.
  intros Hnd Hrun. apply over_feeds_None in Hrun as (ids & Hids & Hrun).
  destruct (backfill_loop ids st st' Hnd Hrun) as (Hall & Hf & Hs & _).
  assert (Hids' : feed_id <$> feeds (db st') = feed_id <$> feeds (db st)).
  { rewrite Hf, <- list_fmap_compose. apply list_fmap_ext. intros i f _.
    unfold compose. destruct (decide _); [apply backfilled_id | done]. }
  unfold update_feed_dt_first_story_published.
  rewrite (over_feeds_ids _ _ option_feeds ids);
    [|by rewrite (get_feed_ids_same _ _ (feeds (db st)))].
  apply backfill_settled_loop. intros id Hid.
  pose proof (Hall id Hid) as Hin. apply list_elem_of_fmap in Hin as (f & Hfid & Hin).
  subst id.
  exists (backfilled (db st) f). split.
  - rewrite <- (backfilled_id (db st) f). apply Feed_get_by_pk_NoDup.
    + by rewrite Hids'.
    + rewrite Hf. apply list_elem_of_fmap. exists f. by rewrite decide_True.
  - rewrite (backfilled_storys (db st') (db st)) by done. apply backfilled_idem.
Qed.

(** *** Dryness *)

Lemma monthly_of_storys id a b : storys a = storys b -> monthly_of id a = monthly_of id b.
Proof.
  intros Heq. unfold AggregateRecalculator.monthly_of, storys_of. by rewrite Heq.
Qed.

Lemma dried_id st f : feed_id (dried st f) = feed_id f.
Proof. unfold RecalculatedRows.dried. by case_decide. Qed.

Lemma dried_storys a b f : storys a = storys b -> dried a f = dried b f.
Proof.
  intros Heq. unfold RecalculatedRows.dried.
  by rewrite (monthly_of_storys _ a b Heq).
Qed.

Lemma dried_idem st f : dried st (dried st f) = dried st f.
Proof.
  destruct (decide (total_storys f <= 0)) as [Ht|Ht].
  { assert (H : dried st f = f)
      by (unfold RecalculatedRows.dried; by rewrite decide_True).
    by rewrite !H. }
  assert (H : exists hist,
             dried st f
             = set_dryness (Some (dryness_of hist)) (set_monthly_story_count hist f)
             ∧ (hist = [] -> monthly_of (feed_id f) st = [])).
  { unfold RecalculatedRows.dried. rewrite decide_False by done.
    eexists. split; [done|]. by destruct (decide (monthly_story_count f = [])). }
  destruct H as (hist & H & Hhist). rewrite H.
  unfold RecalculatedRows.dried.
  cbn [total_storys set_dryness set_monthly_story_count monthly_story_count feed_id].
  rewrite decide_False by done.
  destruct (decide (hist = [])) as [He|He]; [|done].
  by rewrite (Hhist He), He.
Qed.

Lemma dryness_step id s s' :
  NoDup (feed_id <$> feeds (db s)) -> dryness_body id s = Ok s' ->
  id ∈ feed_id <$> feeds (db s)
  ∧ feeds (db s') = update_feed id (dried (db s)) (feeds (db s))
  ∧ storys (db s') = storys (db s)
  ∧ warnings s' = warnings s.
Proof.
  intros Hnd. unfold update_feed_dryness_body.
  destruct (Feed_get_by_pk id (feeds (db s))) as [f|e] eqn:Hget; cbn [bind]; [|done].
  pose proof Hget as Hget0.
  apply Feed_get_by_pk_Ok in Hget as [Hf Hid].
  assert (Hin : id ∈ feed_id <$> feeds (db s)).
  { apply list_elem_of_fmap. by exists f. }
  assert (Hrow : forall g, g ∈ feeds (db s) -> feed_id g = id -> g = f).
  { intros g Hg Hgid. apply (same_row _ f g Hnd Hf Hg). congruence. }
  destruct (decide (total_storys f <= 0)) as [Ht|Ht].
  { intros [= <-]. split; [done|]. split; [|done]. symmetry.
    apply update_feed_same. intros g Hg Hgid. rewrite (Hrow g Hg Hgid).
    unfold RecalculatedRows.dried. by rewrite decide_True. }
  rewrite Hid.
  destruct (decide (monthly_story_count f = [])) as [Hm|Hm].
  - unfold Story_refresh_feed_monthly_story_count at 1. cbn [db feeds].
    rewrite Feed_get_by_pk_update_feed by done. rewrite Hget0.
    rewrite decide_True by done. cbn [bind].
    intros [= <-]. unfold save, Story_refresh_feed_monthly_story_count.
    cbn [db feeds storys warnings feed_id set_dryness set_monthly_story_count
         monthly_story_count].
    split; [done|]. split; [|done].
    rewrite Hid, update_feed_twice by done.
    apply update_feed_ext. intros g Hg Hgid. rewrite (Hrow g Hg Hgid).
    unfold RecalculatedRows.dried. rewrite decide_False by done.
    rewrite decide_True by done. by rewrite Hid.
  - rewrite Hget0. cbn [bind]. intros [= <-]. unfold save.
    cbn [db feeds storys warnings feed_id set_dryness].
    split; [done|]. split; [|done]. rewrite Hid.
    apply update_feed_ext. intros g Hg Hgid. rewrite (Hrow g Hg Hgid).
    unfold RecalculatedRows.dried. rewrite decide_False by done.
    rewrite decide_False by done. by destruct f.
Qed.

(** X6: what a complete run of [update_feed_dryness] leaves behind.  Every
    selected feed with storys holds the dryness of its histogram, which is
    the stored one or, if that was empty, the one rebuilt from the storys;
    selected feeds without storys and feeds not selected are untouched; and
    the selected feeds are then free of drift. *)
Theorem update_feed_dryness_outcome (option_feeds : option string)
    (ids : list Z) (st st' : State) :
  NoDup (feed_id <$> feeds (db st)) ->
  Selection._get_feed_ids py_strip py_int option_feeds (feeds (db st)) = Ok ids ->
  update_feed_dryness py_strip py_int month_of dryness_of option_feeds st
  = (st', None) ->
  feeds (db st')
  = (fun f => if decide (feed_id f ∈ ids) then dried (db st) f else f)
      <$> feeds (db st)
  ∧ storys (db st') = storys (db st)
  ∧ no_drift_dryness month_of dryness_of ids (db st').
Proof.
  intros Hnd Hids Hrun. unfold update_feed_dryness in Hrun.
  rewrite (over_feeds_ids _ _ _ _ _ _ Hids) in Hrun.
  destruct (rowwise_loop dryness_body dried dried_id dried_storys dried_idem)
    with (ids := ids) (s := st) (s' := st') as (_ & Hf & Hs); [|done|done|].
  { intros id t t' Ht Hstep. destruct (dryness_step id t t' Ht Hstep) as (?&?&?&?).
    done. }
  split; [done|]. split; [done|].
  intros f' Hf' Hin Hpos. rewrite Hf in Hf'.
  apply list_elem_of_fmap in Hf' as (g & -> & Hg).
  assert (Hgid : feed_id (if decide (feed_id g ∈ ids) then dried (db st) g else g)
                 = feed_id g).
  { destruct (decide _); [apply dried_id | done]. }
  rewrite Hgid in Hin |- *. rewrite decide_True in Hpos |- * by done.
  rewrite (monthly_of_storys _ _ (db st) Hs).
  unfold RecalculatedRows.dried in *.
  destruct (decide (total_storys g <= 0)); [lia|].
  cbn [dryness monthly_story_count set_dryness set_monthly_story_count].
  split; [done|]. by destruct (decide (monthly_story_count g = [])).
Qed.

(** *** Recount of [total_storys] *)

Lemma recounted_id st f : feed_id (recounted st f) = feed_id f.
Proof. done. Qed.

Lemma correct_total_storys_storys id a b :
  storys a = storys b -> correct_total_storys id a = correct_total_storys id b.
Proof. intros Heq. unfold correct_total_storys, storys_of. by rewrite Heq. Qed.

Lemma recounted_same st f :
  total_storys f = correct_total_storys (feed_id f) st -> recounted st f = f.
Proof. intros Heq. unfold recounted. rewrite <- Heq. by destruct f. Qed.

Lemma incorrect_ids st :
  (fun t => t.1.1) <$> Story_query_feed_incorrect_total_storys st
  = feed_id <$> filter (fun f => total_storys f ≠ correct_total_storys (feed_id f) st)
                  (feeds st).
Proof.
  unfold Story_query_feed_incorrect_total_storys.
  induction (feeds st) as [|f tbl IH]; [done|].
  rewrite bind_cons, fmap_app, IH, filter_cons.
  by destruct (decide (total_storys f ≠ correct_total_storys (feed_id f) st)).
Qed.

Lemma incorrect_recount st t :
  t ∈ Story_query_feed_incorrect_total_storys st ->
  t.2 = correct_total_storys t.1.1 st.
Proof.
  unfold Story_query_feed_incorrect_total_storys. intros Ht.
  apply list_elem_of_bind in Ht as (f & Ht & _).
  destruct (decide _); [|by apply elem_of_nil in Ht].
  apply list_elem_of_singleton in Ht. by subst t.
Qed.

Lemma fix_loop (l : list (Z * Z * Z)) s n s' n' :
  NoDup (feed_id <$> feeds (db s)) ->
  NoDup ((fun t => t.1.1) <$> l) ->
  (forall t, t ∈ l ->
     exists f, f ∈ feeds (db s) ∧ feed_id f = t.1.1
       ∧ total_storys f ≠ correct_total_storys t.1.1 (db s)
       ∧ t.2 = correct_total_storys t.1.1 (db s)) ->
  foldl (fun '(s, n) '(id, _, _) =>
           let '(s', fixed) := Story_fix_feed_total_storys id s in
           (s', if fixed : bool then n + 1 else n)) (s, n) l = (s', n') ->
  n' = n + Z.of_nat (length l)
  ∧ feeds (db s')
    = (fun f => if decide (feed_id f ∈ (fun t => t.1.1) <$> l)
                then recounted (db s) f else f) <$> feeds (db s)
  ∧ storys (db s') = storys (db s)
  ∧ writes s' = writes s ++ ((fun '(id, _, m) => WriteTotalStorys id m) <$> l)
  ∧ warnings s' = warnings s.
Proof.
  revert s n. induction l as [|[[id o] m] l IH]; intros s n Hnd Hl Hall.
  - cbn [foldl]. intros [= <- <-]. rewrite app_nil_r. repeat split; try done; [simpl; lia|].
    symmetry. etrans; [|apply list_fmap_id]. apply list_fmap_ext. intros i f _.
    rewrite decide_False; [done|]. apply not_elem_of_nil.
  - rewrite fmap_cons in Hl. apply NoDup_cons in Hl as [Hid Hl]. cbn [fst] in Hid.
    destruct (Hall (id, o, m)) as (f & Hf & Hfid & Hne & Hm); [left|].
    cbn [fst snd] in *. cbn [foldl].
    unfold Story_fix_feed_total_storys at 2.
    rewrite <- Hfid at 1. rewrite (Feed_get_by_pk_NoDup _ f Hnd Hf).
    rewrite decide_True by done.
    set (s1 := {| db := {| feeds := update_feed id
                             (set_total_storys (correct_total_storys id (db s)))
                             (feeds (db s));
                           storys := storys (db s) |};
                  writes := writes s ++ [WriteTotalStorys id (correct_total_storys id (db s))];
                  warnings := warnings s |}).
    intros Hrun. apply IH in Hrun as (Hn & Hfeeds & Hstorys & Hwrites & Hwarn).
    + split; [rewrite Hn; simpl length; lia|]. split; [|split; [done|split; [|done]]].
      * rewrite Hfeeds. subst s1. cbn [db feeds]. unfold update_feed.
        rewrite <- list_fmap_compose. apply list_fmap_ext. intros i g _.
        unfold compose. rewrite fmap_cons. cbn [fst].
        destruct (decide (feed_id g = id)) as [Hg|Hg].
        -- rewrite (decide_True (P := feed_id g ∈ id :: _)) by (rewrite Hg; left).
           rewrite decide_False; [|cbn [feed_id set_total_storys]; by rewrite Hg].
           unfold recounted. by rewrite Hg.
        -- destruct (decide (feed_id g ∈ (fun t => t.1.1) <$> l)) as [Hi|Hi].
           ++ rewrite decide_True by (by right). unfold recounted.
              by rewrite (correct_total_storys_storys _ (mkStorage _ (storys (db s)))
                            (db s)).
           ++ rewrite decide_False; [done|]. intros [?|?]%elem_of_cons; done.
      * rewrite Hwrites. subst s1. cbn [writes]. rewrite <- app_assoc, fmap_cons.
        by rewrite Hm.
    + subst s1. cbn [db feeds]. by rewrite update_feed_ids.
    + done.
    + intros t Ht. destruct (Hall t) as (g & Hg & Hgid & Hgne & Hgm); [by right|].
      exists g. subst s1. cbn [db feeds storys].
      rewrite (correct_total_storys_storys _ (mkStorage _ (storys (db s))) (db s))
        by done.
      split; [|done]. unfold update_feed.
      apply list_elem_of_fmap. exists g. split; [|done].
      rewrite decide_False; [done|]. intros Heq. apply Hid.
      apply list_elem_of_fmap. exists t. split; [congruence | done].
Qed.

(** X7: [fix_feed_total_storys] without [dry_run] corrects what it shows.
    The table shown is the report of the feeds whose count disagrees with
    the storys in storage; each of them is corrected by one write, so the
    number reported is the length of the table; afterwards every feed holds
    its recount, the storys are untouched and the report is empty. *)
Theorem fix_feed_total_storys_corrects (st st' : State)
    (shown : list (Z * Z * Z)) (num_corrected : Z) :
  NoDup (feed_id <$> feeds (db st)) ->
  fix_feed_total_storys false st = (st', shown, num_corrected) ->
  shown = Story_query_feed_incorrect_total_storys (db st)
  ∧ num_corrected = Z.of_nat (length shown)
  ∧ feeds (db st') = recounted (db st) <$> feeds (db st)
  ∧ storys (db st') = storys (db st)
  ∧ writes st' = writes st ++ ((fun '(id, _, m) => WriteTotalStorys id m) <$> shown)
  ∧ Story_query_feed_incorrect_total_storys (db st') = [].
Proof.
  intros Hnd. unfold fix_feed_total_storys.
  destruct (foldl _ _ _) as [s1 n1] eqn:Hfold. intros [= <- <- <-].
  apply fix_loop in Hfold as (Hn & Hfeeds & Hstorys & Hwrites & _); [|done| |].
  - assert (Hall : feeds (db s1) = recounted (db st) <$> feeds (db st)).
    { rewrite Hfeeds. apply list_fmap_ext. intros i f Hi.
      apply list_elem_of_lookup_2 in Hi.
      destruct (decide _) as [|Hout]; [done|]. symmetry. apply recounted_same.
      destruct (decide (total_storys f = correct_total_storys (feed_id f) (db st)))
        as [|Hne]; [done|].
      exfalso. apply Hout. rewrite incorrect_ids. apply list_elem_of_fmap.
      exists f. split; [done|]. by apply list_elem_of_filter. }
    split; [done|]. split; [lia|]. do 3 (split; [done|]).
    apply no_drift_no_incorrect. intros f Hf. rewrite Hall in Hf.
    apply list_elem_of_fmap in Hf as (g & -> & _).
    unfold recounted. cbn [total_storys feed_id set_total_storys].
    by apply correct_total_storys_storys.
  - rewrite incorrect_ids. apply (sublist_NoDup _ _ Hnd).
    apply fmap_sublist, sublist_filter.
  - intros t Ht. pose proof (incorrect_recount _ _ Ht) as Hm.
    unfold Story_query_feed_incorrect_total_storys in Ht.
    apply list_elem_of_bind in Ht as (f & Ht & Hf).
    destruct (decide _) as [Hne|]; [|by apply elem_of_nil in Ht].
    apply list_elem_of_singleton in Ht. subst t. by exists f.
Qed.

End RecalculatedRowsFacts.

Section RecalculatedRowsExamples.
Import AggregateRecalculator RecalculatedRows.

Lemma backfill_db_keyed : NoDup (feed_id <$> feeds backfill_db).
Proof. apply (bool_decide_unpack _). vm_compute. exact I. Qed.

Lemma drift_db_keyed : NoDup (feed_id <$> feeds drift_db).
Proof. apply (bool_decide_unpack _). vm_compute. exact I. Qed.

Lemma backfill_outcome_witness :
  warnings {| db := {| feeds :=
                   [ mkFeed 1 "https://a.example/feed" None 2 [] None
                       (Some 1555200000) false None 0 0;
                     mkFeed 2 "https://b.example/feed" None 3 [] None None false None 0 0;
                     mkFeed 3 "https://c.example/feed" None 0 [] None None false None 0 0 ];
                 storys := storys backfill_db |};
        writes := [SaveFeed (mkFeed 1 "https://a.example/feed" None 2 [] None
                               (Some 1555200000) false None 0 0)];
        warnings := [2] |}
  = [] ++ filter (fun id => lacks_first_story backfill_db id) [1; 2; 3].
Proof.
  exact (proj1 (proj2 (proj2
    (backfill_outcome (fun s => s) (fun _ => None) None [1; 2; 3]
       {| db := backfill_db; writes := []; warnings := [] |} _
       backfill_db_keyed eq_refl backfill_batch)))).
Defined.

Lemma backfill_rerun_writes_nothing_witness :
  exists st'',
    update_feed_dt_first_story_published (fun s => s) (fun _ => None) None
      {| db := {| feeds :=
                   [ mkFeed 1 "https://a.example/feed" None 2 [] None
                       (Some 1555200000) false None 0 0;
                     mkFeed 2 "https://b.example/feed" None 3 [] None None false None 0 0;
                     mkFeed 3 "https://c.example/feed" None 0 [] None None false None 0 0 ];
                 storys := storys backfill_db |};
        writes := [SaveFeed (mkFeed 1 "https://a.example/feed" None 2 [] None
                               (Some 1555200000) false None 0 0)];
        warnings := [2] |}
    = (st'', None)
    ∧ db st'' = {| feeds :=
                   [ mkFeed 1 "https://a.example/feed" None 2 [] None
                       (Some 1555200000) false None 0 0;
                     mkFeed 2 "https://b.example/feed" None 3 [] None None false None 0 0;
                     mkFeed 3 "https://c.example/feed" None 0 [] None None false None 0 0 ];
                 storys := storys backfill_db |}
    ∧ writes st'' = [SaveFeed (mkFeed 1 "https://a.example/feed" None 2 [] None
                               (Some 1555200000) false None 0 0)].
Proof.
  exact (backfill_rerun_writes_nothing (fun s => s) (fun _ => None) None
           {| db := backfill_db; writes := []; warnings := [] |} _
           backfill_db_keyed backfill_batch).
Defined.

Lemma drift_db_dryness_run :
  update_feed_dryness (fun s => s) (fun _ => None) sample_month_of sample_dryness_of
    None {| db := drift_db; writes := []; warnings := [] |}
  = ({| db := {| feeds :=
                   [ mkFeed 1 "https://a.example/feed" None 5 [(600, 2)] (Some 1) None
                       false None 0 0;
                     mkFeed 2 "https://b.example/feed" None 0 [] None None false None 0 0 ];
                 storys := storys drift_db |};
        writes := [ WriteMonthlyStoryCount 1 [(600, 2)];
                    SaveFeed (mkFeed 1 "https://a.example/feed" None 5 [(600, 2)]
                                (Some 1) None false None 0 0) ];
        warnings := [] |}, None).
Proof. vm_compute. reflexivity. Qed.

Lemma update_feed_dryness_outcome_witness :
  no_drift_dryness sample_month_of sample_dryness_of [1; 2]
    {| feeds :=
         [ mkFeed 1 "https://a.example/feed" None 5 [(600, 2)] (Some 1) None
             false None 0 0;
           mkFeed 2 "https://b.example/feed" None 0 [] None None false None 0 0 ];
       storys := storys drift_db |}.
Proof.
  exact (proj2 (proj2
    (update_feed_dryness_outcome (fun s => s) (fun _ => None) sample_month_of
       sample_dryness_of None [1; 2]
       {| db := drift_db; writes := []; warnings := [] |} _
       drift_db_keyed eq_refl drift_db_dryness_run))).
Defined.

Lemma drift_db_fix_run :
  fix_feed_total_storys false {| db := drift_db; writes := []; warnings := [] |}
  = ({| db := {| feeds :=
                   [ mkFeed 1 "https://a.example/feed" None 2 [] None None false None 0 0;
                     mkFeed 2 "https://b.example/feed" None 0 [] None None false None 0 0 ];
                 storys := storys drift_db |};
        writes := [WriteTotalStorys 1 2];
        warnings := [] |}, [(1, 5, 2)], 1).
Proof. vm_compute. reflexivity. Qed.

Lemma fix_feed_total_storys_corrects_witness :
  Story_query_feed_incorrect_total_storys
    {| feeds :=
         [ mkFeed 1 "https://a.example/feed" None 2 [] None None false None 0 0;
           mkFeed 2 "https://b.example/feed" None 0 [] None None false None 0 0 ];
       storys := storys drift_db |} = [].
Proof.
  exact (proj2 (proj2 (proj2 (proj2 (proj2
    (fix_feed_total_storys_corrects
       {| db := drift_db; writes := []; warnings := [] |} _ _ _
       drift_db_keyed drift_db_fix_run)))))).
Defined.

End RecalculatedRowsExamples.

(** ** The option texts *)

Section PiecesFacts.
Import Selection Pieces.
Variable py_strip : string -> string.
Variable py_int : string -> option Z.

Lemma split_pieces (sep : ascii) (s : string) :
  join sep (split sep s) = s
  ∧ Forall (fun piece => occurs sep piece = false) (split sep s)
  ∧ length (split sep s) = S (count sep s).
Proof.
  induction s as [|c rest (Hjoin & Hfree & Hlen)]; [by repeat constructor|].
  cbn [split count occurs]. destruct (Ascii.eqb c sep) eqn:Hc.
  - apply Ascii.eqb_eq in Hc. subst c. split; [|split].
    + destruct (split sep rest) as [|w ws] eqn:Hs; [done|].
      change (join sep ("" :: w :: ws)) with (String sep (join sep (w :: ws))).
      by rewrite Hjoin.
    + constructor; [done|apply Hfree].
    + simpl. by rewrite Hlen.
  - destruct (split sep rest) as [|w ws] eqn:Hs; [done|]. split; [|split].
    + rewrite <- Hjoin. by destruct ws.
    + apply Forall_cons in Hfree as [Hw Hws]. constructor; [|done].
      cbn [occurs]. by rewrite Hc, Hw.
    + done.
Qed.

Lemma map_result_Ok {X Y : Type} (f : X -> result Y) (xs : list X) (ys : list Y) :
  map_result f xs = Ok ys <-> Forall2 (fun x y => f x = Ok y) xs ys.
Proof.
  revert ys. induction xs as [|x xs IH]; intros ys; cbn [map_result].
  - split; [intros [= <-]; constructor | by inversion 1].
  - destruct (f x) as [y|e] eqn:Hx; cbn [bind].
    + destruct (map_result f xs) as [ys'|e] eqn:Hxs; cbn [bind].
      * split.
        -- intros [= <-]. constructor; [done | by apply IH].
        -- inversion 1 as [|? y0 ? ys0 Hy Hys]; subst.
           apply IH in Hys. congruence.
      * split; [done|]. inversion 1 as [|? y0 ? ys0 Hy Hys]; subst.
        apply IH in Hys. done.
    + split; [done|]. inversion 1; congruence.
Qed.

Lemma map_result_Raise {X Y : Type} (f : X -> result Y) (xs : list X) (e : Error) :
  map_result f xs = Raise e -> exists x, x ∈ xs ∧ f x = Raise e.
Proof.
  induction xs as [|x xs IH]; cbn [map_result]; [done|].
  destruct (f x) as [y|e'] eqn:Hx; cbn [bind].
  - destruct (map_result f xs) as [ys'|e'] eqn:Hxs; cbn [bind]; [done|].
    intros [= ->]. destruct IH as (x' & Hin & Hx'); [done|].
    exists x'. split; [by right | done].
  - intros [= ->]. exists x. split; [left | done].
Qed.

Lemma map_result_all {X Y : Type} (f : X -> result Y) (xs : list X) :
  (forall x, x ∈ xs -> exists y, f x = Ok y) -> exists ys, map_result f xs = Ok ys.
Proof.
  induction xs as [|x xs IH]; intros Hall; cbn [map_result]; [by eexists|].
  destruct (Hall x) as [y ->]; [left|]. cbn [bind].
  destruct IH as [ys ->]; [intros x' Hx'; apply Hall; by right|]. by eexists.
Qed.

(** X8: [_decode_feed_ids] is all or nothing.  The text, stripped, is cut
    at its commas into pieces that hold no comma and that give the text back
    when joined; the ids are the pieces read by [int], one id per piece and
    so one more than there are commas; and the function raises, with
    [ValueError], exactly when [int] rejects a piece. *)
Theorem decode_feed_ids_all_or_nothing (text : string) :
  let pieces := split "," (py_strip text) in
  join "," pieces = py_strip text
  ∧ Forall (fun piece => occurs "," piece = false) pieces
  ∧ (forall ids, _decode_feed_ids py_strip py_int text = Ok ids <->
       Forall2 (fun piece id => py_int piece = Some id) pieces ids)
  ∧ (forall ids, _decode_feed_ids py_strip py_int text = Ok ids ->
       length ids = S (count "," (py_strip text)))
  ∧ (forall e, _decode_feed_ids py_strip py_int text = Raise e <->
       e = ValueError ∧ exists piece, piece ∈ pieces ∧ py_int piece = None).
Proof.
  intros pieces. destruct (split_pieces "," (py_strip text)) as (Hjoin & Hfree & Hlen).
  assert (Hok : forall ids, _decode_feed_ids py_strip py_int text = Ok ids <->
                  Forall2 (fun piece id => py_int piece = Some id) pieces ids).
  { intros ids. unfold _decode_feed_ids. rewrite map_result_Ok.
    split; intros H; apply (Forall2_impl _ _ _ _ H); intros piece id;
      unfold int_of; destruct (py_int piece); naive_solver. }
  split; [done|]. split; [done|]. split; [done|]. split.
  - intros ids Hids. apply Hok, Forall2_length in Hids. by rewrite <- Hids.
  - intros e. split.
    + intros Hraise. apply map_result_Raise in Hraise as (piece & Hin & Hpiece).
      unfold int_of in Hpiece. destruct (py_int piece) eqn:Hp; [done|].
      split; [congruence|]. by exists piece.
    + intros (-> & piece & Hin & Hpiece).
      destruct (_decode_feed_ids py_strip py_int text) as [ids|e] eqn:Hrun.
      * pose proof (proj1 (Hok ids) eq_refl) as Hall.
        apply list_elem_of_lookup_1 in Hin as [i Hi].
        destruct (Forall2_lookup_l _ _ _ _ _ Hall Hi) as (id & _ & Hid). congruence.
      * apply map_result_Raise in Hrun as (piece' & _ & Hpiece').
        unfold int_of in Hpiece'. destruct (py_int piece'); congruence.
Qed.

End PiecesFacts.

(** ** The report of [delete_invalid_feeds] *)

Section ClassifierReportFacts.
Import FeedHealthClassifier ClassifierReport.
Variable name_of : Z -> string.

Abbreviation entries := (entries name_of).

Lemma dict_get_None {K V : Type} `{EqDecision K} (k : K) (d : list (K * V)) :
  dict_get k d = None -> k ∉ d.*1.
Proof.
  induction d as [|[k' v'] d IH]; simpl; [intros _; apply not_elem_of_nil|].
  destruct (decide (k' = k)); [done|]. intros Hget.
  apply not_elem_of_cons. split; [done | by apply IH].
Qed.

Lemma dict_set_absent {K V : Type} `{EqDecision K} (k : K) (v : V) (d : list (K * V)) :
  k ∉ d.*1 -> dict_set k v d = d ++ [(k, v)].
Proof.
  induction d as [|[k' v'] d IH]; simpl; [done|]. intros Hk.
  apply not_elem_of_cons in Hk as [Hne Hk].
  rewrite decide_False by done. by rewrite IH.
Qed.

Lemma sum_values_entries rows : sum_values (entries rows) = total_count rows.
Proof.
  unfold sum_values, total_count, ClassifierReport.entries.
  induction rows as [|r rows IH]; simpl; [done | f_equal; apply IH].
Qed.

Lemma rows_of_snoc id rows r :
  rows_of id (rows ++ [r])
  = rows_of id rows ++ (if decide (er_feed_id r = id) then [r] else []).
Proof.
  unfold rows_of. rewrite filter_app. f_equal.
Qed.

(** The first loop, for report rows that name each pair of feed and error
    name once: the dict of a feed lists its rows in the order of the report. *)
Lemma first_loop_entries (rows : list ErrorRow) :
  NoDup ((fun r => (er_feed_id r, name_of (er_status_code r))) <$> rows) ->
  let d := foldl (fun acc r => add_error_row name_of r acc) [] rows in
  NoDup d.*1
  ∧ (forall id, id ∉ d.*1 -> rows_of id rows = [])
  ∧ (forall id feed, (id, feed) ∈ d ->
       rows_of id rows ≠ []
       ∧ ef_error feed = entries (rows_of id rows)
       ∧ error_count feed = total_count (rows_of id rows)).
Proof.
  induction rows as [|r rows IH] using rev_ind; intros Hnd d.
  - split; [constructor|]. split; [done|]. intros id feed Hin.
    by apply elem_of_nil in Hin.
  - subst d. rewrite foldl_snoc. rewrite fmap_app in Hnd.
    apply NoDup_app in Hnd as (Hnd & Hr & _).
    destruct (IH Hnd) as (Hkeys & Hout & Hin). clear IH.
    set (d := foldl (fun acc r => add_error_row name_of r acc) [] rows) in *.
    assert (Herror :
      match dict_get (er_feed_id r) d with
      | Some feed => ef_error feed
      | None => []
      end = entries (rows_of (er_feed_id r) rows)).
    { destruct (dict_get (er_feed_id r) d) as [feed|] eqn:Hget.
      - apply dict_get_Some in Hget. by apply Hin in Hget as (_ & -> & _).
      - apply dict_get_None in Hget. by rewrite (Hout _ Hget). }
    assert (Hnew :
      dict_set (name_of (er_status_code r)) (er_count r)
        (entries (rows_of (er_feed_id r) rows))
      = entries (rows_of (er_feed_id r) (rows ++ [r]))).
    { rewrite rows_of_snoc, decide_True by done.
      unfold ClassifierReport.entries at 2. rewrite fmap_app.
      apply dict_set_absent. intros Hname.
      unfold ClassifierReport.entries in Hname. rewrite <- list_fmap_compose in Hname.
      apply list_elem_of_fmap in Hname as (r' & Hname & Hr').
      apply list_elem_of_filter in Hr' as [Hid Hr'].
      apply (Hr (er_feed_id r, name_of (er_status_code r))).
      - apply list_elem_of_fmap. exists r'. split; [|done].
        simpl in Hname. by rewrite Hname, Hid.
      - simpl. left. }
    unfold add_error_row. rewrite Herror, Hnew.
    split; [by apply NoDup_dict_set|]. split.
    + intros id Hid. rewrite dict_set_keys in Hid.
      rewrite rows_of_snoc. destruct (decide (er_feed_id r ∈ d.*1)) as [Hk|Hk].
      * rewrite (Hout id Hid). rewrite decide_False; [done|]. by intros <-.
      * apply not_elem_of_app in Hid as [Hid Hne].
        rewrite (Hout id Hid). rewrite decide_False; [done|].
        intros Heq. apply Hne. rewrite Heq. left.
    + intros id feed Hfeed. apply elem_of_dict_set in Hfeed as [Heq|[Hfeed Hother]].
      * injection Heq as -> ->. cbn [ef_error error_count].
        rewrite sum_values_entries. split; [|done].
        rewrite rows_of_snoc, decide_True by done. by destruct (rows_of _ rows).
      * specialize (Hother Hkeys). simpl in Hother.
        rewrite rows_of_snoc, decide_False by done. rewrite app_nil_r.
        by apply Hin.
Qed.

Lemma first_loop_keys (rows : list ErrorRow) acc id :
  id ∈ (foldl (fun acc r => add_error_row name_of r acc) acc rows).*1
  <-> id ∈ acc.*1 ∨ id ∈ er_feed_id <$> rows.
Proof.
  revert acc. induction rows as [|r rows IH]; intros acc; cbn [foldl].
  - rewrite fmap_nil, elem_of_nil. tauto.
  - rewrite IH. unfold add_error_row at 1. rewrite dict_set_keys, fmap_cons, elem_of_cons.
    destruct (decide (er_feed_id r ∈ acc.*1)) as [Hk|Hk].
    + split; [tauto|]. intros [?|[->|?]]; tauto.
    + rewrite elem_of_app, list_elem_of_singleton. tauto.
Qed.

Lemma second_loop_kept (rows : list (Z * Z)) (d d' : list (Z * ErrorFeed))
    (Q : Z -> ErrorFeed -> Prop) :
  (forall id feed ok percent, Q id feed ->
     Q id {| ef_feed_id := ef_feed_id feed; ef_title := ef_title feed;
             ef_link := ef_link feed; ef_url := ef_url feed;
             ef_error := ef_error feed; error_count := error_count feed;
             ok_count := ok; error_percent := percent |}) ->
  for_each rows add_ok_row d = Ok d' ->
  (forall id feed, (id, feed) ∈ d -> Q id feed) ->
  d'.*1 = d.*1 ∧ forall id feed, (id, feed) ∈ d' -> Q id feed.
Proof.
  intros HQ. revert d. induction rows as [|[id0 ok] rows IH]; intros d; cbn [for_each].
  - by intros [= <-].
  - unfold add_ok_row at 1.
    destruct (dict_get id0 d) as [feed0|] eqn:Hget; cbn [bind]; [|done].
    destruct (error_percent_of (error_count feed0) ok) as [percent|]; cbn [bind]; [|done].
    intros Hrun Hd. apply dict_get_Some in Hget.
    apply IH in Hrun as [Hkeys Hall].
    + split; [|done]. rewrite Hkeys, dict_set_keys. rewrite decide_True; [done|].
      apply list_elem_of_fmap. by exists (id0, feed0).
    + intros id feed Hfeed. apply elem_of_dict_set in Hfeed as [Heq|[Hfeed _]].
      * injection Heq as -> ->. apply HQ. by apply Hd.
      * by apply Hd.
Qed.

Lemma keyed_ids (d : list (Z * ErrorFeed)) : keyed d -> ef_feed_id <$> d.*2 = d.*1.
Proof.
  intros [_ Hid]. rewrite <- list_fmap_compose. apply list_fmap_ext.
  intros i [id feed] Hi. apply list_elem_of_lookup_2 in Hi. simpl. by apply Hid.
Qed.

Lemma insert_desc_ranked x l : ranked l -> ranked (insert_desc x l).
Proof.
  unfold ranked. induction 1 as [|y l Hl IH Hy]; simpl; [by repeat constructor|].
  destruct (decide (error_percent y <= error_percent x)) as [Hle|Hgt].
  - constructor; [by constructor|]. constructor; [done|].
    eapply Forall_impl; [exact Hy|]. simpl. intros z Hz. lia.
  - constructor; [done|]. rewrite (insert_desc_perm x l).
    constructor; [lia | done].
Qed.

Lemma sorted_desc_ranked l : ranked (sorted_desc l).
Proof.
  unfold sorted_desc. induction l as [|x l IH]; simpl; [constructor|].
  by apply insert_desc_ranked.
Qed.

Lemma ranked_filter_take (threshold : Z) (l : list ErrorFeed) :
  ranked l ->
  filter (fun feed => threshold <= error_percent feed) l
  = take (length (filter (fun feed => threshold <= error_percent feed) l)) l.
Proof.
  unfold ranked. induction 1 as [|x l Hl IH Hx]; [done|].
  rewrite filter_cons. destruct (decide (threshold <= error_percent x)) as [Hle|Hgt].
  - simpl. by rewrite <- IH.
  - assert (Hnone : filter (fun feed => threshold <= error_percent feed) l = []).
    { clear IH Hl. induction l as [|y l IHl]; [done|].
      apply Forall_cons in Hx as [Hy Hx]. rewrite filter_cons.
      rewrite decide_False by lia. by apply IHl. }
    by rewrite Hnone.
Qed.

(** X9: the report of [delete_invalid_feeds] is ranked.  It lists each feed
    of the error rows once, highest error percent first, and the feeds
    proposed for deletion are its head: the first [n] feeds of the report,
    [n] being the number of proposals. *)
Theorem report_ranked cursor now confirm days limit threshold out :
  delete_invalid_feeds name_of cursor now confirm days limit threshold = Ok out ->
  ranked (returned out)
  ∧ NoDup (ef_feed_id <$> returned out)
  ∧ (forall id, id ∈ ef_feed_id <$> returned out <->
       id ∈ er_feed_id <$> execute_sql cursor (now - days * 86400) limit)
  ∧ delete_feed_ids out
    = ef_feed_id <$> take (length (delete_feed_ids out)) (returned out).
Proof.
  intros Hrun. apply delete_invalid_feeds_Ok in Hrun as (d & Hd & Hret & Hids & _).
  pose proof (collect_keyed _ _ _ _ _ Hd) as Hkeyed.
  assert (Hperm : ef_feed_id <$> returned out ≡ₚ d.*1).
  { rewrite Hret, sorted_desc_perm. by rewrite keyed_ids. }
  assert (Hranked : ranked (returned out)).
  { rewrite Hret. apply sorted_desc_ranked. }
  split; [done|]. split; [rewrite Hperm; apply Hkeyed|]. split.
  - intros id. rewrite Hperm. unfold collect in Hd.
    apply (second_loop_kept _ _ _ (fun _ _ => True)) in Hd as [-> _]; [|done..].
    rewrite first_loop_keys. rewrite fmap_nil, elem_of_nil. tauto.
  - rewrite Hids at 1. rewrite Hids, length_fmap.
    by rewrite <- ranked_filter_take.
Qed.

(** X10: the error counts of the report add up.  When the error rows name
    each pair of feed and error name once, the [error] dict of a reported
    feed lists the rows of that feed in the order of the report, and its
    [error_count] is the sum of their counts. *)
Theorem error_count_totals cursor now confirm days limit threshold out :
  NoDup ((fun r => (er_feed_id r, name_of (er_status_code r)))
           <$> execute_sql cursor (now - days * 86400) limit) ->
  delete_invalid_feeds name_of cursor now confirm days limit threshold = Ok out ->
  forall feed, feed ∈ returned out ->
    rows_of (ef_feed_id feed) (execute_sql cursor (now - days * 86400) limit) ≠ []
    ∧ ef_error feed
      = entries (rows_of (ef_feed_id feed)
                   (execute_sql cursor (now - days * 86400) limit))
    ∧ error_count feed
      = total_count (rows_of (ef_feed_id feed)
                       (execute_sql cursor (now - days * 86400) limit)).
Proof.
  intros Hnd Hrun feed Hfeed.
  apply delete_invalid_feeds_Ok in Hrun as (d & Hd & Hret & _).
  pose proof (collect_keyed _ _ _ _ _ Hd) as [_ Hid].
  rewrite Hret, sorted_desc_perm in Hfeed.
  apply list_elem_of_fmap in Hfeed as ([id feed'] & -> & Hfeed). simpl.
  rewrite (Hid _ _ Hfeed).
  destruct (first_loop_entries _ Hnd) as (_ & _ & Hfirst).
  unfold collect in Hd.
  apply (second_loop_kept _ _ _
           (fun id feed =>
              rows_of id (execute_sql cursor (now - days * 86400) limit) ≠ []
              ∧ ef_error feed
                = entries (rows_of id (execute_sql cursor (now - days * 86400) limit))
              ∧ error_count feed
                = total_count
                    (rows_of id (execute_sql cursor (now - days * 86400) limit))))
    in Hd as [_ Hall]; [by apply Hall|done|done].
Qed.

End ClassifierReportFacts.

Section ClassifierReportExamples.
Import FeedHealthClassifier ClassifierReport.

Lemma report_ranked_witness :
  delete_feed_ids sample_outcome
  = ef_feed_id <$> take (length (delete_feed_ids sample_outcome))
                     (returned sample_outcome).
Proof.
  exact (proj2 (proj2 (proj2
    (report_ranked pretty sample_cursor 0 (fun _ => true) 1 100 99 sample_outcome
       sample_run_accepted)))).
Defined.

Lemma sample_rows_named_once :
  NoDup ((fun r => (er_feed_id r, pretty (er_status_code r)))
           <$> execute_sql sample_cursor (0 - 1 * 86400) 100).
Proof. apply (bool_decide_unpack _). vm_compute. exact I. Qed.

Lemma error_count_totals_witness :
  Forall (fun feed =>
            error_count feed
            = total_count (rows_of (ef_feed_id feed)
                             (execute_sql sample_cursor (0 - 1 * 86400) 100)))
    (returned sample_outcome).
Proof.
  apply Forall_forall. intros feed Hfeed.
  exact (proj2 (proj2
    (error_count_totals pretty sample_cursor 0 (fun _ => true) 1 100 99 sample_outcome
       sample_rows_named_once sample_run_accepted feed Hfeed))).
Defined.

End ClassifierReportExamples.

(** ** The batch of [refresh_feed] *)

Section SchedulerBatchFacts.
Import RefreshTaskScheduler Keyword.
Variable py_strip : string -> string.
Variable py_int : string -> option Z.
Variable unionid_decode : string -> option (list Z).

Lemma add_task_loop_rows expire tbl ids acc task_s :
  for_each ids (add_task expire tbl) acc = Ok task_s ->
  exists built,
    task_s = acc ++ built
    ∧ Forall2 (fun id task =>
                 exists feed, Feed_get id tbl = Ok feed ∧ task = task_for expire feed)
        ids built.
Proof.
  revert acc. induction ids as [|id ids IH]; intros acc; cbn [for_each].
  - intros [= <-]. exists []. rewrite app_nil_r. split; [done | constructor].
  - unfold add_task at 1.
    destruct (Feed_get id tbl) as [feed|] eqn:Hget; cbn [bind]; [|done].
    intros Hrest. destruct (IH _ Hrest) as (built & -> & Hall).
    exists (task_for expire feed :: built). split; [by rewrite <- app_assoc|].
    constructor; [by exists feed | done].
Qed.

Lemma add_task_loop_raises expire tbl ids acc e :
  for_each ids (add_task expire tbl) acc = Raise e ->
  e = DoesNotExist ∧ exists id, id ∈ ids ∧ id ∉ feed_id <$> tbl.
Proof.
  revert acc. induction ids as [|id ids IH]; intros acc; cbn [for_each]; [done|].
  unfold add_task at 1.
  destruct (Feed_get id tbl) as [feed|e'] eqn:Hget; cbn [bind].
  - intros Hrest. destruct (IH _ Hrest) as (-> & id' & Hin & Hout).
    split; [done|]. exists id'. split; [by right | done].
  - intros [= ->]. assert (He : e = DoesNotExist ∧ id ∉ feed_id <$> tbl).
    { clear IH. induction tbl as [|f tbl' IHt]; simpl in Hget.
      - split; [congruence | apply not_elem_of_nil].
      - destruct (decide (feed_id f = id)); [done|].
        destruct (IHt Hget) as [-> Hout]. split; [done|].
        rewrite fmap_cons. apply not_elem_of_cons. split; [congruence | done]. }
    destruct He as [-> Hout]. split; [done|]. exists id. split; [left | done].
Qed.

(** X11: the payload of a task is read from storage.  Each task of the
    batch is built from the row that the lookup by primary key returns for
    its feed id: it carries that row's url and proxy flag, is marked as a
    refresh, has the priority of a sync and expires after [expire] hours;
    the tasks follow the selected ids in ascending order. *)
Theorem refresh_feed_payload (feeds union_feeds keyword : option string)
    (expire : Z) (tbl : list Feed) (ids1 ids2 : list Z)
    (task_s : list WorkerTask) :
  ids_of_feeds py_strip py_int feeds tbl = Ok ids1 ->
  ids_of_union_feeds py_strip unionid_decode union_feeds = Ok ids2 ->
  refresh_feed py_strip py_int unionid_decode feeds union_feeds keyword expire tbl
  = Ok task_s ->
  Forall2 (fun id task =>
             exists feed,
               Feed_get id tbl = Ok feed
               ∧ task = task_for expire feed
               ∧ data task = {| td_feed_id := id; td_url := feed_url feed;
                                td_use_proxy := use_proxy feed; is_refresh := true |}
               ∧ priority task = SYNC_FEED
               ∧ expired_seconds task = expire * 3600)
    (merge_sort Z.le (remove_dups (ids1 ++ ids2 ++ ids_of_key keyword tbl)))
    task_s.
Proof.
  intros H1 H2. unfold refresh_feed. rewrite H1, H2. cbn [bind]. intros Hrun.
  apply add_task_loop_rows in Hrun as (built & -> & Hall). rewrite app_nil_l.
  apply (Forall2_impl _ _ _ _ Hall). intros id task (feed & Hget & ->).
  exists feed. split; [done|]. split; [done|].
  apply Feed_get_Ok in Hget as [_ <-]. simpl. split; [done|]. split; [done | lia].
Qed.

(** X12: the batch is all or nothing.  Once the two id options decode, the
    command builds its batch exactly when every id they name is the id of a
    stored feed; an id that is not makes it raise [Feed.DoesNotExist] before
    anything is handed to [WorkerTask.bulk_save]. *)
Theorem refresh_feed_all_or_nothing (feeds union_feeds keyword : option string)
    (expire : Z) (tbl : list Feed) (ids1 ids2 : list Z) :
  ids_of_feeds py_strip py_int feeds tbl = Ok ids1 ->
  ids_of_union_feeds py_strip unionid_decode union_feeds = Ok ids2 ->
  ((exists task_s,
      refresh_feed py_strip py_int unionid_decode feeds union_feeds keyword expire tbl
      = Ok task_s)
   <-> forall id, id ∈ ids1 ++ ids2 -> id ∈ feed_id <$> tbl)
  ∧ ((exists id, id ∈ ids1 ++ ids2 ∧ id ∉ feed_id <$> tbl) ->
     refresh_feed py_strip py_int unionid_decode feeds union_feeds keyword expire tbl
     = Raise DoesNotExist).
Proof.
  intros H1 H2.
  assert (Hfwd : forall task_s,
    refresh_feed py_strip py_int unionid_decode feeds union_feeds keyword expire tbl
    = Ok task_s -> forall id, id ∈ ids1 ++ ids2 -> id ∈ feed_id <$> tbl).
  { intros task_s Hrun id Hid. unfold refresh_feed in Hrun.
    rewrite H1, H2 in Hrun. cbn [bind] in Hrun.
    apply add_task_loop_rows in Hrun as (built & _ & Hall).
    assert (Hsel : id ∈ merge_sort Z.le
                          (remove_dups (ids1 ++ ids2 ++ ids_of_key keyword tbl))).
    { apply (proj2 (sorted_set_spec _)). rewrite app_assoc. apply elem_of_app. by left. }
    apply list_elem_of_lookup_1 in Hsel as [i Hi].
    destruct (Forall2_lookup_l _ _ _ _ _ Hall Hi) as (task & _ & feed & Hget & _).
    apply Feed_get_Ok in Hget as [Hin <-]. apply list_elem_of_fmap. by exists feed. }
  split.
  - split; [intros [task_s Hrun]; by apply (Hfwd task_s) |].
    intros Hall. by apply (refresh_feed_returns _ _ _ _ _ _ _ _ ids1 ids2).
  - intros (id & Hid & Hout).
    destruct (refresh_feed py_strip py_int unionid_decode feeds union_feeds keyword
                expire tbl) as [task_s|e] eqn:Hrun.
    + destruct Hout. by apply (Hfwd task_s).
    + unfold refresh_feed in Hrun. rewrite H1, H2 in Hrun. cbn [bind] in Hrun.
      by apply add_task_loop_raises in Hrun as [-> _].
Qed.

Lemma prefix_app (keyword text : string) :
  String.prefix keyword text = true <-> exists after, text = keyword +:+ after.
Proof.
  revert text. induction keyword as [|c keyword IH]; intros [|d text]; simpl.
  - split; [by exists "" | done].
  - split; [by exists (String d text) | done].
  - split; [done | by intros [after ?]].
  - destruct (ascii_dec c d) as [->|Hne].
    + rewrite IH. split; intros [after Heq]; exists after.
      * by subst text.
      * change (String d keyword +:+ after) with (String d (keyword +:+ after)) in Heq.
        congruence.
    + split; [done|]. intros [after Heq].
      change (String c keyword +:+ after) with (String c (keyword +:+ after)) in Heq.
      congruence.
Qed.

Lemma contains_substring (keyword text : string) :
  contains keyword text = true <-> substring_of keyword text.
Proof.
  unfold substring_of. split.
  - induction text as [|c text IH]; cbn [contains]; intros Hc;
      apply orb_true_iff in Hc as [Hc|Hc]; try done.
    + apply prefix_app in Hc as [after ->]. by exists "", after.
    + apply prefix_app in Hc as [after ->]. by exists "", after.
    + destruct (IH Hc) as (before & after & ->). by exists (String c before), after.
  - intros (before & after & ->).
    induction before as [|c before IH].
    + assert (Hp : String.prefix keyword (keyword +:+ after) = true).
      { apply prefix_app. by exists after. }
      change ("" +:+ keyword +:+ after) with (keyword +:+ after).
      revert Hp. generalize (keyword +:+ after).
      intros [|c t] Hp; cbn [contains]; by rewrite Hp.
    + change (String c before +:+ keyword +:+ after)
        with (String c (before +:+ keyword +:+ after)).
      cbn [contains]. rewrite IH. apply orb_true_r.
Qed.

(** X13: the keyword selects by substring.  A feed id is selected by
    [--key] exactly when the keyword is not empty and occurs in the url or
    in the title of a stored feed of that id; a feed without title can only
    match by its url. *)
Theorem ids_of_key_substring (keyword : option string) (tbl : list Feed) (id : Z) :
  id ∈ ids_of_key keyword tbl
  <-> exists text feed,
        keyword = Some text ∧ text ≠ "" ∧ feed ∈ tbl ∧ feed_id feed = id
        ∧ (substring_of text (feed_url feed)
           ∨ exists title, feed_title feed = Some title ∧ substring_of text title).
Proof.
  unfold ids_of_key. destruct keyword as [text|].
  2:{ rewrite elem_of_nil. split; [done | by intros (? & ? & ? & _)]. }
  destruct (decide (text = "")) as [->|Hne].
  { rewrite elem_of_nil. split; [done|]. intros (? & ? & [= <-] & ? & _). done. }
  rewrite list_elem_of_fmap. split.
  - intros (feed & -> & Hfeed). apply list_elem_of_filter in Hfeed as [Hm Hfeed].
    exists text, feed. do 4 (split; [done|]).
    unfold matches in Hm. apply Is_true_true, orb_true_iff in Hm as [Hm|Hm].
    + left. by apply contains_substring.
    + right. destruct (feed_title feed) as [title|]; [|done].
      exists title. split; [done | by apply contains_substring].
  - intros (text' & feed & [= <-] & _ & Hfeed & <- & Hm).
    exists feed. split; [done|]. apply list_elem_of_filter. split; [|done].
    unfold matches. apply Is_true_true, orb_true_iff.
    destruct Hm as [Hm|(title & -> & Hm)]; [left | right];
      by apply contains_substring.
Qed.

End SchedulerBatchFacts.

Section SchedulerBatchExamples.
Import RefreshTaskScheduler.

Lemma refresh_feed_payload_witness :
  Forall2 (fun id task =>
             exists feed,
               Feed_get id sample_feeds = Ok feed
               ∧ task = task_for 1 feed
               ∧ data task = {| td_feed_id := id; td_url := feed_url feed;
                                td_use_proxy := use_proxy feed; is_refresh := true |}
               ∧ priority task = SYNC_FEED
               ∧ expired_seconds task = 1 * 3600)
    (merge_sort Z.le
       (remove_dups ([196; 7; 196] ++ [196; 366]
                     ++ ids_of_key (Some "blog") sample_feeds)))
    [ task_for 1 (mkFeed 7 "https://other.example/feed" None 10 [] None None false None 0 0);
      task_for 1 (mkFeed 196 "https://blog.example/atom.xml" (Some "Blog") 10 [] None None false None 0 0);
      task_for 1 (mkFeed 366 "https://news.example/rss" (Some "News") 10 [] None None true None 0 0) ].
Proof.
  exact (refresh_feed_payload (fun s => s) sample_int sample_unionid_decode
           (Some "196,7,196") (Some "014064,0140be") (Some "blog") 1 sample_feeds
           [196; 7; 196] [196; 366] _ eq_refl eq_refl sample_refresh).
Defined.

Lemma refresh_feed_all_or_nothing_witness :
  refresh_feed (fun s => s) sample_int sample_unionid_decode
    (Some "196,7") (Some "014064") None 1
    [ mkFeed 196 "https://blog.example/atom.xml" (Some "Blog") 10 [] None None false None 0 0 ]
  = Raise DoesNotExist.
Proof.
  apply (proj2 (refresh_feed_all_or_nothing (fun s => s) sample_int sample_unionid_decode
                  (Some "196,7") (Some "014064") None 1
                  [ mkFeed 196 "https://blog.example/atom.xml" (Some "Blog") 10 []
                      None None false None 0 0 ]
                  [196; 7] [196] eq_refl eq_refl)).
  exists 7. split; [by apply (bool_decide_unpack _) | by apply (bool_decide_unpack _)].
Defined.

End SchedulerBatchExamples.

(** ** [update_feed_use_proxy]: completion *)

Section ProxyCompletionFacts.
Import ProxyClassifier.
Variable Reader : Type.
Variable read : Reader -> string -> bool -> Z * Reader.
Variable is_need_proxy : Z -> bool.
Variable t_2020_04_01 t_2019_12_01 : Z.

Abbreviation probe := (probe Reader read is_need_proxy).
Abbreviation promoted := (promoted is_need_proxy).
Abbreviation candidate := (candidate t_2020_04_01 t_2019_12_01).
Abbreviation update_feed_use_proxy :=
  (update_feed_use_proxy Reader read is_need_proxy t_2020_04_01 t_2019_12_01).

(** X14: the command always completes and touches candidates only.  Every
    feed it promotes is a stored candidate, so the final transaction finds
    each of them and cannot fail; a row the candidate query does not return,
    for one a feed without title or with a blacklisted title, is never
    changed; no row is added or removed; and one object is saved per
    promoted feed. *)
Theorem update_feed_use_proxy_completes (rss_proxy_enable : bool)
    (reader : Reader) (tbl : list Feed) :
  NoDup (feed_id <$> tbl) ->
  exists out,
    update_feed_use_proxy rss_proxy_enable reader tbl = Ok out
    ∧ (forall feed, feed ∈ proxy_feeds out -> feed ∈ tbl ∧ candidate feed = true)
    ∧ feed_id <$> feeds_after out = feed_id <$> tbl
    ∧ (forall (i : nat) row, tbl !! i = Some row -> candidate row = false ->
         feeds_after out !! i = Some row)
    ∧ length (saved out) = length (proxy_feeds out).
Proof.
  intros Hnd.
  destruct (update_feed_use_proxy_returns Reader read is_need_proxy t_2020_04_01
              t_2019_12_01 rss_proxy_enable reader tbl) as [out Hrun].
  exists out. split; [done|]. destruct rss_proxy_enable.
  - apply update_feed_use_proxy_Ok in Hrun as (reader' & s & Hprobe & Hmark & Hafter & Hsaved).
    apply probe_loop in Hprobe as (new & _ & Hprobed & _ & Hpf).
    rewrite app_nil_l in Hpf.
    assert (Hcand : forall feed, feed ∈ proxy_feeds out ->
                      feed ∈ tbl ∧ candidate feed = true).
    { intros feed Hfeed. rewrite Hpf in Hfeed.
      apply list_elem_of_fmap in Hfeed as (p & -> & Hp).
      apply list_elem_of_filter in Hp as [_ Hp].
      assert (Hin : probed p ∈ filter (fun feed => candidate feed) tbl).
      { rewrite <- Hprobed. apply list_elem_of_fmap. by exists p. }
      apply list_elem_of_filter in Hin as [Hc Hin]. split; [done|].
      by apply Is_true_true. }
    apply mark_loop in Hmark as (Htbl & saved_new & Hsv & Hids & _); [|done].
    rewrite app_nil_l in Hsv. split; [done|]. split; [|split].
    + by rewrite Hafter, Htbl, flag_in_ids.
    + intros i row Hi Hrow. rewrite Hafter, Htbl, list_lookup_fmap, Hi. simpl.
      f_equal. unfold flag_in. rewrite decide_False; [done|].
      intros Hin. apply list_elem_of_fmap in Hin as (feed & Hid & Hfeed).
      destruct (Hcand feed Hfeed) as [Hfeed_tbl Hfeed_cand].
      apply list_elem_of_lookup_2 in Hi.
      rewrite (NoDup_fmap_elem_inj feed_id tbl row feed Hnd Hi Hfeed_tbl Hid) in Hrow.
      congruence.
    + rewrite Hsaved, Hsv. rewrite <- (length_fmap feed_id saved_new), Hids.
      by rewrite length_fmap.
  - unfold ProxyClassifier.update_feed_use_proxy in Hrun. simpl in Hrun.
    injection Hrun as <-. simpl. split; [|done].
    intros feed Hfeed. by apply elem_of_nil in Hfeed.
Qed.

End ProxyCompletionFacts.

Section ProxyCompletionExamples.
Import ProxyClassifier.

Lemma update_feed_use_proxy_completes_witness :
  exists out,
    update_feed_use_proxy nat sample_read sample_is_need_proxy 50 10 true 0%nat
      sample_feeds = Ok out
    ∧ (forall feed, feed ∈ proxy_feeds out ->
         feed ∈ sample_feeds ∧ candidate 50 10 feed = true)
    ∧ feed_id <$> feeds_after out = feed_id <$> sample_feeds
    ∧ (forall (i : nat) row, sample_feeds !! i = Some row ->
         candidate 50 10 row = false -> feeds_after out !! i = Some row)
    ∧ length (saved out) = length (proxy_feeds out).
Proof.
  exact (update_feed_use_proxy_completes nat sample_read sample_is_need_proxy 50 10
           true 0%nat sample_feeds sample_feeds_keyed).
Defined.

End ProxyCompletionExamples.

(** ** Commands that rewrite the storys one by one *)

Section StoryLoop.
Import MathjaxFlag.
Variable body : Z + string -> State -> result State.
Variable due : Story -> bool.
Variable change : Story -> Story.
Hypothesis change_id : forall s, story_id (change s) = story_id s.
Hypothesis body_row : forall st r,
  NoDup (story_id <$> storys st) -> r ∈ storys st ->
  body (inl (story_id r)) st
  = Ok (if due r
        then {| storys := (fun s => if decide (story_id s = story_id r)
                                    then change s else s) <$> storys st;
                saved := saved st ++ [change r] |}
        else st).

Lemma story_loop (todo tbl sv : list Story) :
  NoDup (story_id <$> tbl) -> NoDup (story_id <$> todo) ->
  (forall r, r ∈ todo -> r ∈ tbl) ->
  for_each_atomic (inl <$> (story_id <$> todo)) body {| storys := tbl; saved := sv |}
  = ({| storys := (fun s => if decide (story_id s ∈ story_id <$> todo)
                            then (if due s then change s else s) else s) <$> tbl;
        saved := sv ++ (change <$> filter (fun s => due s) todo) |}, None).
Proof.
  revert tbl sv. induction todo as [|r todo IH]; intros tbl sv Hnd Htodo Hin.
  - simpl. rewrite app_nil_r. do 2 f_equal.
    symmetry. etrans; [|apply list_fmap_id]. by apply list_fmap_ext.
  - rewrite !fmap_cons. cbn [for_each_atomic].
    rewrite fmap_cons in Htodo. apply NoDup_cons in Htodo as [Hr Htodo].
    assert (Hrow : forall s, s ∈ tbl -> story_id s = story_id r -> s = r).
    { intros s Hs Hid. apply (NoDup_fmap_elem_inj story_id tbl s r Hnd Hs); [|done].
      apply Hin. left. }
    rewrite (body_row {| storys := tbl; saved := sv |} r Hnd) by (apply Hin; left).
    cbn [storys saved]. rewrite filter_cons.
    destruct (due r) eqn:Hdue.
    + rewrite decide_True by done. rewrite IH.
      * f_equal. f_equal.
        -- rewrite <- list_fmap_compose. apply list_fmap_ext. intros i s Hi.
           apply list_elem_of_lookup_2 in Hi. unfold compose.
           destruct (decide (story_id s = story_id r)) as [Hid|Hid].
           ++ rewrite change_id, Hid. rewrite decide_False by done.
              rewrite decide_True by left. rewrite (Hrow s Hi Hid). by rewrite Hdue.
           ++ destruct (decide (story_id s ∈ story_id <$> todo)) as [Hs|Hs].
              ** by rewrite decide_True by (by right).
              ** rewrite decide_False; [done|]. intros [?|?]%elem_of_cons; done.
        -- by rewrite fmap_cons, <- app_assoc.
      * rewrite <- list_fmap_compose.
        erewrite list_fmap_ext; [exact Hnd|]. intros i s _. unfold compose.
        destruct (decide _); [by rewrite change_id | done].
      * done.
      * intros r' Hr'. apply list_elem_of_fmap. exists r'. split; [|apply Hin; by right].
        rewrite decide_False; [done|]. intros Hid. apply Hr. rewrite <- Hid.
        apply list_elem_of_fmap. by exists r'.
    + rewrite decide_False by (intros []). rewrite IH; [|done|done|].
      * f_equal. f_equal. apply list_fmap_ext. intros i s Hi.
        apply list_elem_of_lookup_2 in Hi.
        destruct (decide (story_id s = story_id r)) as [Hid|Hid].
        -- rewrite Hid. rewrite decide_False by done. rewrite decide_True by left.
           rewrite (Hrow s Hi Hid). by rewrite Hdue.
        -- destruct (decide (story_id s ∈ story_id <$> todo)) as [Hs|Hs].
           ++ by rewrite decide_True by (by right).
           ++ rewrite decide_False; [done|]. intros [?|?]%elem_of_cons; done.
      * intros r' Hr'. apply Hin. by right.
Qed.

(** Over the whole table every due row is changed, and saved, once. *)
Lemma story_loop_all (tbl sv : list Story) :
  NoDup (story_id <$> tbl) ->
  for_each_atomic (inl <$> (story_id <$> tbl)) body {| storys := tbl; saved := sv |}
  = ({| storys := (fun s => if due s then change s else s) <$> tbl;
        saved := sv ++ (change <$> filter (fun s => due s) tbl) |}, None).
Proof.
  intros Hnd. rewrite story_loop by done. do 2 f_equal.
  apply list_fmap_ext. intros i s Hi. apply list_elem_of_lookup_2 in Hi.
  rewrite decide_True; [done|]. apply list_elem_of_fmap. by exists s.
Qed.

End StoryLoop.

Section StoryCommandsFacts.
Import MathjaxFlag.
Variable py_strip : string -> string.
Variable py_int : string -> option Z.
Variable story_has_mathjax : string -> bool.
Variable processor_process_story_links : string -> string -> string.

Lemma Story_get_NoDup (tbl : list Story) r :
  NoDup (story_id <$> tbl) -> r ∈ tbl -> Story_get (story_id r) tbl = Ok r.
Proof.
  induction tbl as [|s tbl IH]; intros Hnd Hr; [by apply elem_of_nil in Hr|].
  rewrite fmap_cons in Hnd. apply NoDup_cons in Hnd as [Hs Hnd]. simpl.
  apply elem_of_cons in Hr as [Heq|Hr].
  - subst s. by rewrite decide_True.
  - rewrite decide_False; [by apply IH|].
    intros Heq. apply Hs. rewrite Heq. apply list_elem_of_fmap. by exists r.
Qed.

Lemma get_story_ids_all option_storys (tbl : list Story) :
  option_storys = None ∨ option_storys = Some "" ->
  Selection._get_story_ids py_strip option_storys tbl = inl <$> (story_id <$> tbl).
Proof. by intros [->| ->]. Qed.

Lemma mathjax_body_row st r :
  NoDup (story_id <$> storys st) -> r ∈ storys st ->
  update_story_has_mathjax_body py_int story_has_mathjax (inl (story_id r)) st
  = Ok (if story_has_mathjax (story_content r)
        then {| storys := (fun s => if decide (story_id s = story_id r)
                                    then set_has_mathjax true s else s) <$> storys st;
                saved := saved st ++ [set_has_mathjax true r] |}
        else st).
Proof.
  intros Hnd Hr. unfold update_story_has_mathjax_body. cbn [pk_of bind].
  rewrite (Story_get_NoDup _ r Hnd Hr). cbn [bind].
  destruct (story_has_mathjax (story_content r)); [|done].
  do 2 f_equal. unfold save. apply list_fmap_ext. intros i s Hi.
  apply list_elem_of_lookup_2 in Hi. cbn [story_id set_has_mathjax].
  destruct (decide (story_id s = story_id r)) as [Hid|Hid]; [|done].
  by rewrite (NoDup_fmap_elem_inj story_id _ s r Hnd Hi Hr Hid).
Qed.

(** X15: [update_story_has_mathjax] over all storys, in closed form.
    Without a selection the command completes; it sets the flag of exactly
    the storys whose content has math and leaves every other column and row
    alone; it saves each of those storys once, flagged or not before; so a
    second run leaves the table as it is and saves the same storys again. *)
Theorem update_story_has_mathjax_all (option_storys : option string) (st : State) :
  option_storys = None ∨ option_storys = Some "" ->
  NoDup (story_id <$> storys st) ->
  let flagged := (fun s => if story_has_mathjax (story_content s)
                           then set_has_mathjax true s else s) <$> storys st in
  let objects := set_has_mathjax true
                   <$> filter (fun s => story_has_mathjax (story_content s))
                         (storys st) in
  update_story_has_mathjax py_strip py_int story_has_mathjax option_storys st
  = ({| storys := flagged; saved := saved st ++ objects |}, None)
  ∧ update_story_has_mathjax py_strip py_int story_has_mathjax option_storys
      {| storys := flagged; saved := saved st ++ objects |}
    = ({| storys := flagged; saved := (saved st ++ objects) ++ objects |}, None).
Proof.
  intros Hall Hnd flagged objects.
  assert (Hrun : forall tbl sv, NoDup (story_id <$> tbl) ->
    update_story_has_mathjax py_strip py_int story_has_mathjax option_storys
      {| storys := tbl; saved := sv |}
    = ({| storys := (fun s => if story_has_mathjax (story_content s)
                              then set_has_mathjax true s else s) <$> tbl;
          saved := sv ++ (set_has_mathjax true
                            <$> filter (fun s => story_has_mathjax (story_content s))
                                  tbl) |}, None)).
  { intros tbl sv Htbl. unfold update_story_has_mathjax.
    rewrite get_story_ids_all by done. cbn [storys].
    apply (story_loop_all _ (fun s => story_has_mathjax (story_content s))
             (set_has_mathjax true)); [done| |done].
    intros st0 r. apply mathjax_body_row. }
  split.
  - destruct st as [tbl sv]. by apply Hrun.
  - rewrite Hrun.
    2:{ subst flagged. rewrite <- list_fmap_compose.
        erewrite list_fmap_ext; [exact Hnd|]. intros i s _. unfold compose.
        by destruct (story_has_mathjax (story_content s)). }
    do 2 f_equal.
    + subst flagged. rewrite <- list_fmap_compose. apply list_fmap_ext.
      intros i s _. unfold compose.
      destruct (story_has_mathjax (story_content s)) eqn:Hs.
      * cbn [story_content set_has_mathjax]. by rewrite Hs.
      * by rewrite Hs.
    + f_equal. subst flagged objects. clear.
      induction (storys st) as [|s tbl IH]; [done|].
      rewrite fmap_cons, !filter_cons.
      destruct (story_has_mathjax (story_content s)) eqn:Hs.
      * cbn [story_content set_has_mathjax]. rewrite Hs.
        rewrite decide_True by done. rewrite decide_True by done.
        by rewrite !fmap_cons, IH.
      * rewrite Hs. rewrite decide_False by (intros []).
        by rewrite decide_False by (intros []).
Qed.

(** *** [process_story_links] *)

Abbreviation links_body :=
  (StoryLinks.process_story_links_body py_int processor_process_story_links).
Abbreviation processed := (StoryLinks.processed processor_process_story_links).
Abbreviation changes :=
  (fun s : Story =>
     bool_decide (story_content s
                  ≠ processor_process_story_links (story_content s) (story_link s))).

Lemma links_body_row st r :
  NoDup (story_id <$> storys st) -> r ∈ storys st ->
  links_body (inl (story_id r)) st
  = Ok (if changes r
        then {| storys := (fun s => if decide (story_id s = story_id r)
                                    then processed s else s) <$> storys st;
                saved := saved st ++ [processed r] |}
        else st).
Proof.
  intros Hnd Hr. unfold StoryLinks.process_story_links_body. cbn [pk_of bind].
  rewrite (Story_get_NoDup _ r Hnd Hr). cbn [bind].
  destruct (decide (story_content r
                    ≠ processor_process_story_links (story_content r) (story_link r)))
    as [Hne|Heq].
  - rewrite bool_decide_eq_true_2 by done.
    do 2 f_equal. unfold StoryLinks.save. apply list_fmap_ext. intros i s Hi.
    apply list_elem_of_lookup_2 in Hi.
    cbn [story_id story_content story_link StoryLinks.set_content].
    destruct (decide (story_id s = story_id r)) as [Hid|Hid]; [|done].
    by rewrite (NoDup_fmap_elem_inj story_id _ s r Hnd Hi Hr Hid).
  - by rewrite bool_decide_eq_false_2.
Qed.

Lemma processed_same s :
  story_content s = processor_process_story_links (story_content s) (story_link s) ->
  processed s = s.
Proof.
  intros Heq. unfold StoryLinks.processed. rewrite <- Heq. by destruct s.
Qed.

Lemma links_run_all option_storys (tbl sv : list Story) :
  option_storys = None ∨ option_storys = Some "" ->
  NoDup (story_id <$> tbl) ->
  StoryLinks.process_story_links py_strip py_int processor_process_story_links
    option_storys {| storys := tbl; saved := sv |}
  = ({| storys := processed <$> tbl;
        saved := sv ++ (processed <$> filter (fun s => changes s) tbl) |}, None).
Proof.
  intros Hall Hnd. unfold StoryLinks.process_story_links.
  rewrite get_story_ids_all by done. cbn [storys].
  rewrite (story_loop_all _ (fun s => changes s) processed); [|done| |done].
  - do 2 f_equal. apply list_fmap_ext. intros i s _.
    destruct (decide (story_content s
                      ≠ processor_process_story_links (story_content s) (story_link s)))
      as [Hne|Heq].
    + by rewrite bool_decide_eq_true_2.
    + rewrite bool_decide_eq_false_2 by done. symmetry. apply processed_same.
      by destruct (decide (story_content s
        = processor_process_story_links (story_content s) (story_link s))).
  - intros st0 r. apply links_body_row.
Qed.

(** X16: [process_story_links] over all storys, in closed form.  Without a
    selection the command completes; afterwards every story holds its
    content with the links processed, all other columns as before; and the
    storys saved are exactly those whose content the processor changes, in
    the order of the table. *)
Theorem process_story_links_all (option_storys : option string) (st : State) :
  option_storys = None ∨ option_storys = Some "" ->
  NoDup (story_id <$> storys st) ->
  StoryLinks.process_story_links py_strip py_int processor_process_story_links
    option_storys st
  = ({| storys := processed <$> storys st;
        saved := saved st ++ (processed <$> filter (fun s => changes s) (storys st)) |},
     None).
Proof. intros Hall Hnd. destruct st as [tbl sv]. by apply links_run_all. Qed.

(** X17: [process_story_links] settles.  If processing the processed
    content of the stored storys changes nothing more, a second run over
    all storys saves nothing and leaves the table as the first run left
    it. *)
Theorem process_story_links_settles (option_storys : option string) (st st' : State) :
  option_storys = None ∨ option_storys = Some "" ->
  NoDup (story_id <$> storys st) ->
  Forall (fun s =>
            let content :=
              processor_process_story_links (story_content s) (story_link s) in
            processor_process_story_links content (story_link s) = content)
    (storys st) ->
  StoryLinks.process_story_links py_strip py_int processor_process_story_links
    option_storys st = (st', None) ->
  StoryLinks.process_story_links py_strip py_int processor_process_story_links
    option_storys st' = (st', None).
Proof.
  intros Hall Hnd Hfix Hrun. destruct st as [tbl sv].
  rewrite links_run_all in Hrun by done. injection Hrun as <-.
  cbn [storys] in *. rewrite links_run_all; [|done|].
  2:{ rewrite <- list_fmap_compose. erewrite list_fmap_ext; [exact Hnd|].
      by intros i s _. }
  assert (Hsame : forall s, s ∈ tbl -> processed (processed s) = processed s).
  { intros s Hs. rewrite Forall_forall in Hfix. apply processed_same.
    symmetry. apply (Hfix s Hs). }
  do 2 f_equal.
  - rewrite <- list_fmap_compose. apply list_fmap_ext. intros i s Hi.
    apply list_elem_of_lookup_2 in Hi. by apply Hsame.
  - rewrite <- (app_nil_r (sv ++ _)) at 2. f_equal.
    assert (Hnone : filter (fun s => changes s) (processed <$> tbl) = []).
    { clear Hnd. induction tbl as [|s tbl IH]; [done|].
      apply Forall_cons in Hfix as [Hs Hfix]. rewrite fmap_cons, filter_cons.
      rewrite decide_False.
      - apply IH; [done|]. intros s' Hs'. apply Hsame. by right.
      - rewrite bool_decide_eq_false_2; [intros []|]. intros Hne. apply Hne.
        cbn [story_content story_link StoryLinks.processed StoryLinks.set_content].
        by rewrite Hs. }
    by rewrite Hnone.
Qed.

End StoryCommandsFacts.

Section StoryCommandsExamples.
Import MathjaxFlag.

Lemma update_story_has_mathjax_all_witness :
  update_story_has_mathjax (fun s => s) (fun _ => None) sample_has_mathjax None
    {| storys := sample_storys; saved := [] |}
  = ({| storys := (fun s => if sample_has_mathjax (story_content s)
                            then set_has_mathjax true s else s) <$> sample_storys;
        saved := [] ++ (set_has_mathjax true
                          <$> filter (fun s => sample_has_mathjax (story_content s))
                                sample_storys) |}, None).
Proof.
  exact (proj1 (update_story_has_mathjax_all (fun s => s) (fun _ => None)
                  sample_has_mathjax None {| storys := sample_storys; saved := [] |}
                  (or_introl eq_refl) sample_storys_keyed)).
Defined.

Lemma links_sample_keyed : NoDup (story_id <$> StoryLinks.sample_storys).
Proof. apply (bool_decide_unpack _). vm_compute. exact I. Qed.

Lemma process_story_links_all_witness :
  StoryLinks.process_story_links (fun s => s) (fun _ => None)
    StoryLinks.sample_processor None
    {| storys := StoryLinks.sample_storys; saved := [] |}
  = ({| storys := StoryLinks.processed StoryLinks.sample_processor
                    <$> StoryLinks.sample_storys;
        saved := [] ++ (StoryLinks.processed StoryLinks.sample_processor
                          <$> filter (fun s =>
                                bool_decide
                                  (story_content s
                                   ≠ StoryLinks.sample_processor (story_content s)
                                       (story_link s)))
                                StoryLinks.sample_storys) |}, None).
Proof.
  exact (process_story_links_all (fun s => s) (fun _ => None)
           StoryLinks.sample_processor None
           {| storys := StoryLinks.sample_storys; saved := [] |}
           (or_introl eq_refl) links_sample_keyed).
Defined.

Lemma links_sample_run :
  StoryLinks.process_story_links (fun s => s) (fun _ => None)
    StoryLinks.sample_processor None
    {| storys := StoryLinks.sample_storys; saved := [] |}
  = ({| storys :=
          [ mkStory 1 1 0 "https://a.example/img/a.png" "https://a.example" 0 false;
            mkStory 2 1 1 "https://a.example/img/b.png" "https://a.example" 0 false ];
        saved :=
          [ mkStory 1 1 0 "https://a.example/img/a.png" "https://a.example" 0 false ] |},
     None).
Proof. vm_compute. reflexivity. Qed.

Lemma links_sample_settled :
  Forall (fun s =>
            let content := StoryLinks.sample_processor (story_content s) (story_link s) in
            StoryLinks.sample_processor content (story_link s) = content)
    StoryLinks.sample_storys.
Proof. repeat constructor. Qed.

Lemma process_story_links_settles_witness :
  StoryLinks.process_story_links (fun s => s) (fun _ => None)
    StoryLinks.sample_processor None
    {| storys :=
         [ mkStory 1 1 0 "https://a.example/img/a.png" "https://a.example" 0 false;
           mkStory 2 1 1 "https://a.example/img/b.png" "https://a.example" 0 false ];
       saved :=
         [ mkStory 1 1 0 "https://a.example/img/a.png" "https://a.example" 0 false ] |}
  = ({| storys :=
          [ mkStory 1 1 0 "https://a.example/img/a.png" "https://a.example" 0 false;
            mkStory 2 1 1 "https://a.example/img/b.png" "https://a.example" 0 false ];
        saved :=
          [ mkStory 1 1 0 "https://a.example/img/a.png" "https://a.example" 0 false ] |},
     None).
Proof.
  exact (process_story_links_settles (fun s => s) (fun _ => None)
           StoryLinks.sample_processor None
           {| storys := StoryLinks.sample_storys; saved := [] |} _
           (or_introl eq_refl) links_sample_keyed links_sample_settled
           links_sample_run).
Defined.

End StoryCommandsExamples.

(** ** [update_feed_reverse_url] *)

Section ReverseUrlFacts.
Import AggregateRecalculator ReverseUrl.
Variable py_strip : string -> string.
Variable py_int : string -> option Z.
Variable reverse_url_of : string -> string.

Abbreviation reversed := (reversed reverse_url_of).
Abbreviation reverse_body := (update_feed_reverse_url_body reverse_url_of).

(** Where a loop of committed iterations stops. *)
Lemma for_each_atomic_split {X S : Type} (xs : list X) (body : X -> S -> result S)
    (s s' : S) (err : option Error) :
  for_each_atomic xs body s = (s', err) ->
  exists processed,
    for_each_atomic processed body s = (s', None)
    ∧ match err with
      | None => processed = xs
      | Some e => exists x rest, xs = processed ++ x :: rest ∧ body x s' = Raise e
      end.
Proof.
  revert s. induction xs as [|x xs IH]; intros s; cbn [for_each_atomic].
  - intros [= <- <-]. by exists [].
  - destruct (body x s) as [s1|e] eqn:Hx.
    + intros Hrun. destruct (IH _ Hrun) as (processed & Hp & Herr).
      exists (x :: processed). cbn [for_each_atomic]. rewrite Hx. split; [done|].
      destruct err as [e|]; [|by subst].
      destruct Herr as (y & rest & -> & Hy). by exists y, rest.
    + intros [= <- <-]. exists []. split; [done|]. by exists x, xs.
Qed.

Lemma Feed_get_by_pk_raises id (tbl : list Feed) e :
  Feed_get_by_pk id tbl = Raise e -> e = DoesNotExist ∧ id ∉ feed_id <$> tbl.
Proof.
  induction tbl as [|f tbl IH]; simpl.
  - intros [= <-]. split; [done | apply not_elem_of_nil].
  - destruct (decide (feed_id f = id)); [done|]. intros Hget.
    destruct (IH Hget) as [-> Hout]. split; [done|].
    apply not_elem_of_cons. split; [congruence | done].
Qed.

Lemma reverse_step id s s' :
  NoDup (feed_id <$> feeds (db s)) -> reverse_body id s = Ok s' ->
  id ∈ feed_id <$> feeds (db s)
  ∧ feeds (db s') = update_feed id reversed (feeds (db s))
  ∧ storys (db s') = storys (db s).
Proof.
  intros Hnd. unfold update_feed_reverse_url_body.
  destruct (Feed_get_by_pk id (feeds (db s))) as [f|e] eqn:Hget; cbn [bind]; [|done].
  apply Feed_get_by_pk_Ok in Hget as [Hf Hid]. intros [= <-].
  split; [apply list_elem_of_fmap; by exists f|]. split; [|done].
  unfold save. cbn [db feeds feed_id set_reverse_url]. rewrite Hid.
  apply update_feed_ext. intros g Hg Hgid.
  by rewrite (NoDup_fmap_elem_inj feed_id _ g f Hnd Hg Hf) by congruence.
Qed.

(** X18: [update_feed_reverse_url] stops at the first unknown id and keeps
    what it did before.  The ids are worked off in order; the rows of the
    ids reached hold the reverse of their url, their other columns, the
    other rows and the storys are as before; the run ends without error when
    all ids were reached, and otherwise with [Feed.DoesNotExist] at the
    first id that is not the id of a stored feed. *)
Theorem update_feed_reverse_url_outcome (option_feeds : string) (ids : list Z)
    (st st' : State) (err : option Error) :
  NoDup (feed_id <$> feeds (db st)) ->
  Selection._get_feed_ids py_strip py_int (Some option_feeds) (feeds (db st)) = Ok ids ->
  update_feed_reverse_url py_strip py_int reverse_url_of option_feeds st = (st', err) ->
  exists reached,
    feeds (db st')
    = (fun f => if decide (feed_id f ∈ reached) then reversed f else f)
        <$> feeds (db st)
    ∧ storys (db st') = storys (db st)
    ∧ feed_url <$> feeds (db st') = feed_url <$> feeds (db st)
    ∧ (forall id, id ∈ reached -> id ∈ feed_id <$> feeds (db st))
    ∧ match err with
      | None => reached = ids
      | Some e =>
          e = DoesNotExist
          ∧ exists id rest, ids = reached ++ id :: rest
              ∧ id ∉ feed_id <$> feeds (db st)
      end.
Proof.
  intros Hnd Hids Hrun. unfold update_feed_reverse_url in Hrun.
  rewrite (over_feeds_ids _ _ _ _ _ _ Hids) in Hrun.
  apply for_each_atomic_split in Hrun as (reached & Hrun & Herr).
  destruct (rowwise_loop reverse_body (fun _ => reversed)) with
    (ids := reached) (s := st) (s' := st') as (Hall & Hf & Hs); try done.
  { intros id t t' Ht Hstep. by apply reverse_step. }
  exists reached. split; [done|]. split; [done|]. split; [|split; [done|]].
  - rewrite Hf, <- list_fmap_compose. apply list_fmap_ext. intros i f _.
    unfold compose. by destruct (decide _).
  - destruct err as [e|]; [|done].
    destruct Herr as (id & rest & -> & Hid).
    unfold update_feed_reverse_url_body in Hid.
    destruct (Feed_get_by_pk id (feeds (db st'))) as [f|e'] eqn:Hget; [done|].
    cbn [bind] in Hid. injection Hid as ->.
    apply Feed_get_by_pk_raises in Hget as [-> Hout]. split; [done|].
    exists id, rest. split; [done|]. intros Hin. apply Hout.
    rewrite Hf, <- list_fmap_compose.
    apply list_elem_of_fmap in Hin as (f & -> & Hin).
    apply list_elem_of_fmap. exists f. split; [|done].
    unfold compose. by destruct (decide _).
Qed.

End ReverseUrlFacts.

Section ReverseUrlExamples.
Import AggregateRecalculator ReverseUrl.

Lemma reverse_sample_keyed : NoDup (feed_id <$> feeds sample_db).
Proof. apply (bool_decide_unpack _). vm_compute. exact I. Qed.

Lemma reverse_sample_run :
  update_feed_reverse_url (fun s => s) sample_int sample_reverse_url "2,9,1"
    {| db := sample_db; writes := []; warnings := [] |}
  = ({| db := {| feeds :=
                   [ mkFeed 1 "https://a.example/feed" None 0 [] None None false None 0 0;
                     mkFeed 2 "https://b.example/feed" None 0 [] None None false
                       (Some "rev!https://b.example/feed") 0 0 ];
                 storys := [] |};
        writes := [SaveFeed (mkFeed 2 "https://b.example/feed" None 0 [] None None false
                               (Some "rev!https://b.example/feed") 0 0)];
        warnings := [] |}, Some DoesNotExist).
Proof. vm_compute. reflexivity. Qed.

Lemma update_feed_reverse_url_outcome_witness :
  exists reached,
    [ mkFeed 1 "https://a.example/feed" None 0 [] None None false None 0 0;
      mkFeed 2 "https://b.example/feed" None 0 [] None None false
        (Some "rev!https://b.example/feed") 0 0 ]
    = (fun f => if decide (feed_id f ∈ reached)
                then reversed sample_reverse_url f else f) <$> feeds sample_db
    ∧ exists id rest, [2; 9; 1] = reached ++ id :: rest
        ∧ id ∉ feed_id <$> feeds sample_db.
Proof.
  destruct (update_feed_reverse_url_outcome (fun s => s) sample_int sample_reverse_url
              "2,9,1" [2; 9; 1] {| db := sample_db; writes := []; warnings := [] |}
              _ _ reverse_sample_keyed eq_refl reverse_sample_run)
    as (reached & Hf & _ & _ & _ & _ & Herr).
  exists reached. split; [exact Hf | exact Herr].
Defined.

End ReverseUrlExamples.

(** ** [subscribe_changelog] *)

Section ChangelogFacts.
Import Changelog.
Variable feed_truth : Feed -> bool.

Lemma rstrip_snoc (c : ascii) (s : string) :
  rstrip c (s +:+ String c EmptyString) = rstrip c s.
Proof.
  induction s as [|d s IH].
  - simpl. by rewrite Ascii.eqb_refl.
  - change (String d s +:+ String c "") with (String d (s +:+ String c "")).
    cbn [rstrip]. by rewrite IH.
Qed.

Lemma UserFeed_first_Some user_id fid tbl uf :
  UserFeed_first user_id fid tbl = Some uf ->
  uf ∈ tbl ∧ uf_user_id uf = user_id ∧ uf_feed_id uf = fid.
Proof.
  unfold UserFeed_first. intros Hhead. apply head_Some_elem_of in Hhead.
  apply list_elem_of_filter in Hhead as [[? ?] ?]. done.
Qed.

Lemma UserFeed_first_None user_id fid tbl :
  UserFeed_first user_id fid tbl = None -> ¬ subscribed user_id fid tbl.
Proof.
  unfold UserFeed_first. intros Hhead (uf & Huf & Hu & Hf).
  apply head_None in Hhead.
  assert (Hin : uf ∈ filter (fun uf => uf_user_id uf = user_id ∧ uf_feed_id uf = fid) tbl).
  { by apply list_elem_of_filter. }
  rewrite Hhead in Hin. by apply elem_of_nil in Hin.
Qed.

(** The loop: rows are only appended, one for each user without a row, and
    afterwards every user has one. *)
Lemma subscribe_loop feed (users : list Z) (tbl : list UserFeed) :
  exists new,
    foldl (subscribe feed) tbl users = tbl ++ new
    ∧ (forall user_id, user_id ∈ users ->
         subscribed user_id (feed_id feed) (tbl ++ new))
    ∧ Forall (fun uf => uf_feed_id uf = feed_id feed ∧ is_from_bookmark uf = false
                        ∧ uf_user_id uf ∈ users
                        ∧ ¬ subscribed (uf_user_id uf) (feed_id feed) tbl) new
    ∧ NoDup (uf_user_id <$> new).
Proof.
  revert tbl. induction users as [|u users IH]; intros tbl; cbn [foldl].
  - exists []. rewrite app_nil_r. split; [done|]. split; [|split; constructor].
    intros ? Hin. by apply elem_of_nil in Hin.
  - unfold subscribe at 2.
    destruct (UserFeed_first u (feed_id feed) tbl) as [uf|] eqn:Hfirst.
    + destruct (IH tbl) as (new & Hrun & Hall & Hnew & Hnd).
      exists new. split; [done|]. split; [|split; [|done]].
      * intros user_id [->|Hin]%elem_of_cons; [|by apply Hall].
        apply UserFeed_first_Some in Hfirst as (Huf & Hu & Hf).
        exists uf. split; [|done]. apply elem_of_app. by left.
      * eapply Forall_impl; [exact Hnew|]. simpl. intros x (?&?&?&?).
        repeat split; try done. by right.
    + apply UserFeed_first_None in Hfirst.
      destruct (IH (tbl ++ [mkUserFeed u (feed_id feed) false]))
        as (new & Hrun & Hall & Hnew & Hnd).
      exists (mkUserFeed u (feed_id feed) false :: new).
      rewrite Hrun, <- app_assoc. split; [done|]. split; [|split].
      * intros user_id [->|Hin]%elem_of_cons.
        -- exists (mkUserFeed u (feed_id feed) false). split; [|done].
           apply elem_of_app. right. left.
        -- rewrite <- app_assoc in Hall. by apply Hall.
      * constructor; [simpl; repeat split; try done; left|].
        eapply Forall_impl; [exact Hnew|]. simpl. intros x (?&?&?&Hx).
        repeat split; try done; [by right|].
        intros (uf & Huf & ? & ?). apply Hx. exists uf. split; [|done].
        apply elem_of_app. by left.
      * rewrite fmap_cons. apply NoDup_cons. split; [|done]. simpl.
        intros Hin. apply list_elem_of_fmap in Hin as (x & Hxu & Hx).
        rewrite Forall_forall in Hnew. destruct (Hnew x Hx) as (Hxf & _ & _ & Hns).
        apply Hns. exists (mkUserFeed u (feed_id feed) false).
        split; [apply elem_of_app; right; left | done].
Qed.

Lemma subscribe_loop_settled feed (users : list Z) (tbl : list UserFeed) :
  (forall user_id, user_id ∈ users -> subscribed user_id (feed_id feed) tbl) ->
  foldl (subscribe feed) tbl users = tbl.
Proof.
  induction users as [|u users IH]; intros Hall; cbn [foldl]; [done|].
  unfold subscribe at 2.
  destruct (UserFeed_first u (feed_id feed) tbl) as [uf|] eqn:Hfirst.
  - apply IH. intros user_id Hin. apply Hall. by right.
  - apply UserFeed_first_None in Hfirst. destruct Hfirst. apply Hall. left.
Qed.

(** X19: [subscribe_changelog] subscribes everybody, once.  When the
    changelog feed is found, every user has a user feed for it afterwards;
    the rows there before are kept, in order; the rows added are for
    distinct users that had none, for this feed, and not from a bookmark;
    and a second run adds nothing. *)
Theorem subscribe_changelog_subscribes (root_url : string) (feeds : list Feed)
    (users : list Z) (userfeeds userfeeds' : list UserFeed) (feed : Feed)
    (echoed : list Event) :
  Feed_get_by_url (rstrip "/" root_url +:+ "/changelog.atom") feeds = inr feed ->
  feed_truth feed = true ->
  subscribe_changelog feed_truth root_url feeds users userfeeds
  = inr (userfeeds', echoed) ->
  (forall user_id, user_id ∈ users -> subscribed user_id (feed_id feed) userfeeds')
  ∧ (exists new,
       userfeeds' = userfeeds ++ new
       ∧ Forall (fun uf => uf_feed_id uf = feed_id feed ∧ is_from_bookmark uf = false
                           ∧ uf_user_id uf ∈ users
                           ∧ ¬ subscribed (uf_user_id uf) (feed_id feed) userfeeds) new
       ∧ NoDup (uf_user_id <$> new))
  ∧ echoed = [EchoFeed feed; EchoTotal (length users)]
  ∧ subscribe_changelog feed_truth root_url feeds users userfeeds'
    = inr (userfeeds', echoed).
Proof.
  intros Hget Htruth. unfold subscribe_changelog. rewrite Hget, Htruth. cbn [negb].
  intros [= <- <-].
  destruct (subscribe_loop feed users userfeeds) as (new & Hrun & Hall & Hnew & Hnd).
  rewrite Hrun. split; [done|]. split; [by exists new|]. split; [done|].
  by rewrite subscribe_loop_settled.
Qed.

(** X20: the changelog url.  Trailing slashes of the root url do not
    matter to the command; and without exactly one feed of the changelog
    url, or with a feed object that is false, it adds no user feed: the
    lookup raises, or the command reports that the feed is not found. *)
Theorem subscribe_changelog_lookup (root_url : string) (feeds : list Feed)
    (users : list Z) (userfeeds : list UserFeed) :
  subscribe_changelog feed_truth (root_url +:+ "/") feeds users userfeeds
  = subscribe_changelog feed_truth root_url feeds users userfeeds
  ∧ (forall userfeeds' echoed,
       subscribe_changelog feed_truth root_url feeds users userfeeds
       = inr (userfeeds', echoed) ->
       userfeeds' ≠ userfeeds ->
       exists feed,
         filter (fun f => feed_url f = rstrip "/" root_url +:+ "/changelog.atom") feeds
         = [feed]
         ∧ feed_truth feed = true).
Proof.
  split.
  - unfold subscribe_changelog. by rewrite rstrip_snoc.
  - intros userfeeds' echoed. unfold subscribe_changelog, Feed_get_by_url.
    destruct (filter _ feeds) as [|feed [|feed' rest]]; [done| |done].
    destruct (feed_truth feed) eqn:Htruth; cbn [negb].
    + intros _ _. by exists feed.
    + intros [= <- <-] Hne. done.
Qed.

End ChangelogFacts.

Section ChangelogExamples.
Import Changelog.

Lemma subscribe_changelog_subscribes_witness :
  subscribe_changelog (fun _ => true) "https://rss.example//" sample_feeds [10; 11; 10]
    [ mkUserFeed 10 2 false; mkUserFeed 11 1 true; mkUserFeed 10 1 false ]
  = inr ([ mkUserFeed 10 2 false; mkUserFeed 11 1 true; mkUserFeed 10 1 false ],
         [ EchoFeed (mkFeed 1 "https://rss.example/changelog.atom" (Some "Changelog") 0 []
                       None None false None 0 0);
           EchoTotal 3 ]).
Proof.
  exact (proj2 (proj2 (proj2
    (subscribe_changelog_subscribes (fun _ => true) "https://rss.example//" sample_feeds
       [10; 11; 10] sample_userfeeds _
       (mkFeed 1 "https://rss.example/changelog.atom" (Some "Changelog") 0 []
          None None false None 0 0)
       _ eq_refl eq_refl eq_refl)))).
Defined.

End ChangelogExamples.

(** ** [update_feed_monthly_story_count] *)

Section MonthlyFacts.
Import AggregateRecalculator.
Variable py_strip : string -> string.
Variable py_int : string -> option Z.
Variable month_of : Z -> Z.

Abbreviation monthly_of := (monthly_of month_of).
Abbreviation refresh_monthly := (Story_refresh_feed_monthly_story_count month_of).

Lemma monthly_of_same_storys id a b :
  storys a = storys b -> monthly_of id a = monthly_of id b.
Proof.
  intros Heq. unfold AggregateRecalculator.monthly_of, storys_of. by rewrite Heq.
Qed.

Lemma monthly_loop (ids : list Z) (s : State) :
  exists s',
    for_each_atomic ids (fun id st => Ok (refresh_monthly id st)) s = (s', None)
    ∧ feeds (db s')
      = (fun f => if decide (feed_id f ∈ ids)
                  then set_monthly_story_count (monthly_of (feed_id f) (db s)) f
                  else f) <$> feeds (db s)
    ∧ storys (db s') = storys (db s)
    ∧ writes s'
      = writes s ++ ((fun id => WriteMonthlyStoryCount id (monthly_of id (db s))) <$> ids)
    ∧ warnings s' = warnings s.
Proof.
  revert s. induction ids as [|id ids IH]; intros s; cbn [for_each_atomic].
  - exists s. rewrite app_nil_r. repeat split; try done.
    symmetry. etrans; [|apply list_fmap_id]. apply list_fmap_ext. intros i f _.
    rewrite decide_False; [done|]. apply not_elem_of_nil.
  - destruct (IH (refresh_monthly id s)) as (s' & Hrun & Hf & Hs & Hw & Hwarn).
    exists s'. split; [done|]. unfold Story_refresh_feed_monthly_story_count in Hf, Hs, Hw, Hwarn.
    cbn [db feeds storys writes warnings] in Hf, Hs, Hw, Hwarn.
    split; [|split; [done|split; [|done]]].
    + rewrite Hf. unfold update_feed. rewrite <- list_fmap_compose.
      apply list_fmap_ext. intros i f _. unfold compose.
      destruct (decide (feed_id f = id)) as [Hid|Hid].
      * rewrite (decide_True (P := feed_id f ∈ id :: ids)) by (rewrite Hid; left).
        cbn [feed_id set_monthly_story_count]. rewrite Hid.
        destruct (decide (id ∈ ids)); [|done].
        by rewrite (monthly_of_same_storys id (mkStorage _ (storys (db s))) (db s)).
      * destruct (decide (feed_id f ∈ ids)) as [Hin|Hin].
        -- rewrite decide_True by (by right).
           by rewrite (monthly_of_same_storys _ (mkStorage _ (storys (db s))) (db s)).
        -- rewrite decide_False; [done|]. intros [?|?]%elem_of_cons; done.
    + rewrite Hw, <- app_assoc, fmap_cons. do 2 f_equal.
Qed.

(** X21: [update_feed_monthly_story_count] rebuilds what it selects.  When
    the selection decodes, the command completes; it sends one write per
    selected id, in order; afterwards every selected feed holds the
    histogram of its storys, the other columns, the other feeds and the
    storys are as before, and the selected feeds are free of drift. *)
Theorem update_feed_monthly_story_count_outcome (option_feeds : option string)
    (ids : list Z) (st : State) :
  Selection._get_feed_ids py_strip py_int option_feeds (feeds (db st)) = Ok ids ->
  exists st',
    update_feed_monthly_story_count py_strip py_int month_of option_feeds st
    = (st', None)
    ∧ feeds (db st')
      = (fun f => if decide (feed_id f ∈ ids)
                  then set_monthly_story_count (monthly_of (feed_id f) (db st)) f
                  else f) <$> feeds (db st)
    ∧ storys (db st') = storys (db st)
    ∧ writes st'
      = writes st
        ++ ((fun id => WriteMonthlyStoryCount id (monthly_of id (db st))) <$> ids)
    ∧ no_drift_monthly month_of ids (db st').
Proof.
  intros Hids. destruct (monthly_loop ids st) as (st' & Hrun & Hf & Hs & Hw & _).
  exists st'. unfold update_feed_monthly_story_count.
  rewrite (over_feeds_ids _ _ _ _ _ _ Hids). do 4 (split; [done|]).
  intros f' Hf' Hin. rewrite Hf in Hf'.
  apply list_elem_of_fmap in Hf' as (f & -> & _).
  rewrite (monthly_of_same_storys _ _ (db st) Hs).
  destruct (decide (feed_id f ∈ ids)) as [|Hout]; [done|].
  by destruct Hout.
Qed.

End MonthlyFacts.

Section MonthlyExamples.
Import AggregateRecalculator RecalculatedRows.

Lemma update_feed_monthly_story_count_outcome_witness :
  exists st',
    update_feed_monthly_story_count (fun s => s) (fun _ => None) sample_month_of None
      {| db := drift_db; writes := []; warnings := [] |}
    = (st', None)
    ∧ feeds (db st')
      = (fun f => if decide (feed_id f ∈ [1; 2])
                  then set_monthly_story_count
                         (monthly_of sample_month_of (feed_id f) drift_db) f
                  else f) <$> feeds drift_db
    ∧ storys (db st') = storys drift_db
    ∧ writes st'
      = [] ++ ((fun id => WriteMonthlyStoryCount id (monthly_of sample_month_of id drift_db))
                 <$> [1; 2])
    ∧ no_drift_monthly sample_month_of [1; 2] (db st').
Proof.
  exact (update_feed_monthly_story_count_outcome (fun s => s) (fun _ => None)
           sample_month_of None [1; 2]
           {| db := drift_db; writes := []; warnings := [] |} eq_refl).
Defined.

End MonthlyExamples.

(** ** [delete_feed] *)

Section DeleteFeedFacts.
Import AggregateRecalculator DeleteFeed.
Variable py_int : string -> option Z.
Variable feed_truth : Feed -> bool.

Lemma filter_all {A : Type} (P : A -> Prop) `{!forall x, Decision (P x)} (l : list A) :
  (forall x, x ∈ l -> P x) -> filter P l = l.
Proof.
  induction l as [|x l IH]; intros Hall; [done|].
  rewrite filter_cons_True by (apply Hall; left). f_equal.
  apply IH. intros y Hy. apply Hall. by right.
Qed.

Lemma delete_split (before after : list Feed) victim :
  NoDup (feed_id <$> before ++ victim :: after) ->
  delete victim (before ++ victim :: after) = before ++ after.
Proof.
  intros Hnd. unfold delete. rewrite fmap_app, fmap_cons in Hnd.
  apply NoDup_app in Hnd as (_ & Hbefore & Hafter).
  apply NoDup_cons in Hafter as [Hafter _].
  rewrite filter_app, filter_cons_False by (by intros []).
  f_equal; apply filter_all; intros f Hf Heq.
  - apply (Hbefore (feed_id f)); [apply list_elem_of_fmap; by exists f|].
    rewrite Heq. left.
  - apply Hafter. rewrite <- Heq. apply list_elem_of_fmap. by exists f.
Qed.

Lemma first_by_pk_Some (rows : list Feed) f :
  first_by_pk rows = Some f ->
  f ∈ rows ∧ forall g, g ∈ rows -> feed_id f <= feed_id g.
Proof.
  revert f. induction rows as [|x rows IH]; intros f; cbn [first_by_pk]; [done|].
  destruct (first_by_pk rows) as [g|] eqn:Hrest.
  - destruct (IH g eq_refl) as [Hg Hleast].
    destruct (decide (feed_id g < feed_id x)) as [Hlt|Hge]; intros [= <-].
    + split; [by right|]. intros h [->|Hh]%elem_of_cons; [lia | by apply Hleast].
    + split; [left|]. intros h [->|Hh]%elem_of_cons; [lia|].
      specialize (Hleast h Hh). lia.
  - intros [= <-]. destruct rows as [|y rows]; [|simpl in Hrest].
    + split; [left|]. by intros h ->%list_elem_of_singleton.
    + by destruct (first_by_pk rows) as [g|]; [destruct (decide _)|].
Qed.

(** X22: [delete_feed] deletes at most the one feed it asked about.  With
    a numeric key the feed is looked up by primary key only, never by
    keyword, and an unknown id raises [Feed.DoesNotExist]; otherwise the
    feed is, of the stored feeds whose url or title contains the key, the
    one of least id.  The table changes only when the operator confirms,
    and then exactly that row is gone, the others staying in order. *)
Theorem delete_feed_one (key : string) (confirm : Feed -> bool) (tbl : list Feed) :
  NoDup (feed_id <$> tbl) ->
  (forall pk, py_int key = Some pk -> pk ∉ feed_id <$> tbl ->
     delete_feed py_int feed_truth key confirm tbl = Raise DoesNotExist)
  ∧ (forall tbl' shown,
       delete_feed py_int feed_truth key confirm tbl = Ok (tbl', shown) ->
       tbl' ≠ tbl ->
       exists before victim after,
         tbl = before ++ victim :: after
         ∧ tbl' = before ++ after
         ∧ shown = [Confirm victim true]
         ∧ confirm victim = true
         ∧ match py_int key with
           | Some pk => feed_id victim = pk
           | None =>
               RefreshTaskScheduler.matches key victim = true
               ∧ forall f, f ∈ tbl -> RefreshTaskScheduler.matches key f = true ->
                   feed_id victim <= feed_id f
           end).
Proof.
  intros Hnd. split.
  - intros pk Hpk Hout. unfold delete_feed. rewrite Hpk.
    destruct (Feed_get_by_pk pk tbl) as [feed|e] eqn:Hget.
    + apply Feed_get_by_pk_Ok in Hget as [Hin <-]. destruct Hout.
      apply list_elem_of_fmap. by exists feed.
    + by apply Feed_get_by_pk_raises in Hget as [-> _].
  - intros tbl' shown. unfold delete_feed.
    destruct (py_int key) as [pk|] eqn:Hkey.
    + destruct (Feed_get_by_pk pk tbl) as [feed|e] eqn:Hget; cbn [bind]; [|done].
      destruct (feed_truth feed); cbn [negb]; [|by intros [= <- _] []].
      destruct (confirm feed) eqn:Hconfirm; [|by intros [= <- _] []].
      intros [= <- <-] _. apply Feed_get_by_pk_Ok in Hget as [Hin Hid].
      apply list_elem_of_split in Hin as (before & after & ->).
      exists before, feed, after. by rewrite delete_split.
    + cbn [bind]. destruct (Feed_first_like key tbl) as [feed|] eqn:Hfirst;
        [|by intros [= <- _] []].
      destruct (feed_truth feed); cbn [negb]; [|by intros [= <- _] []].
      destruct (confirm feed) eqn:Hconfirm; [|by intros [= <- _] []].
      intros [= <- <-] _. unfold Feed_first_like in Hfirst.
      apply first_by_pk_Some in Hfirst as [Hfeed Hleast].
      apply list_elem_of_filter in Hfeed as [Hm Hin].
      assert (Hall : forall f, f ∈ tbl -> RefreshTaskScheduler.matches key f = true ->
                       feed_id feed <= feed_id f).
      { intros f Hf Hmf. apply Hleast. apply list_elem_of_filter. split; [|done].
        by apply Is_true_true. }
      apply list_elem_of_split in Hin as (before & after & ->).
      exists before, feed, after. rewrite delete_split by done.
      do 4 (split; [done|]). split; [by apply Is_true_true | done].
Qed.

End DeleteFeedFacts.

Section DeleteFeedExamples.
Import DeleteFeed.

Lemma delete_sample_keyed : NoDup (feed_id <$> sample_feeds).
Proof. apply (bool_decide_unpack _). vm_compute. exact I. Qed.

Lemma delete_sample_run :
  delete_feed sample_int (fun _ => true) "blog" (fun _ => true) sample_feeds
  = Ok ([ mkFeed 3 "https://c.example/feed" (Some "A blog") 0 [] None None false None 0 0;
          mkFeed 2 "https://b.example/feed" None 0 [] None None false None 0 0 ],
        [ Confirm (mkFeed 1 "https://a.example/feed" (Some "My blog 9") 0 [] None None
                     false None 0 0) true ]).
Proof. vm_compute. reflexivity. Qed.

Lemma delete_feed_one_witness :
  delete_feed sample_int (fun _ => true) "9" (fun _ => true) sample_feeds
  = Raise DoesNotExist
  ∧ exists before victim after,
      sample_feeds = before ++ victim :: after
      ∧ [ mkFeed 3 "https://c.example/feed" (Some "A blog") 0 [] None None false None 0 0;
          mkFeed 2 "https://b.example/feed" None 0 [] None None false None 0 0 ]
        = before ++ after
      ∧ RefreshTaskScheduler.matches "blog" victim = true
      ∧ Forall (fun f => RefreshTaskScheduler.matches "blog" f = true ->
                         feed_id victim <= feed_id f) sample_feeds.
Proof.
  split.
  - apply (proj1 (delete_feed_one sample_int (fun _ => true) "9" (fun _ => true)
                    sample_feeds delete_sample_keyed) 9 eq_refl).
    by apply (bool_decide_unpack _).
  - destruct (proj2 (delete_feed_one sample_int (fun _ => true) "blog" (fun _ => true)
                       sample_feeds delete_sample_keyed) _ _ delete_sample_run)
      as (before & victim & after & Htbl & Htbl' & _ & _ & Hm & Hleast).
    { intros Heq. discriminate Heq. }
    exists before, victim, after. split; [exact Htbl|]. split; [exact Htbl'|].
    split; [exact Hm|]. apply Forall_forall. exact Hleast.
Defined.

End DeleteFeedExamples.

(** ** The exceptions of [delete_invalid_feeds] *)

Section ClassifierErrorsFacts.
Import FeedHealthClassifier.
Variable name_of : Z -> string.

Lemma int_true_div_positive (a b : Z) :
  0 < a -> 0 < b -> exists x, PyFloat.int_true_div a b = Ok x.
Proof.
  intros Ha Hb. destruct a as [|a|a]; [lia| |lia]. destruct b as [|b|b]; [lia| |lia].
  unfold PyFloat.int_true_div.
  destruct (SFdiv_core_binary _ _ _ _ _ _) as [[mz ez] lz]. by eexists.
Qed.

Lemma round_raises (x : spec_float) (e : Error) :
  PyFloat.round x = Raise e -> e = ValueError ∨ e = OverflowError.
Proof. destruct x; simpl; intros [= <-]; auto. Qed.

Lemma second_loop_raises (rows : list (Z * Z)) (d : list (Z * ErrorFeed)) (e : Error) :
  (forall id feed, (id, feed) ∈ d -> 0 < error_count feed) ->
  (forall row, row ∈ rows -> row.1 ∈ d.*1 ∧ 0 <= row.2) ->
  for_each rows add_ok_row d = Raise e ->
  e = ValueError ∨ e = OverflowError.
Proof.
  revert d. induction rows as [|[id0 ok] rows IH]; intros d Hpos Hrows;
    cbn [for_each]; [done|].
  destruct (Hrows (id0, ok)) as [Hkey Hok]; [left|]. cbn [fst snd] in Hkey, Hok.
  unfold add_ok_row at 1.
  destruct (dict_get id0 d) as [feed0|] eqn:Hget.
  2:{ by apply dict_get_None in Hget. }
  apply dict_get_Some in Hget. pose proof (Hpos _ _ Hget) as Hcount.
  unfold error_percent_of.
  destruct (int_true_div_positive (error_count feed0) (error_count feed0 + ok))
    as [ratio ->]; [lia..|]. cbn [bind].
  destruct (PyFloat.round _) as [percent|e'] eqn:Hround; cbn [bind].
  - apply IH.
    + intros id feed [[= -> ->]|[Hin _]]%elem_of_dict_set; [done | by apply (Hpos id)].
    + intros row Hrow. rewrite dict_set_keys.
      rewrite decide_True by (apply list_elem_of_fmap; by exists (id0, feed0)).
      apply Hrows. by right.
  - intros [= <-]. by apply round_raises in Hround.
Qed.

(** X23: the exceptions of [delete_invalid_feeds].  A window that cannot
    be computed, [--days] beyond what a timedelta holds or a start outside
    the years of a datetime, ends the command in [OverflowError] before any
    query.  Otherwise, the two queries returning their rows, when every
    error row counts more than three fetches and the ok-count report names
    only feeds it was asked for, with counts that are not negative, the
    command never ends in the [KeyError] of an unknown feed nor in a
    [ZeroDivisionError]: it returns its report, or [round] rejects the
    percentage. *)
Theorem delete_invalid_feeds_errors cursor now confirm days limit threshold :
  let rows := execute_sql cursor (now - days * 86400) limit in
  let ids := (foldl (fun acc r => add_error_row name_of r acc) [] rows).*1 in
  (forall r, r ∈ rows -> 3 < er_count r) ->
  (forall row, row ∈ execute_sql_ok_count cursor (now - days * 86400) ids ->
     row.1 ∈ ids ∧ 0 <= row.2) ->
  (¬ window_in_range now days ->
   delete_invalid_feeds name_of cursor now confirm days limit threshold
   = Raise OverflowError)
  ∧ (window_in_range now days ->
     (exists out,
        delete_invalid_feeds name_of cursor now confirm days limit threshold = Ok out)
     ∨ delete_invalid_feeds name_of cursor now confirm days limit threshold
       = Raise ValueError
     ∨ delete_invalid_feeds name_of cursor now confirm days limit threshold
       = Raise OverflowError).
Proof.
  intros rows ids Hrows Hok. split.
  - intros Hout. unfold delete_invalid_feeds, timedelta_days, datetime_sub.
    destruct (decide (-999999999 <= days <= 999999999)) as [Hdays|]; cbn [bind]; [|done].
    destruct (decide (datetime_min <= now - days * 86400 <= datetime_max)) as [Ht|];
      cbn [bind]; [|done].
    by destruct Hout.
  - intros [Hdays Ht].
    destruct (delete_invalid_feeds name_of cursor now confirm days limit threshold)
      as [out|e] eqn:Hrun; [left; by exists out|]. right.
    unfold delete_invalid_feeds, timedelta_days, datetime_sub in Hrun.
    rewrite decide_True in Hrun by done. cbn [bind] in Hrun.
    rewrite decide_True in Hrun by done. cbn [bind] in Hrun.
    destruct (collect name_of cursor (now - days * 86400) limit) as [d|e'] eqn:Hd;
      cbn [bind] in Hrun.
    { by destruct (foldl (propose threshold) _ _). }
    injection Hrun as ->. unfold collect in Hd.
    destruct (first_loop name_of rows Hrows) as [_ Hfresh].
    apply second_loop_raises in Hd as [-> | ->]; [by left | by right | |done].
    intros id feed Hin. destruct (Hfresh _ _ Hin) as (_ & _ & Hne & Hpos & ->).
    by apply sum_values_pos.
Qed.

End ClassifierErrorsFacts.

Section ClassifierErrorsExamples.
Import FeedHealthClassifier.

Lemma sample_ok_rows_asked :
  Forall (fun row =>
            row.1 ∈ (foldl (fun acc r => add_error_row pretty r acc) []
                       (execute_sql sample_cursor (0 - 1 * 86400) 100)).*1
            ∧ 0 <= row.2)
    (execute_sql_ok_count sample_cursor (0 - 1 * 86400)
       (foldl (fun acc r => add_error_row pretty r acc) []
          (execute_sql sample_cursor (0 - 1 * 86400) 100)).*1).
Proof.
  repeat constructor; try (by apply (bool_decide_unpack _)); simpl; lia.
Qed.

Lemma sample_window : window_in_range 0 1.
Proof. unfold window_in_range, datetime_min, datetime_max. lia. Qed.

(** A window of a thousand million days *)
Lemma sample_window_too_long : ¬ window_in_range 0 1000000000.
Proof. unfold window_in_range. lia. Qed.

Lemma delete_invalid_feeds_errors_witness :
  delete_invalid_feeds pretty sample_cursor 0 (fun _ => true) 1000000000 100 99
  = Raise OverflowError
  ∧ ((exists out,
        delete_invalid_feeds pretty sample_cursor 0 (fun _ => true) 1 100 99 = Ok out)
     ∨ delete_invalid_feeds pretty sample_cursor 0 (fun _ => true) 1 100 99
       = Raise ValueError
     ∨ delete_invalid_feeds pretty sample_cursor 0 (fun _ => true) 1 100 99
       = Raise OverflowError).
Proof.
  split.
  - apply (proj1 (delete_invalid_feeds_errors pretty sample_cursor 0 (fun _ => true)
                    1000000000 100 99 sample_rows_counted
                    (proj1 (Forall_forall _ _) sample_ok_rows_asked))).
    exact sample_window_too_long.
  - apply (proj2 (delete_invalid_feeds_errors pretty sample_cursor 0 (fun _ => true)
                    1 100 99 sample_rows_counted
                    (proj1 (Forall_forall _ _) sample_ok_rows_asked))).
    exact sample_window.
Defined.

End ClassifierErrorsExamples.
